(** * html-banner-generator: the reconciliation engine of [bin/cli.js]

    A shallow embedding of the command-line generator: the JavaScript values
    it reads from [formats.json], the host functions it calls (number and
    string conversions, [JSON.stringify], [path.join], [fs-extra]), and the
    functions of [bin/cli.js] themselves, followed by the properties of the
    reconciliation engine, the fingerprinter, the filter engine, the template
    instantiator, the size guard and the packager. *)

From Stdlib Require Import ZArith List String Ascii Bool Lia.
From Stdlib Require Import Floats.SpecFloat.
From stdpp Require Import base list strings gmap sorting.

Open Scope string_scope.
Open Scope list_scope.
Open Scope Z_scope.

(** ** Host: IEEE 754 binary64 numbers *)

Module Num.

(** A JavaScript number is a binary64 float: [prec = 53], [emax = 1024]. *)
Definition number := spec_float.

Definition of_Z (z : Z) : number := binary_normalize 53 1024 z 0 false.

Definition nan : number := S754_nan.

Definition mul : number -> number -> number := SFmul 53 1024.

Definition leb : number -> number -> bool := SFleb.

Definition eqb : number -> number -> bool := SFeqb.

(** [Number.isFinite] on a number. *)
Definition isFinite (x : number) : bool :=
  match x with
  | S754_zero _ | S754_finite _ _ _ => true
  | _ => false
  end.

(** Number of decimal digits of a positive integer (0 for 0). *)
Fixpoint ndigits_fuel (fuel : nat) (n : Z) : Z :=
  match fuel with
  | O => 0
  | S f => if n <=? 0 then 0 else 1 + ndigits_fuel f (n / 10)
  end.

Definition ndigits (n : Z) : Z := ndigits_fuel (S (Z.to_nat (Z.log2 n))) n.

(** The binary64 value nearest to [n * 10^e10] (ties to even), for [0 <= n],
    negated when [neg]: the value StringToNumber gives a decimal literal.
    Literals beyond the range of binary64 are cut off before the power of
    ten is computed. *)
Definition of_decimal (neg : bool) (n : Z) (e10 : Z) : number :=
  match n with
  | Zpos p =>
      if 400 <? ndigits n + e10 then S754_infinity neg
      else if ndigits n + e10 <? -400 then S754_zero neg
      else if 0 <=? e10 then binary_round 53 1024 neg (Z.to_pos (n * 10 ^ e10)) 0
      else
        let '(mz, ez, lz) := SFdiv_core_binary 53 1024 (Zpos p) 0 (10 ^ (- e10)) 0 in
        binary_round_aux 53 1024 neg mz ez lz
  | _ => S754_zero neg
  end.

(** [Math.round]: the nearest integer, ties towards +infinity; the sign of a
    zero result is the sign of the argument. *)
Definition round (x : number) : number :=
  match x with
  | S754_finite s m e =>
      if 0 <=? e then x
      else
        let d := 2 ^ (- e) in
        let v := if s then Z.neg m else Z.pos m in
        let r := (2 * v + d) / (2 * d) in
        binary_normalize 53 1024 r 0 s
  | _ => x
  end.

(** *** Number::toString (radix 10) *)

Fixpoint digits_fuel (fuel : nat) (n : Z) (acc : string) : string :=
  match fuel with
  | O => acc
  | S f =>
      let acc' := String (ascii_of_N (Z.to_N (48 + n mod 10))) acc in
      if n / 10 =? 0 then acc' else digits_fuel f (n / 10) acc'
  end.

(** Decimal digits of a non-negative integer. *)
Definition digits (n : Z) : string :=
  digits_fuel (S (Z.to_nat (Z.log2 n))) n "".

Definition int_to_string (z : Z) : string :=
  if z <? 0 then "-" +:+ digits (- z) else digits z.

(** Is [m * 2^e < 10^n] ? *)
Definition below_pow10 (m e n : Z) : bool :=
  m * 2 ^ Z.max e 0 * 10 ^ Z.max (- n) 0 <? 10 ^ Z.max n 0 * 2 ^ Z.max (- e) 0.

Fixpoint find_n (fuel : nat) (m e n : Z) : Z :=
  match fuel with
  | O => n
  | S f => if below_pow10 m e n then n else find_n f m e (n + 1)
  end.

(** The least [n] with [m * 2^e < 10^n]. *)
Definition magnitude (m e : Z) : Z :=
  let l := Z.log2 m + e in
  find_n 8 m e (Z.min (l * 30102 / 100000) (l * 30103 / 100000) - 1).

(** The candidates for a [k]-digit decimal of [x = m * 2^e] with
    [10^(n-1) <= x < 10^n]: the two integers around [x * 10^(k-n)], kept
    when they read back as [x]; the nearer one wins, the even one on a tie. *)
Definition candidate (m e n k : Z) : option (Z * Z) :=
  let x := S754_finite false (Z.to_pos m) e in
  let t := n - k in
  let xnum := m * 2 ^ Z.max e 0 in
  let xden := 2 ^ Z.max (- e) 0 in
  let tnum := 10 ^ Z.max t 0 in
  let tden := 10 ^ Z.max (- t) 0 in
  let lo := (xnum * tden) / (xden * tnum) in
  let hi := lo + 1 in
  let ok s :=
    match of_decimal false s t with
    | S754_finite false m' e' => (m' =? Z.to_pos m)%positive && (e' =? e)
    | _ => false
    end in
  let norm s := if s =? 10 ^ k then (s / 10, n + 1) else (s, n) in
  match ok lo, ok hi with
  | true, true =>
      match 2 * xnum * tden ?= (2 * lo + 1) * tnum * xden with
      | Lt => Some (norm lo)
      | Gt => Some (norm hi)
      | Eq => Some (norm (if Z.even lo then lo else hi))
      end
  | true, false => Some (norm lo)
  | false, true => Some (norm hi)
  | false, false => None
  end.

Fixpoint shortest (fuel : nat) (m e n k : Z) : Z * Z * Z :=
  match fuel with
  | O => (0, k, n)
  | S f =>
      match candidate m e n k with
      | Some (s, n') => (s, k, n')
      | None => shortest f m e n (k + 1)
      end
  end.

Fixpoint zeros (n : nat) : string :=
  match n with O => "" | S k => "0" +:+ zeros k end.

Definition take_str (n : nat) (s : string) : string := substring 0 n s.
Definition drop_str (n : nat) (s : string) : string :=
  substring n (String.length s - n) s.

(** The digits [s] (there are [k] of them) placed by the exponent [n]. *)
Definition layout (s k n : Z) : string :=
  let ds := digits s in
  if (k <=? n) && (n <=? 21) then ds +:+ zeros (Z.to_nat (n - k))
  else if (0 <? n) && (n <=? 21) then
    take_str (Z.to_nat n) ds +:+ "." +:+ drop_str (Z.to_nat n) ds
  else if (-6 <? n) && (n <=? 0) then "0." +:+ zeros (Z.to_nat (- n)) +:+ ds
  else
    let ex := (if n - 1 <? 0 then "-" else "+") +:+ digits (Z.abs (n - 1)) in
    if k =? 1 then ds +:+ "e" +:+ ex
    else take_str 1 ds +:+ "." +:+ drop_str 1 ds +:+ "e" +:+ ex.

Definition toString (x : number) : string :=
  match x with
  | S754_nan => "NaN"
  | S754_zero _ => "0"
  | S754_infinity s => if s then "-Infinity" else "Infinity"
  | S754_finite s m e =>
      let '(d, k, n) := shortest 17 (Z.pos m) e (magnitude (Z.pos m) e) 1 in
      (if s then "-" else "") +:+ layout d k n
  end.

End Num.


(** ** Host: strings

    A string is its sequence of code units; the model covers the code units
    below 256, one [ascii] each. *)

Module Str.

Definition code (c : ascii) : Z := Z.of_N (N_of_ascii c).

(** WhiteSpace and LineTerminator code units: what [trim] strips and [\s]
    matches. *)
Definition isSpace (c : ascii) : bool :=
  let n := code c in
  ((9 <=? n) && (n <=? 13)) || (n =? 32) || (n =? 160).

(** [\d] *)
Definition isDigit (c : ascii) : bool :=
  let n := code c in (48 <=? n) && (n <=? 57).

(** [\w] *)
Definition isWord (c : ascii) : bool :=
  let n := code c in
  ((48 <=? n) && (n <=? 57)) || ((65 <=? n) && (n <=? 90))
  || ((97 <=? n) && (n <=? 122)) || (n =? 95).

(** The canonical form of a code unit under the [i] flag, on letters. *)
Definition lower (c : ascii) : ascii :=
  let n := code c in
  if (65 <=? n) && (n <=? 90) then ascii_of_N (Z.to_N (n + 32)) else c.

Fixpoint lowercase (s : string) : string :=
  match s with
  | EmptyString => EmptyString
  | String c r => String (lower c) (lowercase r)
  end.

(** [s] without its leading code units satisfying [p]. *)
Fixpoint dropWhile (p : ascii -> bool) (s : string) : string :=
  match s with
  | String c r => if p c then dropWhile p r else s
  | EmptyString => s
  end.

(** [s] without its trailing code units satisfying [p]. *)
Fixpoint dropWhileEnd (p : ascii -> bool) (s : string) : string :=
  match s with
  | EmptyString => EmptyString
  | String c r =>
      match dropWhileEnd p r with
      | EmptyString => if p c then EmptyString else String c EmptyString
      | r' => String c r'
      end
  end.

Definition trimStart (s : string) : string := dropWhile isSpace s.
Definition trimEnd (s : string) : string := dropWhileEnd isSpace s.

Definition trim (s : string) : string := trimEnd (trimStart s).

Definition startsWith (s p : string) : bool := String.prefix p s.

(** [s.includes(p)] *)
Fixpoint includes (s p : string) : bool :=
  String.prefix p s ||
  match s with
  | EmptyString => false
  | String _ r => includes r p
  end.

(** [s.endsWith(p)] *)
Fixpoint endsWith (s p : string) : bool :=
  (s =? p)%string ||
  match s with
  | EmptyString => false
  | String _ r => endsWith r p
  end.

(** The first [String.length s - n] code units of [s]. *)
Definition dropEnd (n : nat) (s : string) : string :=
  substring 0 (String.length s - n) s.

(** The maximal prefix of code units satisfying [p], and the rest. *)
Fixpoint span (p : ascii -> bool) (s : string) : string * string :=
  match s with
  | String c r =>
      if p c then let '(a, b) := span p r in (String c a, b) else (EmptyString, s)
  | EmptyString => (EmptyString, EmptyString)
  end.

(** [s.split(sep)] for a one-unit separator. *)
Fixpoint split (sep : ascii) (s : string) : list string :=
  match s with
  | EmptyString => [EmptyString]
  | String c r =>
      if Ascii.eqb c sep then EmptyString :: split sep r
      else
        match split sep r with
        | x :: xs => String c x :: xs
        | [] => [String c EmptyString]
        end
  end.

Fixpoint join (sep : string) (l : list string) : string :=
  match l with
  | [] => ""
  | [x] => x
  | x :: r => x +:+ sep +:+ join sep r
  end.

(** Value of a string of digits in base [b]; [None] on a foreign unit. *)
Definition digitValue (b : Z) (c : ascii) : option Z :=
  let n := code c in
  let v := if (48 <=? n) && (n <=? 57) then n - 48
           else if (97 <=? n) && (n <=? 102) then n - 87
           else if (65 <=? n) && (n <=? 70) then n - 55
           else 99 in
  if v <? b then Some v else None.

Fixpoint readBase (b : Z) (acc : Z) (s : string) : option Z :=
  match s with
  | EmptyString => Some acc
  | String c r =>
      match digitValue b c with
      | Some v => readBase b (acc * b + v) r
      | None => None
      end
  end.

(** Code-unit order, the order of [Array.prototype.sort] without a
    comparator. *)
Definition le (a b : string) : Prop := (a <=? b)%string = true.

#[export] Instance le_dec (a b : string) : Decision (le a b) :=
  bool_eq_dec (a <=? b)%string true.

Definition sort (l : list string) : list string := merge_sort le l.

End Str.

(** ** Host: values, conversions, [JSON.stringify] *)

Inductive exn : Type :=
| TypeError
| IOError
| NoFormats
| InvalidWidthHeight
| TemplateNotFound (type : string).

Inductive result (A : Type) : Type :=
| Ok (a : A)
| Err (e : exn).
Arguments Ok {A} a.
Arguments Err {A} e.

Definition bind {A B : Type} (r : result A) (k : A -> result B) : result B :=
  match r with
  | Ok a => k a
  | Err e => Err e
  end.

Notation "'let*' x ':=' r 'in' k" := (bind r (fun x => k))
  (at level 10, x pattern, r at level 100, k at level 200).

Module JS.

Import Num.

(** A value as [JSON.parse] builds it, and [undefined]. An object lists its
    own properties in the order of their creation, each key once; values
    are trees: no object is reachable twice. *)
#[warnings="-register-all"]
Inductive value : Type :=
| VUndefined
| VNull
| VBool (b : bool)
| VNum (n : number)
| VStr (s : string)
| VArr (l : list value)
| VObj (l : list (string * value)).

Definition num (z : Z) : value := VNum (of_Z z).

Fixpoint assoc {A : Type} (k : string) (l : list (string * A)) : option A :=
  match l with
  | [] => None
  | (k', v) :: r => if (k =? k')%string then Some v else assoc k r
  end.

Definition hasOwn (k : string) (l : list (string * value)) : bool :=
  match assoc k l with Some _ => true | None => false end.

(** [x.k], for a name [k] that no prototype defines. *)
Definition get (x : value) (k : string) : result value :=
  match x with
  | VUndefined | VNull => Err TypeError
  | VObj l => Ok (default VUndefined (assoc k l))
  | _ => Ok VUndefined
  end.

(** [x?.k] *)
Definition getOpt (x : value) (k : string) : value :=
  match x with
  | VObj l => default VUndefined (assoc k l)
  | _ => VUndefined
  end.

Definition nullish (x : value) : bool :=
  match x with VUndefined | VNull => true | _ => false end.

(** [a ?? b] *)
Definition coalesce (a b : value) : value := if nullish a then b else a.

(** ToBoolean *)
Definition truthy (x : value) : bool :=
  match x with
  | VUndefined | VNull => false
  | VBool b => b
  | VNum (S754_zero _) | VNum S754_nan => false
  | VNum _ => true
  | VStr s => negb (s =? "")%string
  | VArr _ | VObj _ => true
  end.

(** [a === b], where two objects are never the same object: in every
    comparison of the program one side was just built. *)
Definition strictEq (a b : value) : bool :=
  match a, b with
  | VUndefined, VUndefined => true
  | VNull, VNull => true
  | VBool x, VBool y => Bool.eqb x y
  | VNum x, VNum y => eqb x y
  | VStr x, VStr y => (x =? y)%string
  | _, _ => false
  end.

(** ToString. An object with an own [toString] member has no callable
    conversion left: a TypeError. *)
Fixpoint ToString (x : value) : result string :=
  match x with
  | VUndefined => Ok "undefined"
  | VNull => Ok "null"
  | VBool b => Ok (if b then "true" else "false")
  | VNum n => Ok (toString n)
  | VStr s => Ok s
  | VArr l =>
      (fix joinAll (l : list value) : result string :=
         match l with
         | [] => Ok ""
         | e :: r =>
             let* s := (if nullish e then Ok "" else ToString e) in
             match r with
             | [] => Ok s
             | _ => let* t := joinAll r in Ok (s +:+ "," +:+ t)
             end
         end) l
  | VObj l => if hasOwn "toString" l then Err TypeError else Ok "[object Object]"
  end.

(** StrDecimalLiteral without its sign: digits, fraction, exponent. *)
Definition readDecimal (neg : bool) (s : string) : number :=
  let '(ip, r1) := Str.span Str.isDigit s in
  let '(fp, r2) :=
    match r1 with
    | String "."%char r => Str.span Str.isDigit r
    | _ => (EmptyString, r1)
    end in
  let mant := default 0 (Str.readBase 10 0 (ip +:+ fp)) in
  let frac := Z.of_nat (String.length fp) in
  if (String.length ip + String.length fp =? 0)%nat then nan
  else
    match r2 with
    | EmptyString => of_decimal neg mant (- frac)
    | String c r =>
        if (Str.code c =? 101) || (Str.code c =? 69) then
          let '(eneg, ds) :=
            match r with
            | String "-"%char d => (true, d)
            | String "+"%char d => (false, d)
            | _ => (false, r)
            end in
          match ds, Str.readBase 10 0 ds with
          | String _ _, Some ev =>
              of_decimal neg mant ((if eneg then - ev else ev) - frac)
          | _, _ => nan
          end
        else nan
    end.

Definition readRadix (b : Z) (ds : string) : number :=
  match ds, Str.readBase b 0 ds with
  | String _ _, Some v => of_decimal false v 0
  | _, _ => nan
  end.

(** StringToNumber *)
Definition StringToNumber (s : string) : number :=
  let t := Str.trim s in
  match t with
  | EmptyString => S754_zero false
  | String "0"%char (String "x"%char r) | String "0"%char (String "X"%char r) =>
      readRadix 16 r
  | String "0"%char (String "o"%char r) | String "0"%char (String "O"%char r) =>
      readRadix 8 r
  | String "0"%char (String "b"%char r) | String "0"%char (String "B"%char r) =>
      readRadix 2 r
  | String "-"%char r =>
      if (r =? "Infinity")%string then S754_infinity true else readDecimal true r
  | String "+"%char r =>
      if (r =? "Infinity")%string then S754_infinity false else readDecimal false r
  | _ => if (t =? "Infinity")%string then S754_infinity false else readDecimal false t
  end.

(** ToNumber, the conversion behind [Number(x)]. *)
Definition ToNumber (x : value) : result number :=
  match x with
  | VUndefined => Ok nan
  | VNull => Ok (S754_zero false)
  | VBool b => Ok (if b then of_Z 1 else S754_zero false)
  | VNum n => Ok n
  | VStr s => Ok (StringToNumber s)
  | VArr _ | VObj _ => let* s := ToString x in Ok (StringToNumber s)
  end.

(** *** Property order and [JSON.stringify] *)

(** An array index: a canonical numeric string below 2^32 - 1. *)
Definition arrayIndex (k : string) : option Z :=
  match k with
  | EmptyString => None
  | String c r =>
      if (Str.code c =? 48) && negb (r =? "")%string then None
      else
        match Str.readBase 10 0 k with
        | Some v => if v <=? 4294967294 then Some v else None
        | None => None
        end
  end.

Definition indexKeys (ks : list string) : list Z :=
  omap arrayIndex ks.

(** OrdinaryOwnPropertyKeys: the array indices in ascending order, then the
    other keys in the order of their creation. *)
Definition ownKeys (l : list (string * value)) : list string :=
  let ks := map fst l in
  map int_to_string (merge_sort Z.le (indexKeys ks))
  ++ filter (fun k => arrayIndex k = None) ks.

(** [o[k] = v] on an ordinary object: the key [__proto__] reaches the
    prototype setter and creates no property. *)
Fixpoint setOwn (k : string) (v : value) (l : list (string * value))
  : list (string * value) :=
  match l with
  | [] => [(k, v)]
  | (k', v') :: r => if (k =? k')%string then (k, v) :: r else (k', v') :: setOwn k v r
  end.

Definition setProp (l : list (string * value)) (k : string) (v : value)
  : list (string * value) :=
  if (k =? "__proto__")%string then l else setOwn k v l.

Definition hex (n : Z) : ascii :=
  ascii_of_N (Z.to_N (if n <? 10 then 48 + n else 87 + n)).

Definition quoteUnit (c : ascii) : string :=
  let n := Str.code c in
  if n =? 8 then "\b"
  else if n =? 9 then "\t"
  else if n =? 10 then "\n"
  else if n =? 12 then "\f"
  else if n =? 13 then "\r"
  else if n =? 34 then String "\"%char (String c EmptyString)
  else if n =? 92 then "\\"
  else if n <? 32 then "\u00" +:+ String (hex (n / 16)) (String (hex (n mod 16)) "")
  else String c EmptyString.

Fixpoint quoteBody (s : string) : string :=
  match s with
  | EmptyString => EmptyString
  | String c r => quoteUnit c +:+ quoteBody r
  end.

(** QuoteJSONString *)
Definition quote (s : string) : string :=
  String (ascii_of_N 34) (quoteBody s +:+ String (ascii_of_N 34) EmptyString).

(** SerializeJSONProperty without indentation; [None] is [undefined]. *)
Fixpoint serialize (x : value) : option string :=
  match x with
  | VUndefined => None
  | VNull => Some "null"
  | VBool b => Some (if b then "true" else "false")
  | VNum n => Some (if isFinite n then toString n else "null")
  | VStr s => Some (quote s)
  | VArr l =>
      Some ("[" +:+ Str.join "," (map (fun e => default "null" (serialize e)) l) +:+ "]")
  | VObj l =>
      let members :=
        map (fun '(k, v) => (k, serialize v)) l in
      Some ("{" +:+
            Str.join ","
              (omap (fun k =>
                       match assoc k members with
                       | Some (Some s) => Some (quote k +:+ ":" +:+ s)
                       | _ => None
                       end) (ownKeys l))
            +:+ "}")
  end.

(** [JSON.stringify(x)]: a string, or [undefined]. *)
Definition JSON_stringify (x : value) : value :=
  match serialize x with
  | Some s => VStr s
  | None => VUndefined
  end.

(** What [JSON.parse] reads back from [JSON.stringify(x)], the order of the
    keys of an object aside, which no lookup by name depends on. *)
Fixpoint jsonCopy (x : value) : value :=
  match x with
  | VNum n => if isFinite n then (match n with S754_zero _ => VNum (S754_zero false) | _ => x end) else VNull
  | VArr l => VArr (map (fun e => match e with VUndefined => VNull | _ => jsonCopy e end) l)
  | VObj l =>
      VObj (omap (fun '(k, v) =>
                    match v with
                    | VUndefined => None
                    | _ => Some (k, jsonCopy v)
                    end) l)
  | _ => x
  end.

End JS.

(** ** Host: paths (POSIX) *)

Module Path.

(** An absolute, normalized path: its segments from the root. *)
Definition path := list string.

Definition step (p : path) (seg : string) : path :=
  if (seg =? "")%string || (seg =? ".")%string then p
  else if (seg =? "..")%string then removelast p
  else p ++ [seg].

(** [path.join(p, arg)] for a normalized absolute [p]. *)
Definition join1 (p : path) (arg : string) : path :=
  fold_left step (Str.split "/" arg) p.

Definition join (p : path) (args : list string) : path :=
  fold_left join1 args p.

(** [path.resolve(p, ...args)]: an absolute argument starts over. *)
Definition resolve (p : path) (args : list string) : path :=
  fold_left (fun acc a => if Str.startsWith a "/" then join1 [] a else join1 acc a)
            args p.

Fixpoint slashed (p : path) : string :=
  match p with
  | [] => ""
  | seg :: r => "/" +:+ seg +:+ slashed r
  end.

Definition toString (p : path) : string :=
  match p with
  | [] => "/"
  | _ => slashed p
  end.

End Path.

(** ** Host: the file system, [fs-extra], mustache, archiver *)

Module Fs.

Import JS.
Abbreviation path := Path.path.

(** What a file holds. A JSON document is kept as the value [fs.readJson]
    reads from it; [Text] is any other text, which [fs.readJson] rejects;
    [Rendered t v] is the text [mustache.render(t, v)], an opaque service. *)
Inductive content : Type :=
| Text (s : string)
| Json (v : value)
| Rendered (template : content) (view : value).

(** A directory lists its entries in the order [fs.readdir] reports them,
    each name once. *)
#[warnings="-register-all"]
Inductive node : Type :=
| File (c : content)
| Dir (entries : list (string * node)).

Definition entries := list (string * node).

Definition lookup (name : string) (d : entries) : option node := assoc name d.

(** [fs.pathExists(dir/name)] *)
Definition hasEntry (name : string) (d : entries) : bool :=
  match lookup name d with Some _ => true | None => false end.

(** Create or replace the entry [name]. *)
Fixpoint put (name : string) (n : node) (d : entries) : entries :=
  match d with
  | [] => [(name, n)]
  | (k, x) :: r => if (name =? k)%string then (name, n) :: r else (k, x) :: put name n r
  end.

(** The node at a relative path. *)
Fixpoint at_path (p : list string) (n : node) : option node :=
  match p with
  | [] => Some n
  | seg :: r =>
      match n with
      | Dir d =>
          match lookup seg d with
          | Some c => at_path r c
          | None => None
          end
      | File _ => None
      end
  end.

Definition isDirectory (n : node) : bool :=
  match n with Dir _ => true | File _ => false end.

(** [fs.ensureDir(dir/name)] inside the directory [d]. *)
Definition ensureDir (name : string) (d : entries) : result entries :=
  match lookup name d with
  | None => Ok (put name (Dir []) d)
  | Some (Dir _) => Ok d
  | Some (File _) => Err IOError
  end.

(** [fs.copy(src, dest, { overwrite: false, errorOnExist: false, filter })]
    below the root: [s] is the node at [src], [d] what [dest] holds. A file
    is copied where nothing exists and left alone where a file exists;
    a directory is created or merged; a file facing a directory is an
    error. The filter is asked for every item before it is touched. *)
Fixpoint copyNode (filter : path -> bool) (src : path) (s : node) (d : option node)
  : result node :=
  match s with
  | File c =>
      match d with
      | None => Ok (File c)
      | Some (File c') => Ok (File c')
      | Some (Dir _) => Err IOError
      end
  | Dir items =>
      match d with
      | Some (File _) => Err IOError
      | _ =>
          let* es :=
            (fix copyItems (items : list (string * node)) (acc : entries)
               : result entries :=
               match items with
               | [] => Ok acc
               | (name, child) :: r =>
                   if filter (src ++ [name]) then
                     let* n := copyNode filter (src ++ [name]) child (lookup name acc) in
                     copyItems r (put name n acc)
                   else copyItems r acc
               end) items (match d with Some (Dir es) => es | _ => [] end) in
          Ok (Dir es)
      end
  end.

(** The two ends are compared before anything else: a file cannot be copied
    onto a directory, nor a directory onto a file. A copy that fails is
    taken to leave the destination as it was: the items that [fs.copy] has
    copied before it fails are not kept. *)
Definition clash (s : node) (d : option node) : bool :=
  match s, d with
  | File _, Some (Dir _) | Dir _, Some (File _) => true
  | _, _ => false
  end.

Definition copy (filter : path -> bool) (src : path) (s : node) (d : option node)
  : result (option node) :=
  if clash s d then Err IOError
  else if filter src then let* n := copyNode filter src s d in Ok (Some n)
  else Ok d.

(** [fs.writeFile(dir/name, c)] inside the directory [d]; the empty name is
    the directory itself. *)
Definition writeFile (name : string) (c : content) (d : entries) : result entries :=
  if (name =? "")%string then Err IOError
  else
    match lookup name d with
    | Some (Dir _) => Err IOError
    | _ => Ok (put name (File c) d)
    end.

(** [fs.readJson] *)
Definition readJson (n : node) : result value :=
  match n with
  | File (Json v) => Ok v
  | _ => Err IOError
  end.

(** [fs.writeJson(dir/name, v)]: the text is made first; [undefined] has no
    JSON text, which is a TypeError before anything is written. *)
Definition writeJson (name : string) (v : value) (d : entries) : result entries :=
  match serialize v with
  | None => Err TypeError
  | Some _ => writeFile name (Json (jsonCopy v)) d
  end.

(** *** Glob patterns of the archiver (minimatch with [dot: true]) *)

(** One path segment against a pattern whose only magic is [*]. *)
Fixpoint segMatch (pat : string) (s : string) : bool :=
  match pat with
  | EmptyString => (s =? "")%string
  | String "*"%char pat' =>
      (fix star (s : string) : bool :=
         segMatch pat' s ||
         match s with
         | EmptyString => false
         | String _ r => star r
         end) s
  | String c pat' =>
      match s with
      | String c' r => Ascii.eqb c c' && segMatch pat' r
      | EmptyString => false
      end
  end.

(** A pattern, segment by segment, against a relative path; [**] stands for
    any number of segments. *)
Fixpoint globMatch (pat : list string) (file : list string) : bool :=
  match pat with
  | [] => match file with [] => true | _ => false end
  | p :: pat' =>
      if (p =? "**")%string then
        (fix skip (file : list string) : bool :=
           globMatch pat' file ||
           match file with
           | [] => false
           | _ :: r => skip r
           end) file
      else
        match file with
        | seg :: r => segMatch p seg && globMatch pat' r
        | [] => false
        end
  end.

Definition minimatch (pattern : string) (file : list string) : bool :=
  globMatch (Str.split "/" pattern) file.

(** Every file and directory below a node, by relative path, in the order
    of a walk. *)
Fixpoint walkNode (prefix : list string) (n : node) : list (list string * node) :=
  match n with
  | File _ => []
  | Dir d =>
      (fix walkItems (d : list (string * node)) : list (list string * node) :=
         match d with
         | [] => []
         | (name, c) :: r =>
             (prefix ++ [name], c) :: walkNode (prefix ++ [name]) c ++ walkItems r
         end) d
  end.

Definition walk (d : list (string * node)) : list (list string * node) :=
  walkNode [] (Dir d).

(** An archive: the entries it holds, by relative path. *)
Definition archive := list (list string * node).

(** [archive.glob("**/*", { cwd, dot: true, ignore })] *)
Definition glob (ignore : list string) (d : entries) : archive :=
  filter (fun e => minimatch "**/*" (fst e)
                   && negb (existsb (fun pat => minimatch pat (fst e)) ignore))
         (walk d).

(** [archive.directory(srcDir, false)] *)
Definition directory (d : entries) : archive := walk d.

End Fs.

(** ** [bin/cli.js] *)

Module Cli.

Import JS Fs.
Abbreviation number := Num.number.
Abbreviation path := Path.path.

(** *** constants *)

Definition DEFAULT_OUT_DIR : string := "./src".
Definition DEFAULT_CAMPAIGN : string := "my-campaign".
Definition DEFAULT_CLICKTAG : string := "https://example.com".
Definition DEFAULT_ADSERVER_TYPE : string := "standard".

(** What the program finds around it: the working directory, the
    directory of the templates and the trees below it, the byte size the
    archiver gives an archive, and the clock. *)
Record env : Type := {
  cwd : path;
  TEMPLATES_DIR : path;
  templates : gmap path node;
  archiveBytes : archive -> number;
  clock : nat -> string
}.

Inductive logLine : Type :=
| ZipSizeOk (file : string) (actual maxBytes : number) (label : string)
| ZipOversize (file : string) (actual maxBytes : number) (label : string).

(** What the program changes: the banner folders (each one kept under its
    path, as the tree of its entries), the archives, the console. No banner
    folder is taken to lie inside another, inside a template or inside the
    archive directory: the statements about what a run leaves in several
    folders carry this as a hypothesis ([Props.sideBySide],
    [Props.clearOf], [Props.zipsOutside]). *)
Record world : Type := {
  banners : gmap path entries;
  zips : gmap path archive;
  console : list logLine
}.

(** A computation on the world that may throw; what was done before the
    throw stays done. *)
Definition M (A : Type) : Type := world -> world * result A.

Definition ret {A : Type} (a : A) : M A := fun w => (w, Ok a).
Definition throw {A : Type} (e : exn) : M A := fun w => (w, Err e).
Definition lift {A : Type} (r : result A) : M A := fun w => (w, r).
Definition bindM {A B : Type} (c : M A) (k : A -> M B) : M B :=
  fun w => match c w with
           | (w', Ok a) => k a w'
           | (w', Err e) => (w', Err e)
           end.

Notation "'let!' x ':=' c 'in' k" := (bindM c (fun x => k))
  (at level 10, x pattern, c at level 100, k at level 200).

Definition folderEntries (folder : path) : M (option entries) :=
  fun w => (w, Ok (banners w !! folder)).

Definition setFolder (folder : path) (d : entries) : M unit :=
  fun w => ({| banners := <[folder := d]> (banners w);
               zips := zips w; console := console w |}, Ok tt).

Definition setZip (zipPath : path) (a : archive) : M unit :=
  fun w => ({| banners := banners w;
               zips := <[zipPath := a]> (zips w); console := console w |}, Ok tt).

Definition say (l : logLine) : M unit :=
  fun w => ({| banners := banners w; zips := zips w;
               console := console w ++ [l] |}, Ok tt).

(** *** templates *)

Definition getTemplateRoot (e : env) (fmt cfg templateOverride : value)
  : result (string * path) :=
  let type :=
    coalesce (coalesce (coalesce templateOverride
                                 (getOpt (getOpt fmt "brand") "type"))
                       (getOpt (getOpt cfg "brand") "type"))
             (VStr "standard") in
  let* t := ToString type in
  Ok (t, Path.join1 (TEMPLATES_DIR e) t).

(** *** cli utils *)

(** [/^(\d+(?:\.\d+)?)\s*kb$/i] on [s]: the first group, if [s] matches. *)
Definition matchKb (s : string) : option string :=
  let '(ip, r1) := Str.span Str.isDigit s in
  if (ip =? "")%string then None
  else
    let '(m1, r2) :=
      match r1 with
      | String "."%char r =>
          let '(fp, r') := Str.span Str.isDigit r in
          if (fp =? "")%string then (ip, r1) else (ip +:+ "." +:+ fp, r')
      | _ => (ip, r1)
      end in
    if (Str.lowercase (Str.trimStart r2) =? "kb")%string then Some m1 else None.

Definition parseKb (sizeStr : value) : result value :=
  if negb (truthy sizeStr) then Ok VNull
  else
    let* s := ToString sizeStr in
    match matchKb (Str.trim s) with
    | Some m1 => Ok (VNum (Num.round (Num.mul (StringToNumber m1) (Num.of_Z 1024))))
    | None => Ok VNull
    end.

Definition normalizeSize (width height : value) : result string :=
  let* w := ToNumber width in
  let* h := ToNumber height in
  if negb (Num.isFinite w) || negb (Num.isFinite h) then Ok ""
  else Ok (Num.toString w +:+ "x" +:+ Num.toString h).

(** Every maximal run of code units satisfying [p] becomes one [_]. *)
Fixpoint underscoreRuns (p : ascii -> bool) (inRun : bool) (s : string) : string :=
  match s with
  | EmptyString => EmptyString
  | String c r =>
      if p c then
        if inRun then underscoreRuns p true r
        else String "_"%char (underscoreRuns p true r)
      else String c (underscoreRuns p false r)
  end.

Definition makeZipName (campaign langCode motiveName : value) (width height : number)
  : result string :=
  let* parts :=
    (fix each (l : list value) : result (list string) :=
       match l with
       | [] => Ok []
       | x :: r => let* s := ToString x in let* t := each r in Ok (s :: t)
       end)
      (filter (fun x => truthy x = true)
              [campaign; langCode; motiveName;
               VStr (Num.toString width +:+ "x" +:+ Num.toString height)]) in
  let joined := Str.join "_" parts in
  let spaced := underscoreRuns Str.isSpace false joined in
  Ok (underscoreRuns
        (fun c => negb (Str.isWord c || (Str.code c =? 46) || (Str.code c =? 45)))
        false spaced
      +:+ ".zip").

Definition ensureValidMode (createOnly updateOnly : bool) : option string :=
  if createOnly && updateOnly then None
  else Some (if createOnly then "create-only"
             else if updateOnly then "update" else "incremental").

(** *** config + paths *)

Definition readFormatsFromCfg (cfg : value) : result (list value) :=
  match cfg with
  | VArr l => Ok l
  | _ =>
      let* f := get cfg "formats" in
      match f with
      | VArr l => Ok l
      | _ => Ok []
      end
  end.

Definition asPathArg (x : value) : result string :=
  match x with
  | VStr s => Ok s
  | _ => Err TypeError
  end.

Definition buildRoots (e : env) (outDir campaign : value) : result (path * path) :=
  let* o := asPathArg outDir in
  let* c := asPathArg campaign in
  Ok (Path.resolve (cwd e) [o; c], Path.resolve (cwd e) ["output"; "zip"]).

(** *** assets *)

(** [/\.(png|jpe?g|gif|webp|svg)$/i] *)
Definition isImageName (f : string) : bool :=
  let l := Str.lowercase f in
  existsb (Str.endsWith l) [".png"; ".jpg"; ".jpeg"; ".gif"; ".webp"; ".svg"].

(** [/@2x\./i] *)
Definition is2xName (f : string) : bool :=
  Str.includes (Str.lowercase f) "@2x.".

(** [path.parse(file).name] for a file name: the name up to its last dot,
    unless that dot leads the name. *)
Fixpoint stem (first : bool) (f : string) : string :=
  match f with
  | EmptyString => EmptyString
  | String c r =>
      if (Str.code c =? 46) && negb first && negb (Str.includes r ".") then EmptyString
      else String c (stem false r)
  end.

Definition readAssets (d : entries) : result (list (string * string)) :=
  match lookup "assets" d with
  | None => Ok []
  | Some (File _) => Err IOError
  | Some (Dir es) =>
      let files :=
        Str.sort (filter (fun f => is2xName f = false)
                         (filter (fun f => isImageName f = true) (map fst es))) in
      Ok (map (fun file => (stem true file, file)) files)
  end.

(** *** incremental state *)

Definition readGenState (d : entries) : value :=
  match lookup ".gen-state.json" d with
  | None => VNull
  | Some n =>
      match readJson n with
      | Ok v => v
      | Err _ => VNull
      end
  end.

Definition writeGenState (d : entries) (state : value) : result entries :=
  writeJson ".gen-state.json" state d.

Fixpoint sameElements (a b : list value) : bool :=
  match a, b with
  | x :: a', y :: b' => if negb (strictEq x y) then false else sameElements a' b'
  | _, _ => true
  end.

Definition sameStringArray (a b : value) : bool :=
  match a, b with
  | VArr la, VArr lb =>
      if negb (length la =? length lb)%nat then false else sameElements la lb
  | _, _ => false
  end.

(** The [sorter] of [stableStringify]; on a value that is a tree the set
    [seen] never answers. *)
Fixpoint sorter (x : value) : value :=
  match x with
  | VArr l => VArr (map sorter l)
  | VObj l =>
      let sorted := map (fun '(k, v) => (k, sorter v)) l in
      VObj (fold_left
              (fun out k => setProp out k (default VUndefined (assoc k sorted)))
              (Str.sort (ownKeys l)) [])
  | _ => x
  end.

Definition stableStringify (obj : value) : value := JSON_stringify (sorter obj).

(** *** rendering (only from *.mustache) *)

Fixpoint renderNode (data : value) (overwrite : bool) (n : node) : result node :=
  match n with
  | File c => Ok (File c)
  | Dir d =>
      let* es :=
        (fix renderEntries (listing : list (string * node)) (cur : entries)
           : result entries :=
           match listing with
           | [] => Ok cur
           | (name, child) :: r =>
               match child with
               | Dir _ =>
                   let* sub := renderNode data overwrite child in
                   renderEntries r (put name sub cur)
               | File _ =>
                   if negb (Str.endsWith name ".mustache") then renderEntries r cur
                   else
                     let outName := Str.dropEnd 9 name in
                     if negb overwrite && hasEntry outName cur then renderEntries r cur
                     else
                       match lookup name cur with
                       | Some (File raw) =>
                           let* cur' := writeFile outName (Rendered raw data) cur in
                           renderEntries r cur'
                       | _ => Err IOError
                       end
               end
           end) d d in
      Ok (Dir es)
  end.

(** The loop of [renderNode] over the listing of a directory, by name. *)
Definition renderEntries (data : value) (overwrite : bool)
  : list (string * node) -> entries -> result entries :=
  fix renderEntries (listing : list (string * node)) (cur : entries)
    : result entries :=
    match listing with
    | [] => Ok cur
    | (name, child) :: r =>
        match child with
        | Dir _ =>
            let* sub := renderNode data overwrite child in
            renderEntries r (put name sub cur)
        | File _ =>
            if negb (Str.endsWith name ".mustache") then renderEntries r cur
            else
              let outName := Str.dropEnd 9 name in
              if negb overwrite && hasEntry outName cur then renderEntries r cur
              else
                match lookup name cur with
                | Some (File raw) =>
                    let* cur' := writeFile outName (Rendered raw data) cur in
                    renderEntries r cur'
                | _ => Err IOError
                end
        end
    end.

Definition renderFromMustacheFiles (d : entries) (data : value) (overwrite : bool)
  : result entries :=
  let* n := renderNode data overwrite (Dir d) in
  match n with
  | Dir es => Ok es
  | File _ => Ok d
  end.

(** *** zip *)

Definition zipFolder (d : entries) : archive :=
  glob ["**/*.mustache"; "**/.DS_Store"; "**/Thumbs.db"; "**/.gen-state.json"] d.

(** *** generation helpers *)

(** The filters of a run, as [buildFilters] leaves them: [None] is [null],
    [Some l] the set of the members [l]. *)
Record filters : Type := {
  onlySize : option (list string);
  onlyLang : option (list string);
  onlyMotive : option (list string);
  onlyTemplate : option (list string);
  onlyIndex : option (list number)
}.

(** [Set.prototype.has] on strings and on numbers (SameValueZero). *)
Definition hasStr (s : list string) (x : string) : bool :=
  existsb (String.eqb x) s.

Definition hasNum (s : list number) (x : number) : bool :=
  existsb (fun y => match x, y with
                    | S754_nan, S754_nan => true
                    | _, _ => Num.eqb x y
                    end) s.

Definition matchesFilters (e : env) (fmt : value) (idx : nat)
           (cfg templateOverride : value) (fl : filters) : result bool :=
  let* w := get fmt "width" in
  let* h := get fmt "height" in
  let* size := normalizeSize w h in
  let* l1 := get fmt "language" in
  let* l2 := get fmt "lang" in
  let* lang := ToString (coalesce (coalesce l1 l2) (VStr "")) in
  let* m1 := get fmt "motive" in
  let* m2 := get fmt "motiveName" in
  let* motive := ToString (coalesce (coalesce m1 m2) (VStr "")) in
  let* tr := getTemplateRoot e fmt cfg templateOverride in
  let templateType := fst tr in
  if match onlyIndex fl with
     | Some s => negb (hasNum s (Num.of_Z (Z.of_nat idx)))
     | None => false
     end then Ok false
  else if match onlySize fl with
          | Some s => negb (hasStr s size)
          | None => false
          end then Ok false
  else if match onlyLang fl with
          | Some s => negb (hasStr s lang)
          | None => false
          end then Ok false
  else if match onlyMotive fl with
          | Some s => negb (hasStr s motive)
          | None => false
          end then Ok false
  else if match onlyTemplate fl with
          | Some s => negb (hasStr s templateType)
          | None => false
          end then Ok false
  else Ok true.

Definition resolveLangAndMotive (fmt : value) : result (value * value) :=
  let* l1 := get fmt "language" in
  let* l2 := get fmt "lang" in
  let* m1 := get fmt "motive" in
  let* m2 := get fmt "motiveName" in
  Ok (coalesce (coalesce l1 l2) VNull, coalesce (coalesce m1 m2) VNull).

Definition bannerFolderFor (outRoot : path) (langCode motiveName : value)
           (width height : number) : result path :=
  let* l := (if truthy langCode then let* s := ToString langCode in Ok [s] else Ok []) in
  let* m := (if truthy motiveName then let* s := ToString motiveName in Ok [s] else Ok []) in
  Ok (Path.join outRoot (l ++ m ++ [Num.toString width +:+ "x" +:+ Num.toString height])).

(** The filter of the template copy. *)
Definition outsideAssets (src : path) : bool :=
  negb (Str.includes (Path.toString src) "/assets/").

Definition ensureTemplateOnCreate (e : env) (templateRoot : path) (bannerFolder : entries)
           (exists_ : bool) : result entries :=
  if exists_ then Ok bannerFolder
  else
    match templates e !! templateRoot with
    | None => Err IOError
    | Some t =>
        let* r := copy outsideAssets templateRoot t (Some (Dir bannerFolder)) in
        match r with
        | Some (Dir es) => Ok es
        | _ => Ok bannerFolder
        end
    end.

Definition shouldProcessBanner (mode : string) (exists_ : bool) : bool :=
  if (mode =? "create-only")%string && exists_ then false
  else if (mode =? "update")%string && negb exists_ then false
  else true.

Definition shouldRenderBanner (mode : string) (exists_ : bool)
           (prevState assetsFiles fmtSig : value) : bool :=
  let assetsChanged :=
    negb (truthy prevState)
    || negb (sameStringArray (getOpt prevState "assetsFiles") assetsFiles) in
  let fmtChanged :=
    negb (truthy prevState) || negb (strictEq (getOpt prevState "fmtSig") fmtSig) in
  if (mode =? "update")%string then true
  else if (mode =? "create-only")%string then negb exists_
  else negb exists_ || assetsChanged || fmtChanged.

Record counts : Type := {
  processed : nat;
  created : nat;
  updated : nat;
  skipped : nat;
  filteredOut : nat
}.

Definition isUnderscore (c : ascii) : bool := Str.code c =? 95.

(** The label of a size line:
    [.replace(/^_+|_+$/g, "").replace(/__+/g, "_")] on the three parts. *)
Definition sizeLabel (fmt : value) : result string :=
  let* lang :=
    ToString (coalesce (coalesce (getOpt fmt "language") (getOpt fmt "lang")) (VStr "")) in
  let* motive :=
    ToString (coalesce (coalesce (getOpt fmt "motive") (getOpt fmt "motiveName"))
                       (VStr "")) in
  let* w := ToString (getOpt fmt "width") in
  let* h := ToString (getOpt fmt "height") in
  let raw := lang +:+ "_" +:+ motive +:+ "_" +:+ w +:+ "x" +:+ h in
  Ok (underscoreRuns isUnderscore false
        (Str.dropWhileEnd isUnderscore (Str.dropWhile isUnderscore raw))).

Definition basename (p : path) : string := List.last p "".

Definition checkZipSize (e : env) (zipPath : path) (fmt maxBytes : value) : M value :=
  if negb (truthy maxBytes) then ret (VObj [("ok", VBool true); ("skipped", VBool true)])
  else
    let! a := (fun w => (w, match zips w !! zipPath with
                            | Some a => Ok a
                            | None => Err IOError
                            end)) in
    let actual := archiveBytes e a in
    let! limit := lift (ToNumber maxBytes) in
    let ok := Num.leb actual limit in
    let! label := lift (sizeLabel fmt) in
    let! _ := say (if ok then ZipSizeOk (basename zipPath) actual limit label
                   else ZipOversize (basename zipPath) actual limit label) in
    ret (VObj [("ok", VBool ok); ("actualBytes", VNum actual); ("maxBytes", maxBytes)]).

(** *** generation *)

(** The switches of a run. *)
Record options : Type := {
  outDirOverride : value;
  campaignOverride : value;
  clicktagOverride : value;
  shouldZip : bool;
  templateOverride : value;
  mode : string;
  runFilters : filters
}.

Definition bump (c : counts) (p cr u s f : nat) : counts :=
  {| processed := processed c + p; created := created c + cr;
     updated := updated c + u; skipped := skipped c + s;
     filteredOut := filteredOut c + f |}.

(** The body of the loop of [generateFromFormatsJson] is cut in three:
    [locate] (the filters, the check of width and height, the folder),
    [reconcile] (the existence test, the mode, the template, the decision
    to render) and [generate] (rendering, the state record, the archive). *)

Record located : Type := {
  width : number;
  height : number;
  langCode : value;
  motiveName : value;
  bannerFolder : path
}.

(** [None]: the filters reject the format. *)
Definition locate (e : env) (o : options) (cfg : value) (outRoot : path)
           (idx : nat) (fmt : value) : result (option located) :=
  let* pass := matchesFilters e fmt idx cfg (templateOverride o) (runFilters o) in
  if negb pass then Ok None
  else
    let* fw := get fmt "width" in
    let* width := ToNumber fw in
    let* fh := get fmt "height" in
    let* height := ToNumber fh in
    if negb (Num.isFinite width) || negb (Num.isFinite height)
    then Err InvalidWidthHeight
    else
      let* lm := resolveLangAndMotive fmt in
      let* bannerFolder := bannerFolderFor outRoot (fst lm) (snd lm) width height in
      Ok (Some {| width := width; height := height;
                  langCode := fst lm; motiveName := snd lm;
                  bannerFolder := bannerFolder |}).

Definition generate (e : env) (o : options) (cfg campaign : value) (zipRoot : path)
           (idx : nat) (fmt : value) (t : located) (exists_ : bool)
           (templateType : string) (d2 : entries) (assets : list (string * string))
           (assetsFiles fmtSig : value) (c : counts) : M counts :=
  let! fsize := lift (get fmt "size") in
  let! maxBytes := lift (parseKb fsize) in
  let adserverType :=
    coalesce (getOpt (getOpt fmt "adserver") "type") (VStr DEFAULT_ADSERVER_TYPE) in
  let! cfgClick := lift (get cfg "clicktag") in
  let! fmtClick := lift (get fmt "clicktag") in
  let clicktag :=
    coalesce (coalesce (coalesce (clicktagOverride o) cfgClick) fmtClick)
             (VStr DEFAULT_CLICKTAG) in
  let data :=
    VObj [("CAMPAIGN", campaign);
          ("LANGUAGE", coalesce (langCode t) (VStr ""));
          ("MOTIVE", coalesce (motiveName t) (VStr ""));
          ("WIDTH", VNum (width t));
          ("HEIGHT", VNum (height t));
          ("SIZE_KB", coalesce fsize (VStr ""));
          ("MAX_BYTES", coalesce maxBytes (VStr ""));
          ("ADSERVER_TYPE", adserverType);
          ("CLICKTAG", clicktag);
          ("ASSETS",
           VArr (map (fun a => VObj [("id", VStr (fst a)); ("file", VStr (snd a))])
                     assets));
          ("FORMAT_JSON", JSON_stringify fmt);
          ("TEMPLATE_TYPE", VStr templateType)] in
  let! d3 := lift (renderFromMustacheFiles d2 data true) in
  let! _ := setFolder (bannerFolder t) d3 in
  let! d4 := lift (writeGenState d3
                     (VObj [("assetsFiles", assetsFiles);
                            ("fmtSig", fmtSig);
                            ("templateType", VStr templateType);
                            ("updatedAt", VStr (clock e idx))])) in
  let! _ := setFolder (bannerFolder t) d4 in
  let! _ :=
    (if shouldZip o then
       let! zipName :=
         lift (makeZipName campaign (langCode t) (motiveName t) (width t) (height t)) in
       let zipPath := Path.join1 zipRoot zipName in
       let! _ := setZip zipPath (zipFolder d4) in
       let! _ := checkZipSize e zipPath fmt maxBytes in
       ret tt
     else ret tt) in
  ret (bump c 1 (if exists_ then 0 else 1) (if exists_ then 1 else 0) 0 0).

(** [fs.pathExists(bannerIndex)] *)
Definition bannerExists (w : world) (folder : path) : bool :=
  match banners w !! folder with
  | Some d => hasEntry "index.html" d
  | None => false
  end.

Definition reconcile (e : env) (o : options) (cfg campaign : value) (zipRoot : path)
           (idx : nat) (fmt : value) (t : located) (c : counts) : M counts :=
  let! found := folderEntries (bannerFolder t) in
  let! exists_ := (fun w => (w, Ok (bannerExists w (bannerFolder t)))) in
  if negb (shouldProcessBanner (mode o) exists_) then ret (bump c 0 0 0 1 0)
  else
    let! tr := lift (getTemplateRoot e fmt cfg (templateOverride o)) in
    let '(templateType, templateRoot) := tr in
    if negb (bool_decide (is_Some (templates e !! templateRoot)))
    then throw (TemplateNotFound templateType)
    else
      let d0 := default [] found in
      let! _ := setFolder (bannerFolder t) d0 in
      let! d1 := lift (ensureTemplateOnCreate e templateRoot d0 exists_) in
      let! _ := setFolder (bannerFolder t) d1 in
      let! d2 := lift (ensureDir "assets" d1) in
      let! _ := setFolder (bannerFolder t) d2 in
      let! assets := lift (readAssets d2) in
      let assetsFiles := VArr (map (fun a => VStr (snd a)) assets) in
      let prevState := readGenState d2 in
      let fmtSig := stableStringify fmt in
      if negb (shouldRenderBanner (mode o) exists_ prevState assetsFiles fmtSig)
      then ret (bump c 0 0 0 1 0)
      else generate e o cfg campaign zipRoot idx fmt t exists_ templateType
                    d2 assets assetsFiles fmtSig c.

Definition processFormat (e : env) (o : options) (cfg campaign : value)
           (outRoot zipRoot : path) (idx : nat) (fmt : value) (c : counts) : M counts :=
  let! t := lift (locate e o cfg outRoot idx fmt) in
  match t with
  | None => ret (bump c 0 0 0 0 1)
  | Some t => reconcile e o cfg campaign zipRoot idx fmt t c
  end.

Fixpoint loop (e : env) (o : options) (cfg campaign : value) (outRoot zipRoot : path)
         (idx : nat) (formats : list value) (c : counts) : M counts :=
  match formats with
  | [] => ret c
  | fmt :: rest =>
      let! c' := processFormat e o cfg campaign outRoot zipRoot idx fmt c in
      loop e o cfg campaign outRoot zipRoot (S idx) rest c'
  end.

Definition noCounts : counts :=
  {| processed := 0; created := 0; updated := 0; skipped := 0; filteredOut := 0 |}.

(** [generateFromFormatsJson], from the configuration read from
    [formatsAbsPath] on; its result is what [logSummary] prints. *)
Definition generateFromFormatsJson (e : env) (o : options) (cfg : value) : M counts :=
  let! formats := lift (readFormatsFromCfg cfg) in
  if (length formats =? 0)%nat then throw NoFormats
  else
    let! cfgCampaign := lift (get cfg "campaign") in
    let campaign :=
      coalesce (coalesce (campaignOverride o) cfgCampaign) (VStr DEFAULT_CAMPAIGN) in
    let outDir := coalesce (outDirOverride o) (VStr DEFAULT_OUT_DIR) in
    let! roots := lift (buildRoots e outDir campaign) in
    loop e o cfg campaign (fst roots) (snd roots) 0 formats noCounts.

End Cli.

(** ** The earlier command line ([zipFolder] without an ignore list) *)

Module Legacy.

Import Fs.

Definition zipFolder (d : entries) : archive := directory d.

End Legacy.

(** ** Vocabulary of the properties *)

Module Spec.

Import JS Fs Cli.

(** The persisted state [prev] no longer matches the asset files and the
    fingerprint of now. *)
Definition staleState (prev : value) (assets : list (string * string)) (fmtSig : value)
  : Prop :=
  truthy prev = false
  \/ getOpt prev "assetsFiles" <> VArr (map (fun a => VStr (snd a)) assets)
  \/ getOpt prev "fmtSig" <> fmtSig.

(** What [matchesFilters] compares with the filters: the size string, the
    language, the motive and the resolved template type of a format. *)
Definition filterKeys (e : env) (fmt cfg templateOverride : value)
  : result (string * string * string * string) :=
  let* w := get fmt "width" in
  let* h := get fmt "height" in
  let* size := normalizeSize w h in
  let* l1 := get fmt "language" in
  let* l2 := get fmt "lang" in
  let* lang := ToString (coalesce (coalesce l1 l2) (VStr "")) in
  let* m1 := get fmt "motive" in
  let* m2 := get fmt "motiveName" in
  let* motive := ToString (coalesce (coalesce m1 m2) (VStr "")) in
  let* tr := getTemplateRoot e fmt cfg templateOverride in
  Ok (size, lang, motive, fst tr).

(** No filter was supplied. *)
Definition noFilters : filters :=
  {| onlySize := None; onlyLang := None; onlyMotive := None;
     onlyTemplate := None; onlyIndex := None |}.

(** The world with one more line on the console. *)
Definition logged (w : world) (l : logLine) : world :=
  {| banners := banners w; zips := zips w; console := console w ++ [l] |}.

(** Every code unit of [s] satisfies [p]. *)
Fixpoint allOf (p : ascii -> bool) (s : string) : bool :=
  match s with
  | EmptyString => true
  | String c r => p c && allOf p r
  end.

(** [\d+(?:\.\d+)?]: digits, or digits, a dot and digits. *)
Inductive kbNumber : string -> Prop :=
| kb_whole (ip : string) :
    ip <> "" -> allOf Str.isDigit ip = true -> kbNumber ip
| kb_fraction (ip fp : string) :
    ip <> "" -> fp <> "" ->
    allOf Str.isDigit ip = true -> allOf Str.isDigit fp = true ->
    kbNumber (ip +:+ "." +:+ fp).

(** [s] is a number [m], white space if any, and [kb] in either case: the
    strings of [/^(\d+(?:\.\d+)?)\s*kb$/i]. *)
Definition kbString (s m : string) : Prop :=
  kbNumber m
  /\ exists ws k b,
      allOf Str.isSpace ws = true
      /\ Str.lower k = "k"%char /\ Str.lower b = "b"%char
      /\ s = m +:+ ws +:+ String k (String b EmptyString).

(** [v'] is [v] with the keys of its objects, at every depth, created in
    another order: arrays keep their order, scalars stay as they are. *)
#[warnings="-register-all"]
Inductive keyPerm : value -> value -> Prop :=
| kp_undefined : keyPerm VUndefined VUndefined
| kp_null : keyPerm VNull VNull
| kp_bool (b : bool) : keyPerm (VBool b) (VBool b)
| kp_num (n : number) : keyPerm (VNum n) (VNum n)
| kp_str (s : string) : keyPerm (VStr s) (VStr s)
| kp_arr (l l' : list value) :
    Forall2 keyPerm l l' -> keyPerm (VArr l) (VArr l')
| kp_obj (l m l' : list (string * value)) :
    NoDup (map fst l) ->
    Forall2 (fun a b => fst a = fst b /\ keyPerm (snd a) (snd b)) l m ->
    Permutation m l' ->
    keyPerm (VObj l) (VObj l').

(** The relative path [p] leads inside a directory named [assets]. *)
Definition insideAssets (p : list string) : Prop :=
  exists pre x q, p = pre ++ "assets" :: x :: q.

(** The path [p] below [src] runs through an item the filter refuses. *)
Fixpoint refused (filter : path -> bool) (src : path) (p : list string) : Prop :=
  match p with
  | [] => False
  | seg :: rest => filter (src ++ [seg]) = false \/ refused filter (src ++ [seg]) rest
  end.



(** The width and the height of a format, as the loop converts them. *)
Definition sizeOf (fmt : value) : result (number * number) :=
  let* fw := get fmt "width" in
  let* width := ToNumber fw in
  let* fh := get fmt "height" in
  let* height := ToNumber fh in
  Ok (width, height).

(** No entry of [d] is named as a dynamic source. *)
Definition noSources (d : entries) : Prop :=
  Forall (fun name => Str.endsWith name ".mustache" = false) (map fst d).

(** The folder [d] lists each name once, and its [assets] directory holds no
    dynamic source. *)
Definition tidy (d : entries) : Prop :=
  NoDup (map fst d)
  /\ forall es, lookup "assets" d = Some (Dir es) -> noSources es.

Definition tidyDisk (w : world) : Prop :=
  forall folder d, banners w !! folder = Some d -> tidy d.

(** The state record of [d] is absent, or a file that is not a JSON
    document. *)
Definition unreadableState (d : entries) : Prop :=
  match lookup ".gen-state.json" d with
  | None => True
  | Some (File (Json _)) => False
  | Some (File _) => True
  | Some (Dir _) => False
  end.

(** The folder at [folder] is up to date for the fingerprint [sig]: its
    state record matches its asset files and [sig], and its [assets]
    directory is there. *)
Definition upToDate (w : world) (folder : path) (sig : value) : Prop :=
  exists d assets,
    banners w !! folder = Some d
    /\ ensureDir "assets" d = Ok d
    /\ readAssets d = Ok assets
    /\ ~ staleState (readGenState d) assets sig.

(** The template of a format is there. *)
Definition resolves (e : env) (o : options) (cfg fmt : value) : Prop :=
  exists ty root,
    getTemplateRoot e fmt cfg (templateOverride o) = Ok (ty, root)
    /\ is_Some (templates e !! root).

(** The output root of a run. *)
Definition outRootOf (e : env) (o : options) (cfg : value) : result path :=
  let* cfgCampaign := get cfg "campaign" in
  let* roots :=
    buildRoots e (coalesce (outDirOverride o) (VStr DEFAULT_OUT_DIR))
               (coalesce (coalesce (campaignOverride o) cfgCampaign)
                         (VStr DEFAULT_CAMPAIGN)) in
  Ok (fst roots).

(** Formats of the run that share a folder have one fingerprint. *)
Definition sharedFoldersAgree (e : env) (o : options) (cfg : value) (outRoot : path)
           (idx : nat) (formats : list value) : Prop :=
  forall i j fi fj ti tj,
    formats !! i = Some fi -> formats !! j = Some fj ->
    locate e o cfg outRoot (idx + i) fi = Ok (Some ti) ->
    locate e o cfg outRoot (idx + j) fj = Ok (Some tj) ->
    bannerFolder ti = bannerFolder tj ->
    stableStringify fi = stableStringify fj.

(** Every format of the run that passes the filters has its entry marker. *)
Definition markersPresent (e : env) (o : options) (cfg : value) (outRoot : path)
           (idx : nat) (formats : list value) (w : world) : Prop :=
  forall i fi ti,
    formats !! i = Some fi ->
    locate e o cfg outRoot (idx + i) fi = Ok (Some ti) ->
    bannerExists w (bannerFolder ti) = true.

(** How many formats of the run pass the filters. *)
Fixpoint surviving (e : env) (o : options) (cfg : value) (outRoot : path)
         (idx : nat) (formats : list value) : nat :=
  match formats with
  | [] => 0
  | fmt :: rest =>
      match locate e o cfg outRoot idx fmt with
      | Ok (Some _) => 1
      | _ => 0
      end + surviving e o cfg outRoot (S idx) rest
  end.

(** The second run finds the working directory and the templates of the
    first; its clock and its archiver may differ. *)
Definition sameHost (e e' : env) : Prop :=
  cwd e' = cwd e /\ TEMPLATES_DIR e' = TEMPLATES_DIR e /\ templates e' = templates e.


(** The node at a relative path below what a destination holds. *)
Definition at_path_from (p : list string) (d : option node) : option node :=
  match d with
  | Some n => at_path p n
  | None => None
  end.

Definition dirAt (name : string) (d : entries) : Prop :=
  exists sub, lookup name d = Some (Dir sub).

(** What rendering keeps of a folder [d2] in the folder [cur] it is
    building. *)
Definition keeps (d2 cur : entries) : Prop :=
  NoDup (map fst cur)
  /\ (forall name, dirAt name cur <-> dirAt name d2)
  /\ (forall name, hasEntry name d2 = true -> hasEntry name cur = true)
  /\ (forall es2, lookup "assets" d2 = Some (Dir es2) -> noSources es2 ->
                  exists x, lookup "assets" cur = Some (Dir x)
                            /\ map fst x = map fst es2).

(** A computation that leaves the banner folders alone. *)
Definition keepsBanners {A : Type} (m : M A) : Prop :=
  forall w w' r, m w = (w', r) -> banners w' = banners w.

(** The state record [generate] writes. *)
Definition stateRecord (e : env) (idx : nat) (assetsFiles fmtSig : value)
           (templateType : string) : value :=
  VObj [("assetsFiles", assetsFiles);
        ("fmtSig", fmtSig);
        ("templateType", VStr templateType);
        ("updatedAt", VStr (clock e idx))].

End Spec.

(** ** A campaign to run the definitions on *)

Module Demo.

Import JS Fs Cli.

(** The template [standard]: a dynamic entry file, a static file, and an
    asset of its own. *)
Definition standard : node :=
  Dir [("index.html.mustache", File (Text "<html>{{WIDTH}}</html>"));
       ("style.css", File (Text "body{}"));
       ("assets", Dir [("default.png", File (Text "png"))])].

Definition host : env :=
  {| cwd := ["work"];
     TEMPLATES_DIR := ["app"; "templates"];
     templates := {[ ["app"; "templates"; "standard"] := standard ]};
     archiveBytes := fun _ => Num.of_Z 51200;
     clock := fun _ => "2024-01-01T00:00:00.000Z" |}.

Definition run (m : string) : options :=
  {| outDirOverride := VNull; campaignOverride := VNull; clicktagOverride := VNull;
     shouldZip := true; templateOverride := VNull; mode := m;
     runFilters := Spec.noFilters |}.

Definition emptyDisk : world := {| banners := ∅; zips := ∅; console := [] |}.

(** [{ formats: [{ width: 300, height: 250, language: "en" }], campaign: "c" }] *)
Definition banner300 : value :=
  VObj [("width", num 300); ("height", num 250); ("language", VStr "en")].

Definition campaign1 : value :=
  VObj [("formats", VArr [banner300]); ("campaign", VStr "c")].

Definition folder300 : Path.path := ["work"; "src"; "c"; "en"; "300x250"].

Definition at300 : located :=
  {| width := Num.of_Z 300; height := Num.of_Z 250;
     langCode := VStr "en"; motiveName := VNull; bannerFolder := folder300 |}.

(** The view of [banner300] in [campaign1], for the asset files [assets]. *)
Definition view300 (assets : list value) : value :=
  VObj [("CAMPAIGN", VStr "c");
        ("LANGUAGE", VStr "en");
        ("MOTIVE", VStr "");
        ("WIDTH", num 300);
        ("HEIGHT", num 250);
        ("SIZE_KB", VStr "");
        ("MAX_BYTES", VStr "");
        ("ADSERVER_TYPE", VStr "standard");
        ("CLICKTAG", VStr "https://example.com");
        ("ASSETS", VArr assets);
        ("FORMAT_JSON", JSON_stringify banner300);
        ("TEMPLATE_TYPE", VStr "standard")].

(** The disk after a first run over [campaign1]. *)
Definition afterRun1 : world :=
  fst (generateFromFormatsJson host (run "incremental") campaign1 emptyDisk).

Definition zip300 : Path.path := ["work"; "output"; "zip"; "c_en_300x250.zip"].

(** Only English banners of the first two entries. *)
Definition someFilters : filters :=
  {| onlySize := None; onlyLang := Some ["en"]; onlyMotive := None;
     onlyTemplate := None; onlyIndex := Some [Num.of_Z 0; Num.of_Z 1] |}.

(** One format, written with its keys in two orders. *)
Definition bannerA : value :=
  VObj [("width", num 300); ("height", num 250);
        ("brand", VObj [("type", VStr "standard"); ("tone", VStr "dark")])].

Definition bannerB : value :=
  VObj [("brand", VObj [("tone", VStr "dark"); ("type", VStr "standard")]);
        ("height", num 250); ("width", num 300)].

(** A finished banner folder on a Mac. *)
Definition finished : entries :=
  [("index.html", File (Text "<html>300</html>"));
   ("index.html.mustache", File (Text "<html>{{WIDTH}}</html>"));
   (".DS_Store", File (Text "Bud1"));
   (".gen-state.json", File (Json (VObj [("assetsFiles", VArr [VStr "logo.png"])])));
   ("assets", Dir [("logo.png", File (Text "png")); ("Thumbs.db", File (Text "db"))])].

(** A folder that holds assets before its banner was ever generated. *)
Definition prepared : entries :=
  [("assets", Dir [("logo.png", File (Text "mine")); ("default.png", File (Text "mine too"))])].

(** The same folder once the template [standard] was copied into it. *)
Definition instantiated : entries :=
  [("assets", Dir [("logo.png", File (Text "mine")); ("default.png", File (Text "mine too"))]);
   ("index.html.mustache", File (Text "<html>{{WIDTH}}</html>"));
   ("style.css", File (Text "body{}"))].

(** A campaign whose second format has no numeric width. *)
Definition bannerWide : value :=
  VObj [("width", VStr "wide"); ("height", num 90); ("language", VStr "en")].

Definition campaign2 : value :=
  VObj [("formats", VArr [banner300; bannerWide]); ("campaign", VStr "c")].

(** Two formats that derive one folder and differ in their click-through. *)
Definition campaign3 : value :=
  VObj [("formats",
         VArr [VObj [("width", num 300); ("height", num 250); ("clicktag", VStr "https://a")];
               VObj [("width", num 300); ("height", num 250); ("clicktag", VStr "https://b")]]);
        ("campaign", VStr "c")].

(** A later host: the same directories and templates, another clock and
    another archiver. *)
Definition laterHost : env :=
  {| cwd := ["work"];
     TEMPLATES_DIR := ["app"; "templates"];
     templates := {[ ["app"; "templates"; "standard"] := standard ]};
     archiveBytes := fun _ => Num.of_Z 1024;
     clock := fun _ => "2024-02-02T00:00:00.000Z" |}.

(** A banner folder whose state record was cut short. *)
Definition cutShort : entries :=
  [("index.html", File (Text "<html>300</html>"));
   ("index.html.mustache", File (Text "<html>{{WIDTH}}</html>"));
   ("assets", Dir [("logo.png", File (Text "png"))]);
   (".gen-state.json", File (Text "{ assetsFiles: ["))].

Definition cutShortDisk : world :=
  {| banners := {[ folder300 := cutShort ]}; zips := ∅; console := [] |}.

End Demo.

(** ** [bin/cli.js]: the command line *)

Module Args.

Import JS Cli.

(** [args.indexOf(flag)] on the strings of [process.argv.slice(2)]. *)
Fixpoint indexOf (flag : string) (args : list string) : option nat :=
  match args with
  | [] => None
  | a :: r =>
      if (a =? flag)%string then Some 0%nat
      else match indexOf flag r with
           | Some i => Some (S i)
           | None => None
           end
  end.

Definition getArgValue (args : list string) (flag : string) : value :=
  match indexOf flag args with
  | None => VNull
  | Some i =>
      match nth_error args (S i) with
      | Some v => VStr v
      | None => VNull
      end
  end.

Definition hasFlag (args : list string) (flag : string) : bool :=
  existsb (String.eqb flag) args.

Definition flagsWithValue : list string :=
  ["--formats"; "--config"; "--outDir"; "--campaign"; "--clicktag"; "--template";
   "--port"; "--only-size"; "--only-lang"; "--only-motive"; "--only-template";
   "--only-index"].

Definition flagsNoValue : list string :=
  ["--zip"; "--zip-only"; "--preview"; "--open"; "--create-only"; "--update"].

(** The loop of [stripKnownFlags] over what is left of [args]: a flag with
    a value takes the argument after it along. *)
Fixpoint stripKnownFlags (args : list string) : list string :=
  match args with
  | [] => []
  | a :: r =>
      if hasStr flagsNoValue a then stripKnownFlags r
      else if hasStr flagsWithValue a then
        match r with
        | [] => []
        | _ :: r' => stripKnownFlags r'
        end
      else a :: stripKnownFlags r
  end.

(** [s.split(/[...]+/)] for a class [p] of code units: the pieces between
    the maximal runs of [p], the empty piece before a leading run and after
    a trailing one included. *)
Fixpoint splitRuns (p : ascii -> bool) (inRun : bool) (s : string) : list string :=
  match s with
  | EmptyString => [EmptyString]
  | String c r =>
      if p c then
        if inRun then splitRuns p true r
        else EmptyString :: splitRuns p true r
      else
        match splitRuns p false r with
        | x :: xs => String c x :: xs
        | [] => [String c EmptyString]
        end
  end.

(** [.filter(Boolean)] on strings. *)
Definition nonEmpty (l : list string) : list string :=
  filter (fun s => s <> "") l.

(** [new Set(l)] on strings: the members in the order of their first
    insertion. *)
Definition setOf (l : list string) : list string :=
  fold_left (fun acc x => if hasStr acc x then acc else acc ++ [x]) l [].

(** [new Set(l)] on numbers: [-0] is kept as [+0], members are compared by
    SameValueZero. *)
Definition setOfNum (l : list number) : list number :=
  fold_left
    (fun acc x =>
       let x' := match x with S754_zero _ => S754_zero false | _ => x end in
       if hasNum acc x' then acc else acc ++ [x'])
    l [].

(** [/^(\d+)\s*x\s*(\d+)$/i] on [s]: the two groups, if [s] matches. *)
Definition matchSize (s : string) : option (string * string) :=
  let '(a, r1) := Str.span Str.isDigit s in
  if (a =? "")%string then None
  else
    match Str.trimStart r1 with
    | String c r2 =>
        if Ascii.eqb (Str.lower c) "x"%char then
          let '(b, r3) := Str.span Str.isDigit (Str.trimStart r2) in
          if (b =? "")%string then None
          else if (r3 =? "")%string then Some (a, b) else None
        else None
    | EmptyString => None
    end.

Definition isListSeparator (c : ascii) : bool :=
  (Str.code c =? 44) || Str.isSpace c.

Definition parseSizeList (input : value) : result (option (list string)) :=
  let* raw :=
    match input with
    | VArr _ => ToString input
    | _ => ToString (if truthy input then input else VStr "")
    end in
  let parts := nonEmpty (map Str.trim (splitRuns isListSeparator false raw)) in
  let sizes :=
    omap (fun p =>
            match matchSize p with
            | Some (a, b) =>
                Some (Num.toString (StringToNumber a) +:+ "x"
                      +:+ Num.toString (StringToNumber b))
            | None => None
            end) parts in
  Ok (match sizes with
      | [] => None
      | _ => Some (setOf sizes)
      end).

Definition parseCsvSet (v : value) : result (option (list string)) :=
  if negb (truthy v) then Ok None
  else
    let* s := ToString v in
    let parts := nonEmpty (map Str.trim (Str.split ","%char s)) in
    Ok (match parts with
        | [] => None
        | _ => Some (setOf parts)
        end).

Definition parseIndexSet (v : value) : result (option (list number)) :=
  if negb (truthy v) then Ok None
  else
    let* s := ToString v in
    let parts :=
      filter (fun n => Num.isFinite n && Num.leb (S754_zero false) n = true)
             (map StringToNumber
                  (nonEmpty (map Str.trim (Str.split ","%char s)))) in
    Ok (match parts with
        | [] => None
        | _ => Some (setOfNum parts)
        end).

Definition buildFilters (args : list string)
           (onlySizesFromPromptOrArgs : option (list string)) : result filters :=
  let* size :=
    match onlySizesFromPromptOrArgs with
    | Some s => Ok (Some s)
    | None => parseCsvSet (getArgValue args "--only-size")
    end in
  let* lang := parseCsvSet (getArgValue args "--only-lang") in
  let* motive := parseCsvSet (getArgValue args "--only-motive") in
  let* template := parseCsvSet (getArgValue args "--only-template") in
  let* index := parseIndexSet (getArgValue args "--only-index") in
  Ok {| onlySize := size; onlyLang := lang; onlyMotive := motive;
        onlyTemplate := template; onlyIndex := index |}.

End Args.

(** ** [bin/cli.js]: the preview page and the zip-only workflow *)

Module Preview.

Import JS Fs Cli.

(** [s.replace(/c/g, by)] for one code unit [c]. *)
Fixpoint replaceUnit (c : ascii) (by_ : string) (s : string) : string :=
  match s with
  | EmptyString => EmptyString
  | String x r =>
      if Ascii.eqb x c then by_ +:+ replaceUnit c by_ r
      else String x (replaceUnit c by_ r)
  end.

(** The double quote, code unit 34. *)
Definition dquote : ascii := ascii_of_N 34.

Definition escapeHtml (s : value) : result string :=
  let* t := ToString s in
  Ok (replaceUnit "'"%char "&#39;"
        (replaceUnit dquote "&quot;"
           (replaceUnit ">"%char "&gt;"
              (replaceUnit "<"%char "&lt;"
                 (replaceUnit "&"%char "&amp;" t))))).

(** [e.isFile()] *)
Definition isFile (n : node) : bool :=
  match n with File _ => true | Dir _ => false end.

(** The [walk] of [collectBannerIndexFiles] from the directory [dir], whose
    node is [n]; [rootDir] is where the walk began. A directory with a file
    [index.html] is reported by the path of that file and not entered,
    unless it is the root directory itself; [fs.readdir] fails on a file. *)
Fixpoint walkIndexFiles (rootDir dir : path) (n : node) : result (list path) :=
  match n with
  | File _ => Err IOError
  | Dir es =>
      let hasIndex :=
        existsb (fun e => isFile (snd e) && (fst e =? "index.html")%string) es in
      if hasIndex
         && negb (bool_decide (dir ++ ["index.html"] = rootDir ++ ["index.html"]))
      then Ok [dir ++ ["index.html"]]
      else
        (fix each (l : list (string * node)) : result (list path) :=
           match l with
           | [] => Ok []
           | (name, child) :: r =>
               match child with
               | Dir _ =>
                   let* a := walkIndexFiles rootDir (dir ++ [name]) child in
                   let* b := each r in
                   Ok (a ++ b)
               | File _ => each r
               end
           end) es
  end.

(** The loop of [walkIndexFiles] over the entries of a directory. *)
Definition walkIndexEntries (rootDir dir : path)
  : list (string * node) -> result (list path) :=
  fix each (l : list (string * node)) : result (list path) :=
    match l with
    | [] => Ok []
    | (name, child) :: r =>
        match child with
        | Dir _ =>
            let* a := walkIndexFiles rootDir (dir ++ [name]) child in
            let* b := each r in
            Ok (a ++ b)
        | File _ => each r
        end
    end.

(** [collectBannerIndexFiles(rootDir)], where [root] is what the disk holds
    at [rootDir], if anything. *)
Definition collectBannerIndexFiles (rootDir : path) (root : option node)
  : result (list path) :=
  match root with
  | None => Ok []
  | Some n => walkIndexFiles rootDir rootDir n
  end.

(** [path.relative(from, to)], cut at its separators, for two normalized
    absolute paths: up from [from] to the last common directory, then down
    to [to]. *)
Fixpoint relative (from to : path) : list string :=
  match from, to with
  | a :: f, b :: t =>
      if (a =? b)%string then relative f t
      else map (fun _ => "..") from ++ to
  | _, _ => map (fun _ => "..") from ++ to
  end.

(** [/^(\d+)x(\d+)$/i] on [s]: the two groups, if [s] matches. *)
Definition matchWxH (s : string) : option (string * string) :=
  let '(a, r1) := Str.span Str.isDigit s in
  if (a =? "")%string then None
  else
    match r1 with
    | String c r2 =>
        if Ascii.eqb (Str.lower c) "x"%char then
          let '(b, r3) := Str.span Str.isDigit r2 in
          if (b =? "")%string then None
          else if (r3 =? "")%string then Some (a, b) else None
        else None
    | EmptyString => None
    end.

Record previewItem : Type := {
  href : string;
  label : string;
  w : number;
  h : number
}.

Definition indexFileToPreviewItem (sourceRoot absIndex : path) : previewItem :=
  let href := Str.join "/" (relative sourceRoot absIndex) in
  let relFolder :=
    if Str.endsWith (Str.lowercase href) "/index.html" then Str.dropEnd 11 href
    else href in
  let parts := Str.split "/"%char relFolder in
  let size := List.last parts "" in
  let m := matchWxH size in
  let w := match m with Some (a, _) => StringToNumber a | None => Num.nan end in
  let h := match m with Some (_, b) => StringToNumber b | None => Num.nan end in
  let label :=
    if Num.isFinite w && Num.isFinite h
    then Num.toString w +:+ "x" +:+ Num.toString h
    else size in
  {| href := href; label := label; w := w; h := h |}.

End Preview.

Module ZipOnly.

Import JS Fs Cli Preview.

(** The [walk] of [collectBannerFolders]: a directory that lists an entry
    [index.html] is a banner folder and is not entered. *)
Fixpoint walkFolders (dir : path) (n : node) : result (list path) :=
  match n with
  | File _ => Err IOError
  | Dir es =>
      if existsb (String.eqb "index.html") (map fst es) then Ok [dir]
      else
        (fix each (l : list (string * node)) : result (list path) :=
           match l with
           | [] => Ok []
           | (name, child) :: r =>
               match child with
               | Dir _ =>
                   let* a := walkFolders (dir ++ [name]) child in
                   let* b := each r in
                   Ok (a ++ b)
               | File _ => each r
               end
           end) es
  end.

(** The loop of [walkFolders] over the entries of a directory. *)
Definition walkEntries (dir : path) : list (string * node) -> result (list path) :=
  fix each (l : list (string * node)) : result (list path) :=
    match l with
    | [] => Ok []
    | (name, child) :: r =>
        match child with
        | Dir _ =>
            let* a := walkFolders (dir ++ [name]) child in
            let* b := each r in
            Ok (a ++ b)
        | File _ => each r
        end
    end.

(** [collectBannerFolders(rootDir)], where [root] is what the disk holds at
    [rootDir], if anything. *)
Definition collectBannerFolders (rootDir : path) (root : option node)
  : result (list path) :=
  match root with
  | None => Ok []
  | Some n => walkFolders rootDir n
  end.

(** What the path of a banner folder tells about its format; [langCode]
    and [motiveName] are strings or null. *)
Record meta : Type := {
  width : number;
  height : number;
  langCode : value;
  motiveName : value
}.

(** [None] is null. *)
Definition parseMetaFromBannerFolder (outRoot bannerFolder : path) : option meta :=
  let rel := Str.split "/"%char (Str.join "/" (relative outRoot bannerFolder)) in
  let sizePart := List.last rel "" in
  match matchWxH sizePart with
  | None => None
  | Some (a, b) =>
      Some {| width := StringToNumber a;
              height := StringToNumber b;
              langCode := if (2 <=? length rel)%nat
                          then VStr (nth 0 rel "") else VNull;
              motiveName := if (3 <=? length rel)%nat
                            then VStr (nth 1 rel "") else VNull |}
  end.

(** [formats.find(p)]: the first format for which [p] holds; a call of [p]
    that throws ends the search. *)
Fixpoint find (p : value -> result bool) (formats : list value) : result value :=
  match formats with
  | [] => Ok VUndefined
  | f :: r =>
      let* b := p f in
      if b then Ok f else find p r
  end.

(** The first test of [findFormatForFolder]: the size, then the language
    and the motive where both sides have one. *)
Definition exactly (m : meta) (f : value) : result bool :=
  let* fw := get f "width" in
  let* w := ToNumber fw in
  let* fh := get f "height" in
  let* h := ToNumber fh in
  if negb (strictEq (VNum w) (VNum (width m)))
     || negb (strictEq (VNum h) (VNum (height m))) then Ok false
  else
    let* l1 := get f "language" in
    let* l2 := get f "lang" in
    let* lang := ToString (coalesce (coalesce l1 l2) (VStr "")) in
    let* m1 := get f "motive" in
    let* m2 := get f "motiveName" in
    let* motive := ToString (coalesce (coalesce m1 m2) (VStr "")) in
    if truthy (langCode m) && truthy (VStr lang)
       && negb (strictEq (VStr lang) (langCode m)) then Ok false
    else if truthy (motiveName m) && truthy (VStr motive)
            && negb (strictEq (VStr motive) (motiveName m)) then Ok false
    else Ok true.

(** The second test: the size alone; the height is not looked at when the
    width differs. *)
Definition bySize (m : meta) (f : value) : result bool :=
  let* fw := get f "width" in
  let* w := ToNumber fw in
  if negb (strictEq (VNum w) (VNum (width m))) then Ok false
  else
    let* fh := get f "height" in
    let* h := ToNumber fh in
    Ok (strictEq (VNum h) (VNum (height m))).

Definition findFormatForFolder (formats : list value) (m : option meta)
  : result value :=
  match m with
  | None => Ok VNull
  | Some m =>
      let* exact := find (exactly m) formats in
      if truthy exact then Ok exact
      else
        let* f := find (bySize m) formats in
        Ok (coalesce f VNull)
  end.

End ZipOnly.

(** ** What the statements about the command line, the preview and the
    zip-only workflow speak of *)

Module Props.

Import JS Fs Cli Spec Preview ZipOnly.

(** A non-empty string of decimal digits: what [\d+] matches. *)
Definition digits (s : string) : Prop := s <> "" /\ allOf Str.isDigit s = true.

(** Any code unit but [c]. *)
Definition notUnit (c x : ascii) : bool := negb (Ascii.eqb x c).

(** A member of a comma-separated list as it is read back: not empty, no
    white space around it, no comma in it. *)
Definition plainItem (x : string) : Prop :=
  x <> "" /\ Str.trim x = x /\ allOf (notUnit ","%char) x = true.

(** One format more has been counted: as rendered (created or updated), as
    skipped, or as filtered out. *)
Definition countedOnce (c c' : counts) : Prop :=
  c' = bump c 1 1 0 0 0 \/ c' = bump c 1 0 1 0 0
  \/ c' = bump c 0 0 0 1 0 \/ c' = bump c 0 0 0 0 1.

(** A code unit of a portable file name: a letter, a digit, [_], [.] or
    [-]. *)
Definition isSafeUnit (c : ascii) : bool :=
  Str.isWord c || (Str.code c =? 46) || (Str.code c =? 45).

(** *** Escaping *)

(** What a single pass over a text writes for the code unit [c]. *)
Definition entity (c : ascii) : string :=
  if Ascii.eqb c "&"%char then "&amp;"
  else if Ascii.eqb c "<"%char then "&lt;"
  else if Ascii.eqb c ">"%char then "&gt;"
  else if Ascii.eqb c dquote then "&quot;"
  else if Ascii.eqb c "'"%char then "&#39;"
  else String c EmptyString.

Fixpoint escaped (s : string) : string :=
  match s with
  | EmptyString => EmptyString
  | String c r => entity c +:+ escaped r
  end.

(** The code units that open or close a tag or an attribute value. *)
Definition isMarkup (c : ascii) : bool :=
  Ascii.eqb c "<"%char || Ascii.eqb c ">"%char || Ascii.eqb c dquote
  || Ascii.eqb c "'"%char.

(** The code unit an escaped text begins with, and what follows it. *)
Definition readEntity (s : string) : option (ascii * string) :=
  match s with
  | String "&" (String "a" (String "m" (String "p" (String ";" r)))) =>
      Some ("&"%char, r)
  | String "&" (String "l" (String "t" (String ";" r))) => Some ("<"%char, r)
  | String "&" (String "g" (String "t" (String ";" r))) => Some (">"%char, r)
  | String "&" (String "q" (String "u" (String "o" (String "t" (String ";" r))))) =>
      Some (dquote, r)
  | String "&" (String "#" (String "3" (String "9" (String ";" r)))) =>
      Some ("'"%char, r)
  | String c r => Some (c, r)
  | EmptyString => None
  end.

(** *** Trees of folders *)

(** Every directory of the tree lists each name once. *)
Fixpoint wellListed (n : node) : Prop :=
  match n with
  | File _ => True
  | Dir es =>
      NoDup (map fst es)
      /\ (fix all (l : list (string * node)) : Prop :=
            match l with
            | [] => True
            | (_, child) :: r => wellListed child /\ all r
            end) es
  end.

(** The directory at [p] below [root] lists an entry [index.html]. *)
Definition bannerAt (root : node) (p : list string) : Prop :=
  exists es, at_path p root = Some (Dir es) /\ hasEntry "index.html" es = true.

(** A banner folder none of whose ancestors, the root included, is one. *)
Definition topmost (root : node) (p : list string) : Prop :=
  bannerAt root p
  /\ forall q, q `prefix_of` p -> q <> p -> ~ bannerAt root q.

(** No directory of the tree is itself named [index.html]. *)
Fixpoint indexFilesOnly (n : node) : Prop :=
  match n with
  | File _ => True
  | Dir es =>
      (fix all (l : list (string * node)) : Prop :=
         match l with
         | [] => True
         | (name, child) :: r =>
             (name = "index.html" -> isFile child = true)
             /\ indexFilesOnly child /\ all r
         end) es
  end.

(** No name of the tree is the dynamic source of a dynamic source. *)
Fixpoint noSourceOfSource (n : node) : Prop :=
  match n with
  | File _ => True
  | Dir es =>
      (fix all (l : list (string * node)) : Prop :=
         match l with
         | [] => True
         | (name, child) :: r =>
             Str.endsWith name ".mustache.mustache" = false
             /\ noSourceOfSource child /\ all r
         end) es
  end.

(** What the loop of [renderNode] has reached in [cur] once the entries
    [done] of the directory [d] are behind it. *)
Definition renderedSoFar data (d done cur : entries) : Prop :=
  (forall name raw,
      lookup name d = Some (File raw) -> Str.endsWith name ".mustache" = true ->
      lookup name cur = Some (File raw))
  /\ (forall name sub,
         lookup name d = Some (Dir sub) -> exists x, lookup name cur = Some (Dir x))
  /\ (forall name sub,
         In (name, Dir sub) done ->
         exists sub', renderNode data true (Dir sub) = Ok sub'
                      /\ lookup name cur = Some sub')
  /\ (forall name raw,
         In (name, File raw) done -> Str.endsWith name ".mustache" = true ->
         lookup (Str.dropEnd 9 name) cur = Some (File (Rendered raw data))).

(** What a computation may change: of the banner folders the one at
    [folder] only and, unless [zip] is set, neither an archive nor the
    console. *)
Definition touchesOnly {A : Type} (folder : option path) (zip : bool) (m : M A)
  : Prop :=
  forall w w' r,
    m w = (w', r) ->
    (forall f, Some f <> folder -> banners w' !! f = banners w !! f)
    /\ (zip = false -> zips w' = zips w /\ console w' = console w).

(** *** What a step leaves on the disk *)

(** The view of a format: the object that [generateFromFormatsJson] hands
    to [renderFromMustacheFiles]. *)
Definition viewOf (o : options) (cfg campaign fmt : value) (t : located)
           (templateType : string) (assets : list (string * string)) : result value :=
  let* fsize := get fmt "size" in
  let* maxBytes := parseKb fsize in
  let adserverType :=
    coalesce (getOpt (getOpt fmt "adserver") "type") (VStr DEFAULT_ADSERVER_TYPE) in
  let* cfgClick := get cfg "clicktag" in
  let* fmtClick := get fmt "clicktag" in
  let clicktag :=
    coalesce (coalesce (coalesce (clicktagOverride o) cfgClick) fmtClick)
             (VStr DEFAULT_CLICKTAG) in
  Ok (VObj [("CAMPAIGN", campaign);
            ("LANGUAGE", coalesce (Cli.langCode t) (VStr ""));
            ("MOTIVE", coalesce (Cli.motiveName t) (VStr ""));
            ("WIDTH", VNum (Cli.width t));
            ("HEIGHT", VNum (Cli.height t));
            ("SIZE_KB", coalesce fsize (VStr ""));
            ("MAX_BYTES", coalesce maxBytes (VStr ""));
            ("ADSERVER_TYPE", adserverType);
            ("CLICKTAG", clicktag);
            ("ASSETS",
             VArr (map (fun a => VObj [("id", VStr (fst a)); ("file", VStr (snd a))])
                       assets));
            ("FORMAT_JSON", JSON_stringify fmt);
            ("TEMPLATE_TYPE", VStr templateType)]).

(** The folder [d4] holds, beside every dynamic source of the folder [d2],
    at every depth, the file rendered from that source with [view]; the
    state record, which is written last, is the one exception. *)
Definition renderedFrom (view : value) (d2 d4 : entries) : Prop :=
  forall p name raw,
    at_path (p ++ [name]) (Dir d2) = Some (File raw) ->
    Str.endsWith name ".mustache" = true ->
    p ++ [Str.dropEnd 9 name] <> [".gen-state.json"] ->
    at_path (p ++ [Str.dropEnd 9 name]) (Dir d4) = Some (File (Rendered raw view)).

(** The step has rendered the format, where [d1] is its folder with the
    template in place: the [assets] directory is ensured, the folder is
    rendered with the view of the format and of its asset files, and the
    state record of these asset files and of the fingerprint of the format
    is written beside the rendered files; this is what the folder holds in
    [w']. In a folder that lists each name once and where no name is the
    source of a source, every dynamic source has been rendered. *)
Definition rendersInto (e : env) (o : options) (cfg campaign : value) (idx : nat)
           (fmt : value) (t : located) (d1 : entries) (w' : world) : Prop :=
  exists ty root d2 assets view d3 d4,
    getTemplateRoot e fmt cfg (templateOverride o) = Ok (ty, root)
    /\ ensureDir "assets" d1 = Ok d2
    /\ readAssets d2 = Ok assets
    /\ viewOf o cfg campaign fmt t ty assets = Ok view
    /\ renderFromMustacheFiles d2 view true = Ok d3
    /\ d4 = put ".gen-state.json"
               (File (Json (jsonCopy
                              (stateRecord e idx
                                 (VArr (map (fun a => VStr (snd a)) assets))
                                 (stableStringify fmt) ty))))
               d3
    /\ banners w' !! bannerFolder t = Some d4
    /\ (wellListed (Dir d1) -> noSourceOfSource (Dir d1) -> renderedFrom view d2 d4).

(** The step has rendered nothing: the folder holds what it held, [d], but
    for an [assets] directory created where there was none; no archive was
    written and nothing was printed. *)
Definition leavesAsIs (t : located) (d : entries) (w w' : world) : Prop :=
  exists d2,
    ensureDir "assets" d = Ok d2
    /\ banners w' !! bannerFolder t = Some d2
    /\ zips w' = zips w /\ console w' = console w.

(** Where archives are written, the archive directory does not lie in
    [folder]. *)
Definition zipsOutside (o : options) (zipRoot folder : path) : Prop :=
  shouldZip o = true -> ~ folder `prefix_of` zipRoot.

(** *** Folders side by side *)

(** Two directories are apart when neither lies in the other. *)
Definition apart (p q : path) : Prop := ~ p `prefix_of` q /\ ~ q `prefix_of` p.

(** The archive directory of a run. *)
Definition zipRootOf (e : env) : path := Path.resolve (cwd e) ["output"; "zip"].

(** The folders of a run lie side by side: the folder of each format that
    passes the filters is apart from every other banner folder of the disk,
    from the folder of every other format, from every template and, where
    archives are written, from the archive directory. *)
Definition sideBySide (e : env) (o : options) (cfg : value) (outRoot : path)
           (idx : nat) (formats : list value) (w : world) : Prop :=
  forall i fi ti,
    formats !! i = Some fi ->
    locate e o cfg outRoot (idx + i) fi = Ok (Some ti) ->
    (forall k, is_Some (banners w !! k) ->
               k = bannerFolder ti \/ apart k (bannerFolder ti))
    /\ (forall j fj tj,
           formats !! j = Some fj ->
           locate e o cfg outRoot (idx + j) fj = Ok (Some tj) ->
           bannerFolder tj = bannerFolder ti \/ apart (bannerFolder tj) (bannerFolder ti))
    /\ (forall k, is_Some (templates e !! k) -> apart k (bannerFolder ti))
    /\ (shouldZip o = true -> apart (zipRootOf e) (bannerFolder ti)).

(** The directory [folder] is clear of a run: the folder of each format that
    passes the filters is [folder] itself or apart from it, and where
    archives are written the archive directory is apart from it. *)
Definition clearOf (e : env) (o : options) (cfg : value) (folder : path) : Prop :=
  (forall formats outRoot i fi ti,
      readFormatsFromCfg cfg = Ok formats ->
      outRootOf e o cfg = Ok outRoot ->
      formats !! i = Some fi ->
      locate e o cfg outRoot i fi = Ok (Some ti) ->
      bannerFolder ti = folder \/ apart (bannerFolder ti) folder)
  /\ (shouldZip o = true -> apart (zipRootOf e) folder).

(** A name that [path.join] takes as one segment. *)
Definition plainSegment (s : string) : Prop :=
  s <> "" /\ s <> "." /\ s <> ".." /\ allOf (notUnit "/"%char) s = true.

(** The format [f] has the width and the height of [m]. *)
Definition hasSize (m : meta) (f : value) : Prop :=
  exists fw fh w h,
    get f "width" = Ok fw /\ ToNumber fw = Ok w
    /\ get f "height" = Ok fh /\ ToNumber fh = Ok h
    /\ strictEq (VNum w) (VNum (width m)) = true
    /\ strictEq (VNum h) (VNum (height m)) = true.

End Props.

(** ** More examples *)

Module Samples.

Import JS Fs Cli.

(** A source root with its own page, one campaign with two banners (one of
    them with a banner nested in it) and a folder without a page. *)
Definition sourceTree : entries :=
  [("index.html", File (Text "<html>"));
   ("c",
    Dir [("en",
          Dir [("300x250",
                Dir [("index.html", File (Text "<html>"));
                     ("old", Dir [("index.html", File (Text "<html>"))])]);
               ("728x90", Dir [("assets", Dir [])])]);
         ("readme.txt", File (Text ""));
         ("160x600", Dir [("index.html", File (Text "<html>"))])])].

(** The campaign [c] of [sourceTree]. *)
Definition campaignTree : entries :=
  match lookup "c" sourceTree with
  | Some (Dir es) => es
  | _ => []
  end.

(** A banner folder with a dynamic source at its top and one in a
    directory. *)
Definition dynamicFolder : entries :=
  [("index.html.mustache", File (Text "<html>{{WIDTH}}"));
   ("css", Dir [("style.css.mustache", File (Text "body{}"));
                ("reset.css", File (Text "*{}"))]);
   ("assets", Dir [("logo.png", File (Text "png"))])].

(** A banner folder with a style sheet of its own, before the template is
    copied into it. *)
Definition ownStyle : entries := [("style.css", File (Text "mine"))].

End Samples.

(** * Properties *)

Import JS Fs Cli Spec.

(** ** Strings and values *)

Lemma strictEq_str_inv (x : value) (s : string) :
  strictEq x (VStr s) = true -> x = VStr s.
Proof.
  destruct x; simpl; try discriminate.
  intros H. apply String.eqb_eq in H. congruence.
Qed.

Lemma strictEq_str_refl (s : string) : strictEq (VStr s) (VStr s) = true.
Proof. simpl. apply String.eqb_refl. Qed.

Lemma strictEq_str (x : value) (s : string) :
  strictEq x (VStr s) = true <-> x = VStr s.
Proof.
  split; [apply strictEq_str_inv | intros ->; apply strictEq_str_refl].
Qed.

Lemma strictEq_undefined (x : value) :
  strictEq x VUndefined = true <-> x = VUndefined.
Proof. destruct x; simpl; split; congruence. Qed.

Lemma sameElements_strs_inv (la : list value) (l : list string) :
  length la = length l ->
  sameElements la (map VStr l) = true -> la = map VStr l.
Proof.
  revert l. induction la as [|x la IH]; intros [|s l] Hlen; simpl in *; try discriminate.
  - reflexivity.
  - destruct (strictEq x (VStr s)) eqn:E; simpl; [|discriminate].
    intros H. apply strictEq_str_inv in E. subst x.
    f_equal. apply IH; [lia | exact H].
Qed.

Lemma sameElements_strs_refl (l : list string) :
  sameElements (map VStr l) (map VStr l) = true.
Proof.
  induction l as [|s l IH]; simpl; [reflexivity|].
  rewrite String.eqb_refl. simpl. exact IH.
Qed.

(** [sameStringArray] against a sequence of strings holds exactly of that
    sequence. *)
Lemma sameStringArray_strs (a : value) (l : list string) :
  sameStringArray a (VArr (map VStr l)) = true <-> a = VArr (map VStr l).
Proof.
  split.
  - destruct a as [| | | | |la|]; simpl; try discriminate.
    destruct (length la =? length (map VStr l))%nat eqn:E; simpl; [|discriminate].
    apply Nat.eqb_eq in E. rewrite length_map in E.
    intros H. f_equal. apply sameElements_strs_inv; assumption.
  - intros ->. simpl. rewrite Nat.eqb_refl. simpl. apply sameElements_strs_refl.
Qed.

Lemma assetsFiles_strs (assets : list (string * string)) :
  map (fun a => VStr (snd a)) assets = map VStr (map snd assets).
Proof. rewrite map_map. reflexivity. Qed.

Lemma stableStringify_cases (fmt : value) :
  (exists s, stableStringify fmt = VStr s) \/ stableStringify fmt = VUndefined.
Proof.
  unfold stableStringify, JSON_stringify.
  destruct (serialize (sorter fmt)); eauto.
Qed.

Lemma strictEq_sig (x fmt : value) :
  strictEq x (stableStringify fmt) = true <-> x = stableStringify fmt.
Proof.
  destruct (stableStringify_cases fmt) as [[s ->] | ->].
  - apply strictEq_str.
  - apply strictEq_undefined.
Qed.

(** The decision of incremental mode for an existing artifact, read off the
    persisted state. *)
Lemma shouldRender_incremental (prev : value) (assets : list (string * string))
      (fmt : value) :
  shouldRenderBanner "incremental" true prev
    (VArr (map (fun a => VStr (snd a)) assets)) (stableStringify fmt) = true
  <-> staleState prev assets (stableStringify fmt).
Proof.
  unfold shouldRenderBanner, staleState. simpl.
  rewrite assetsFiles_strs.
  destruct (truthy prev) eqn:Ht; simpl.
  - destruct (sameStringArray _ _) eqn:Ea; simpl.
    + apply sameStringArray_strs in Ea.
      destruct (strictEq _ _) eqn:Es; simpl.
      * apply strictEq_sig in Es. split; [discriminate|].
        intros [H | [H | H]]; [discriminate | congruence | congruence].
      * split; [|auto]. intros _. right. right. intros H.
        apply strictEq_sig in H. congruence.
    + split; [|auto]. intros _. right. left. intros H.
      apply sameStringArray_strs in H. congruence.
  - split; auto.
Qed.

(** ** The monads *)

Lemma bind_ok_inv {A B : Type} (r : result A) (k : A -> result B) (b : B) :
  bind r k = Ok b -> exists a, r = Ok a /\ k a = Ok b.
Proof. destruct r; simpl; [eauto | discriminate]. Qed.

Lemma bindM_ok_inv {A B : Type} (m : M A) (k : A -> M B) (w w' : world) (b : B) :
  bindM m k w = (w', Ok b) ->
  exists a w1, m w = (w1, Ok a) /\ k a w1 = (w', Ok b).
Proof.
  unfold bindM. destruct (m w) as [w1 [a|x]]; [eauto|].
  intros H. inversion H.
Qed.

Lemma bindM_lift_ok {A B : Type} (r : result A) (k : A -> M B) (w : world) (a : A) :
  r = Ok a -> bindM (lift r) k w = k a w.
Proof. intros ->. reflexivity. Qed.

Lemma bindM_lift_err {A B : Type} (r : result A) (k : A -> M B) (w : world) (x : exn) :
  r = Err x -> bindM (lift r) k w = (w, Err x).
Proof. intros ->. reflexivity. Qed.

Lemma bindM_eval {A B : Type} (m : M A) (k : A -> M B) (w w1 : world) (a : A) :
  m w = (w1, Ok a) -> bindM m k w = k a w1.
Proof. intros H. unfold bindM. rewrite H. reflexivity. Qed.

Lemma bindM_fail {A B : Type} (m : M A) (k : A -> M B) (w w1 : world) (x : exn) :
  m w = (w1, Err x) -> bindM m k w = (w1, Err x).
Proof. intros H. unfold bindM. rewrite H. reflexivity. Qed.

Lemma lift_ok_inv {A : Type} (r : result A) (w w' : world) (a : A) :
  lift r w = (w', Ok a) -> w' = w /\ r = Ok a.
Proof. unfold lift. intros H. inversion H. auto. Qed.

(** Take a successful computation apart, one bind at a time. *)
Ltac inv_M H :=
  repeat
    match type of H with
    | bindM _ _ _ = (_, Ok _) =>
        let a := fresh "a" in
        let w1 := fresh "w" in
        let H1 := fresh "Hm" in
        apply bindM_ok_inv in H; destruct H as (a & w1 & H1 & H);
        try (apply lift_ok_inv in H1; destruct H1 as [-> H1])
    end.

(** ** Directories *)

Lemma lookup_put_eq (name : string) (n : node) (d : entries) :
  lookup name (put name n d) = Some n.
Proof.
  unfold lookup. induction d as [|[k x] d IH]; simpl.
  - rewrite String.eqb_refl. reflexivity.
  - destruct (name =? k)%string eqn:E; simpl.
    + rewrite String.eqb_refl. reflexivity.
    + rewrite E. exact IH.
Qed.

Lemma lookup_put_ne (name name' : string) (n : node) (d : entries) :
  name <> name' -> lookup name' (put name n d) = lookup name' d.
Proof.
  intros Hne. unfold lookup. induction d as [|[k x] d IH]; simpl.
  - destruct (name' =? name)%string eqn:E; [|reflexivity].
    apply String.eqb_eq in E. congruence.
  - destruct (name =? k)%string eqn:E; simpl.
    + apply String.eqb_eq in E. subst k.
      destruct (name' =? name)%string eqn:E'; [|reflexivity].
      apply String.eqb_eq in E'. congruence.
    + destruct (name' =? k)%string; [reflexivity | exact IH].
Qed.

Lemma put_same (name : string) (n : node) (d : entries) :
  lookup name d = Some n -> put name n d = d.
Proof.
  unfold lookup. induction d as [|[k x] d IH]; simpl; [discriminate|].
  destruct (name =? k)%string eqn:E.
  - apply String.eqb_eq in E. subst k. intros H. congruence.
  - intros H. f_equal. exact (IH H).
Qed.

Lemma hasEntry_put_ne (name name' : string) (n : node) (d : entries) :
  name <> name' -> hasEntry name' (put name n d) = hasEntry name' d.
Proof. intros H. unfold hasEntry. rewrite lookup_put_ne by exact H. reflexivity. Qed.

(** ** The world *)

Lemma world_eq (w : world) :
  {| banners := banners w; zips := zips w; console := console w |} = w.
Proof. destruct w; reflexivity. Qed.

Lemma setFolder_same (folder : Path.path) (d : entries) (w : world) :
  banners w !! folder = Some d -> setFolder folder d w = (w, Ok tt).
Proof.
  intros H. unfold setFolder. rewrite insert_id by exact H.
  rewrite world_eq. reflexivity.
Qed.

(** ** The three modes *)

Lemma generate_counts e o cfg campaign zipRoot idx fmt t ex ty d2 assets af sig c w w' c' :
  generate e o cfg campaign zipRoot idx fmt t ex ty d2 assets af sig c w = (w', Ok c') ->
  c' = bump c 1 (if ex then 0 else 1) (if ex then 1 else 0) 0 0.
Proof.
  unfold generate. intros H. inv_M H.
  unfold ret in H. inversion H. reflexivity.
Qed.

Lemma readAssets_ensureDir (d d2 : entries) :
  ensureDir "assets" d = Ok d2 ->
  readAssets d2 = readAssets d /\ readGenState d2 = readGenState d
  /\ hasEntry "index.html" d2 = hasEntry "index.html" d.
Proof.
  unfold ensureDir. destruct (lookup "assets" d) as [[c|es]|] eqn:E; try discriminate.
  - intros H. inversion H. subst. auto.
  - intros H. inversion H. subst d2. clear H. repeat split.
    + unfold readAssets. rewrite lookup_put_eq, E. reflexivity.
    + unfold readGenState. rewrite lookup_put_ne by discriminate. reflexivity.
    + apply hasEntry_put_ne. discriminate.
Qed.

(** What [reconcile] does to an artifact that exists, in incremental mode. *)
Lemma reconcile_incremental_existing e o cfg campaign zipRoot idx fmt t c w d w' c' :
  mode o = "incremental" ->
  banners w !! bannerFolder t = Some d ->
  hasEntry "index.html" d = true ->
  reconcile e o cfg campaign zipRoot idx fmt t c w = (w', Ok c') ->
  exists assets,
    readAssets d = Ok assets
    /\ ((staleState (readGenState d) assets (stableStringify fmt)
         /\ c' = bump c 1 0 1 0 0)
        \/ (~ staleState (readGenState d) assets (stableStringify fmt)
            /\ c' = bump c 0 0 0 1 0)).
Proof.
  intros Hmode Hd Hidx H.
  assert (Hex : bannerExists w (bannerFolder t) = true)
    by (unfold bannerExists; rewrite Hd; exact Hidx).
  unfold reconcile in H.
  rewrite (bindM_eval (folderEntries _) _ w w (Some d)) in H
    by (unfold folderEntries; rewrite Hd; reflexivity).
  rewrite (bindM_eval _ _ w w true) in H by (rewrite Hex; reflexivity).
  rewrite Hmode in H. simpl in H.
  apply bindM_ok_inv in H. destruct H as ([ty root] & w1 & H1 & H).
  apply lift_ok_inv in H1. destruct H1 as [-> Htr].
  destruct (negb (bool_decide (is_Some (templates e !! root)))) eqn:Etpl.
  { unfold throw in H. inversion H. }
  rewrite (bindM_eval _ _ _ _ _ (setFolder_same _ _ _ Hd)) in H.
  rewrite (bindM_lift_ok (ensureTemplateOnCreate e root d true) _ _ d eq_refl) in H.
  rewrite (bindM_eval _ _ _ _ _ (setFolder_same _ _ _ Hd)) in H.
  apply bindM_ok_inv in H. destruct H as (d2 & w1 & H1 & H).
  apply lift_ok_inv in H1. destruct H1 as [-> Hd2].
  apply bindM_ok_inv in H. destruct H as ([] & w1 & _ & H).
  apply bindM_ok_inv in H. destruct H as (assets & w2 & H1 & H).
  apply lift_ok_inv in H1. destruct H1 as [-> Has].
  destruct (readAssets_ensureDir _ _ Hd2) as (Ha & Hg & _).
  rewrite Ha in Has. rewrite Hg in H.
  exists assets. split; [exact Has|].
  destruct (shouldRenderBanner _ _ _ _ _) eqn:Edec; simpl in H.
  - left. split; [apply shouldRender_incremental; exact Edec|].
    apply generate_counts in H. exact H.
  - right. split.
    + intros Hs. apply shouldRender_incremental in Hs. congruence.
    + unfold ret in H. inversion H. reflexivity.
Qed.

Lemma reconcile_create_only_existing e o cfg campaign zipRoot idx fmt t c w :
  mode o = "create-only" ->
  bannerExists w (bannerFolder t) = true ->
  reconcile e o cfg campaign zipRoot idx fmt t c w = (w, Ok (bump c 0 0 0 1 0)).
Proof.
  intros Hmode Hex. unfold reconcile.
  rewrite (bindM_eval (folderEntries _) _ w w _ eq_refl).
  rewrite (bindM_eval _ _ w w true) by (rewrite Hex; reflexivity).
  rewrite Hmode. reflexivity.
Qed.

Lemma reconcile_update_missing e o cfg campaign zipRoot idx fmt t c w :
  mode o = "update" ->
  bannerExists w (bannerFolder t) = false ->
  reconcile e o cfg campaign zipRoot idx fmt t c w = (w, Ok (bump c 0 0 0 1 0)).
Proof.
  intros Hmode Hex. unfold reconcile.
  rewrite (bindM_eval (folderEntries _) _ w w _ eq_refl).
  rewrite (bindM_eval _ _ w w false) by (rewrite Hex; reflexivity).
  rewrite Hmode. reflexivity.
Qed.

Lemma reconcile_incremental_missing e o cfg campaign zipRoot idx fmt t c w w' c' :
  mode o = "incremental" ->
  bannerExists w (bannerFolder t) = false ->
  reconcile e o cfg campaign zipRoot idx fmt t c w = (w', Ok c') ->
  c' = bump c 1 1 0 0 0.
Proof.
  intros Hmode Hex H. unfold reconcile in H.
  rewrite (bindM_eval (folderEntries _) _ w w _ eq_refl) in H.
  rewrite (bindM_eval _ _ w w false) in H by (rewrite Hex; reflexivity).
  rewrite Hmode in H. simpl in H.
  apply bindM_ok_inv in H. destruct H as ([ty root] & w1 & H1 & H).
  destruct (negb (bool_decide (is_Some (templates e !! root)))) eqn:Etpl.
  { unfold throw in H. inversion H. }
  inv_M H.
  apply generate_counts in H. exact H.
Qed.


(** ** C4: the size guard *)

(** With no budget the check answers [{ ok: true, skipped: true }]: the
    answer says ok. *)
Lemma size_guard_no_budget_says_ok :
  snd (checkZipSize Demo.host Demo.zip300 Demo.banner300 VNull Demo.afterRun1)
  = Ok (VObj [("ok", VBool true); ("skipped", VBool true)]).
Proof. reflexivity. Qed.

(** C4, amended. Without a budget ([maxBytes] null, or a budget of 0 bytes)
    the check answers [{ ok: true, skipped: true }], prints nothing and does
    not look at the archive. With a budget [B] and an archive of [S] bytes it
    answers [ok] exactly when [S <= B], and prints a size-ok line in that
    case, an oversize warning otherwise. *)
Theorem size_guard e zipPath fmt maxBytes w :
  (truthy maxBytes = false ->
   checkZipSize e zipPath fmt maxBytes w
   = (w, Ok (VObj [("ok", VBool true); ("skipped", VBool true)])))
  /\ (forall B a label,
         maxBytes = VNum B ->
         truthy maxBytes = true ->
         zips w !! zipPath = Some a ->
         sizeLabel fmt = Ok label ->
         let S := archiveBytes e a in
         checkZipSize e zipPath fmt maxBytes w
         = (logged w (if Num.leb S B
                      then ZipSizeOk (basename zipPath) S B label
                      else ZipOversize (basename zipPath) S B label),
            Ok (VObj [("ok", VBool (Num.leb S B));
                      ("actualBytes", VNum S); ("maxBytes", VNum B)]))).
Proof.
  split.
  - intros Ht. unfold checkZipSize. rewrite Ht. reflexivity.
  - intros B a label -> Ht Hz Hl S. unfold checkZipSize. rewrite Ht.
    change (negb true) with false. cbv iota.
    unfold bindM, lift, say, ret, logged. rewrite Hz, Hl. reflexivity.
Qed.

Lemma size_guard_witness :
  checkZipSize Demo.host Demo.zip300 Demo.banner300
               (VNum (Num.of_Z 40960)) Demo.afterRun1
  = (logged Demo.afterRun1
       (ZipOversize "c_en_300x250.zip" (Num.of_Z 51200) (Num.of_Z 40960) "en_300x250"),
     Ok (VObj [("ok", VBool false); ("actualBytes", VNum (Num.of_Z 51200));
               ("maxBytes", VNum (Num.of_Z 40960))])).
Proof.
  apply (proj2 (size_guard Demo.host Demo.zip300 Demo.banner300
                  (VNum (Num.of_Z 40960)) Demo.afterRun1)
           (Num.of_Z 40960)
           (zipFolder (default [] (banners Demo.afterRun1 !! Demo.folder300)))
           "en_300x250").
  - reflexivity.
  - reflexivity.
  - vm_compute. reflexivity.
  - vm_compute. reflexivity.
Defined.

(** ** C7: the filters *)

Lemma matchesFilters_keys e fmt idx cfg tov fl size lang motive ty :
  filterKeys e fmt cfg tov = Ok (size, lang, motive, ty) ->
  matchesFilters e fmt idx cfg tov fl
  = Ok (match onlyIndex fl with
        | Some s => hasNum s (Num.of_Z (Z.of_nat idx))
        | None => true
        end
        && match onlySize fl with Some s => hasStr s size | None => true end
        && match onlyLang fl with Some s => hasStr s lang | None => true end
        && match onlyMotive fl with Some s => hasStr s motive | None => true end
        && match onlyTemplate fl with Some s => hasStr s ty | None => true end).
Proof.
  unfold filterKeys, matchesFilters. intros H.
  repeat (apply bind_ok_inv in H; let a := fresh "a" in
          let Ha := fresh "Ha" in destruct H as (a & Ha & H); rewrite Ha; simpl bind).
  inversion H. subst. clear H.
  destruct (onlyIndex fl) as [s1|]; [destruct (hasNum s1 _)|]; simpl; try reflexivity;
  (destruct (onlySize fl) as [s2|]; [destruct (hasStr s2 _)|]; simpl; try reflexivity;
   (destruct (onlyLang fl) as [s3|]; [destruct (hasStr s3 _)|]; simpl; try reflexivity;
    (destruct (onlyMotive fl) as [s4|]; [destruct (hasStr s4 _)|]; simpl; try reflexivity;
     (destruct (onlyTemplate fl) as [s5|]; [destruct (hasStr s5 _)|]; simpl;
      reflexivity)))).
Qed.

(** A format whose keys cannot be computed neither passes nor fails: the
    conversion throws. *)
Lemma matchesFilters_throws e fmt idx cfg tov fl x :
  filterKeys e fmt cfg tov = Err x ->
  matchesFilters e fmt idx cfg tov fl = Err x.
Proof.
  unfold filterKeys, matchesFilters. intros H.
  repeat match type of H with
         | bind ?r _ = Err _ =>
             destruct r eqn:?; simpl in H |- *; [|congruence]
         end.
  discriminate.
Qed.

(** C7. A format passes the filters exactly when every filter that was
    supplied holds its key: the index, the size string, the language, the
    motive, the resolved template type. A filter that was not supplied asks
    nothing, and with no filter at all the format passes. *)
Theorem filter_conjunction e fmt idx cfg tov fl size lang motive ty :
  filterKeys e fmt cfg tov = Ok (size, lang, motive, ty) ->
  exists b,
    matchesFilters e fmt idx cfg tov fl = Ok b
    /\ (b = true <->
        (forall s, onlyIndex fl = Some s -> hasNum s (Num.of_Z (Z.of_nat idx)) = true)
        /\ (forall s, onlySize fl = Some s -> hasStr s size = true)
        /\ (forall s, onlyLang fl = Some s -> hasStr s lang = true)
        /\ (forall s, onlyMotive fl = Some s -> hasStr s motive = true)
        /\ (forall s, onlyTemplate fl = Some s -> hasStr s ty = true))
    /\ (fl = noFilters -> b = true).
Proof.
  intros Hk. rewrite (matchesFilters_keys _ _ _ _ _ _ _ _ _ _ Hk).
  eexists. split; [reflexivity|]. split.
  - rewrite !andb_true_iff. split.
    + intros ((((H1 & H2) & H3) & H4) & H5).
      repeat split; intros s Hs; rewrite Hs in *; assumption.
    + intros (H1 & H2 & H3 & H4 & H5).
      repeat split.
      * destruct (onlyIndex fl); [apply H1|]; reflexivity.
      * destruct (onlySize fl); [apply H2|]; reflexivity.
      * destruct (onlyLang fl); [apply H3|]; reflexivity.
      * destruct (onlyMotive fl); [apply H4|]; reflexivity.
      * destruct (onlyTemplate fl); [apply H5|]; reflexivity.
  - intros ->. reflexivity.
Qed.

Lemma filter_conjunction_witness :
  exists b,
    matchesFilters Demo.host Demo.banner300 0 Demo.campaign1 VNull Demo.someFilters = Ok b
    /\ (b = true <->
        (forall s, onlyIndex Demo.someFilters = Some s
                   -> hasNum s (Num.of_Z (Z.of_nat 0)) = true)
        /\ (forall s, onlySize Demo.someFilters = Some s -> hasStr s "300x250" = true)
        /\ (forall s, onlyLang Demo.someFilters = Some s -> hasStr s "en" = true)
        /\ (forall s, onlyMotive Demo.someFilters = Some s -> hasStr s "" = true)
        /\ (forall s, onlyTemplate Demo.someFilters = Some s -> hasStr s "standard" = true))
    /\ (Demo.someFilters = noFilters -> b = true).
Proof.
  apply (filter_conjunction Demo.host Demo.banner300 0%nat Demo.campaign1 VNull
           Demo.someFilters "300x250" "en" "" "standard").
  vm_compute. reflexivity.
Defined.

(** ** C10: the budget of a format *)

#[local] Arguments String.append !_ _ / : simpl nomatch.

Lemma app_assoc_str (a b c : string) : (a +:+ b) +:+ c = a +:+ (b +:+ c).
Proof. induction a as [|x a IH]; simpl; [reflexivity | f_equal; exact IH]. Qed.

Lemma app_nil_r_str (a : string) : a +:+ "" = a.
Proof. induction a as [|x a IH]; simpl; [reflexivity | f_equal; exact IH]. Qed.

(** [span] cuts a string where its predicate first fails. *)
Lemma span_spec (p : ascii -> bool) (s a b : string) :
  Str.span p s = (a, b) ->
  s = a +:+ b /\ allOf p a = true
  /\ match b with String c _ => p c = false | EmptyString => True end.
Proof.
  revert a b. induction s as [|c s IH]; simpl; intros a b H.
  - inversion H. subst. auto.
  - destruct (p c) eqn:Ec.
    + destruct (Str.span p s) as [a' b'] eqn:Es. inversion H. subst. clear H.
      destruct (IH _ _ eq_refl) as (-> & Ha & Hb).
      simpl. rewrite Ec, Ha. auto.
    + inversion H. subst. simpl. auto.
Qed.

Lemma span_app (p : ascii -> bool) (a b : string) :
  allOf p a = true ->
  match b with String c _ => p c = false | EmptyString => True end ->
  Str.span p (a +:+ b) = (a, b).
Proof.
  intros Ha Hb. induction a as [|c a IH]; simpl in *.
  - destruct b as [|c b]; simpl; [reflexivity|]. rewrite Hb. reflexivity.
  - apply andb_true_iff in Ha. destruct Ha as [Hc Ha].
    rewrite Hc, (IH Ha). reflexivity.
Qed.

Lemma dropWhile_spec (p : ascii -> bool) (s : string) :
  exists ws, s = ws +:+ Str.dropWhile p s /\ allOf p ws = true.
Proof.
  induction s as [|c s IH]; simpl.
  - exists "". auto.
  - destruct (p c) eqn:Ec.
    + destruct IH as (ws & Hs & Hw). exists (String c ws). simpl.
      rewrite <- Hs, Ec, Hw. auto.
    + exists "". auto.
Qed.

Lemma dropWhile_app (p : ascii -> bool) (ws r : string) :
  allOf p ws = true ->
  match r with String c _ => p c = false | EmptyString => True end ->
  Str.dropWhile p (ws +:+ r) = r.
Proof.
  intros Hw Hr. induction ws as [|c ws IH]; simpl in *.
  - destruct r as [|c r]; simpl; [reflexivity|]. rewrite Hr. reflexivity.
  - apply andb_true_iff in Hw. destruct Hw as [Hc Hw]. rewrite Hc. apply IH, Hw.
Qed.

(** The code units the pattern tells apart. *)
Lemma unit_classes (c : ascii) :
  (Str.isSpace c = true -> Str.isDigit c = false /\ c <> "."%char)
  /\ (Str.lower c = "k"%char ->
      Str.isDigit c = false /\ Str.isSpace c = false /\ c <> "."%char)
  /\ (c = "."%char -> Str.isDigit c = false).
Proof.
  destruct c as [[] [] [] [] [] [] [] []]; vm_compute;
    repeat split; intros; congruence.
Qed.

Lemma lowercase_kb (t : string) :
  Str.lowercase t = "kb" <->
  exists k b, Str.lower k = "k"%char /\ Str.lower b = "b"%char
              /\ t = String k (String b EmptyString).
Proof.
  split.
  - destruct t as [|k [|b [|x t]]]; simpl; try discriminate.
    intros H. inversion H. eauto.
  - intros (k & b & Hk & Hb & ->). simpl. rewrite Hk, Hb. reflexivity.
Qed.

Lemma eqb_empty (s : string) : (s =? "")%string = false <-> s <> "".
Proof. apply String.eqb_neq. Qed.

(** The matcher finds exactly the strings of the pattern, and the number in
    each. *)
Lemma matchKb_spec (s m : string) : matchKb s = Some m <-> kbString s m.
Proof.
  unfold matchKb, kbString. split.
  - destruct (Str.span Str.isDigit s) as [ip r1] eqn:E1.
    destruct (span_spec _ _ _ _ E1) as (-> & Hip & Hr1).
    destruct (ip =? "")%string eqn:Eip; [discriminate|]. apply eqb_empty in Eip.
    assert (Hplain :
              (if (Str.lowercase (Str.trimStart r1) =? "kb")%string
               then Some ip else None) = Some m ->
              kbNumber m /\
              exists ws k b, allOf Str.isSpace ws = true /\ Str.lower k = "k"%char
                             /\ Str.lower b = "b"%char
                             /\ ip +:+ r1 = m +:+ ws +:+ String k (String b "")).
    { destruct (Str.lowercase (Str.trimStart r1) =? "kb")%string eqn:Ekb; [|discriminate].
      intros H. inversion H. subst m. clear H.
      apply String.eqb_eq, lowercase_kb in Ekb. destruct Ekb as (k & b & Hk & Hb & Ht).
      destruct (dropWhile_spec Str.isSpace r1) as (ws & Hs & Hw).
      unfold Str.trimStart in Ht. rewrite Ht in Hs.
      split; [apply kb_whole; assumption|].
      exists ws, k, b. rewrite Hs at 1. auto. }
    destruct r1 as [|c r]; [exact Hplain|].
    destruct (Ascii.eqb c "."%char) eqn:Ec.
    + apply Ascii.eqb_eq in Ec. subst c.
      destruct (Str.span Str.isDigit r) as [fp r'] eqn:E2.
      destruct (span_spec _ _ _ _ E2) as (-> & Hfp & Hr').
      destruct (fp =? "")%string eqn:Efp; [exact Hplain|]. apply eqb_empty in Efp.
      destruct (Str.lowercase (Str.trimStart r') =? "kb")%string eqn:Ekb; [|discriminate].
      intros H. inversion H. subst m. clear H.
      apply String.eqb_eq, lowercase_kb in Ekb. destruct Ekb as (k & b & Hk & Hb & Ht).
      destruct (dropWhile_spec Str.isSpace r') as (ws & Hs & Hw).
      unfold Str.trimStart in Ht. rewrite Ht in Hs.
      split; [apply kb_fraction; assumption|].
      exists ws, k, b. repeat split; try assumption.
      rewrite Hs at 1. rewrite !app_assoc_str. reflexivity.
    + assert (Hc : c <> "."%char) by (intros ->; discriminate).
      destruct c as [[] [] [] [] [] [] [] []]; try exact Hplain. congruence.
  - intros (Hm & ws & k & b & Hw & Hk & Hb & ->).
    destruct (unit_classes k) as (_ & Hkc & _). destruct (Hkc Hk) as (Hkd & Hks & Hkdot).
    assert (Htail : Str.lowercase (Str.trimStart (ws +:+ String k (String b "")))
                    = "kb").
    { unfold Str.trimStart. rewrite dropWhile_app by (simpl; auto).
      apply lowercase_kb. eauto. }
    assert (Hhead : match ws +:+ String k (String b "") with
                    | String c _ => Str.isDigit c = false /\ c <> "."%char
                    | EmptyString => True
                    end).
    { destruct ws as [|x ws]; simpl; [auto|].
      simpl in Hw. apply andb_true_iff in Hw. destruct Hw as [Hx _].
      destruct (unit_classes x) as (Hxc & _). exact (Hxc Hx). }
    destruct Hm as [ip Hne Hip | ip fp Hne Hfne Hip Hfp].
    + rewrite span_app; [|assumption|].
      2:{ destruct (ws +:+ String k (String b "")); [auto | apply Hhead]. }
      apply eqb_empty in Hne. rewrite Hne.
      destruct (ws +:+ String k (String b "")) as [|c r] eqn:Er.
      * rewrite Htail. reflexivity.
      * destruct Hhead as [_ Hdot].
        destruct c as [[] [] [] [] [] [] [] []];
          try (rewrite Htail; reflexivity). congruence.
    + rewrite !app_assoc_str.
      rewrite span_app; [|assumption|simpl; reflexivity].
      apply eqb_empty in Hne. rewrite Hne. simpl.
      rewrite span_app; [|assumption|].
      2:{ destruct (ws +:+ String k (String b "")); [auto | apply Hhead]. }
      apply eqb_empty in Hfne. rewrite Hfne.
      rewrite Htail. reflexivity.
Qed.

Lemma kbString_truthy (x : value) (s m : string) :
  ToString x = Ok s -> kbString (Str.trim s) m -> truthy x = true.
Proof.
  intros Hs Hm. apply matchKb_spec in Hm.
  destruct x as [| |[|]|n|t|l|l]; try reflexivity.
  - inversion Hs; subst s. vm_compute in Hm. discriminate.
  - inversion Hs; subst s. vm_compute in Hm. discriminate.
  - inversion Hs; subst s. vm_compute in Hm. discriminate.
  - destruct n as [sg|sg| |sg mn ex]; try reflexivity.
    + inversion Hs; subst s. destruct sg; vm_compute in Hm; discriminate.
    + inversion Hs; subst s. vm_compute in Hm. discriminate.
  - destruct t; [|reflexivity].
    inversion Hs; subst s. vm_compute in Hm. discriminate.
Qed.

(** C10. A size that is absent (or otherwise falsy) gives no budget, and so
    does a size whose string, once trimmed, is not a number followed by
    [kb]: then [parseKb] answers null without an error, and the size check
    with that answer is skipped without a line on the console. A size of the
    pattern gives [Math.round(Number(m) * 1024)] for its number [m]. *)
Theorem budget_parsing :
  (forall x, truthy x = false -> parseKb x = Ok VNull)
  /\ (forall x s,
         ToString x = Ok s -> (forall m, ~ kbString (Str.trim s) m) ->
         parseKb x = Ok VNull)
  /\ (forall x s m,
         ToString x = Ok s -> kbString (Str.trim s) m ->
         parseKb x
         = Ok (VNum (Num.round (Num.mul (StringToNumber m) (Num.of_Z 1024)))))
  /\ (forall e zipPath fmt w,
         checkZipSize e zipPath fmt VNull w
         = (w, Ok (VObj [("ok", VBool true); ("skipped", VBool true)]))).
Proof.
  repeat split.
  - intros x Hx. unfold parseKb. rewrite Hx. reflexivity.
  - intros x s Hs Hno. unfold parseKb.
    destruct (truthy x); simpl; [|reflexivity].
    rewrite Hs. simpl.
    destruct (matchKb (Str.trim s)) as [m|] eqn:E; [|reflexivity].
    apply matchKb_spec in E. destruct (Hno m E).
  - intros x s m Hs Hm. unfold parseKb.
    rewrite (kbString_truthy _ _ _ Hs Hm), Hs. simpl.
    apply matchKb_spec in Hm. rewrite Hm. reflexivity.
Qed.

Lemma budget_parsing_witness :
  parseKb (VStr " 12.5 KB ") = Ok (VNum (Num.of_Z 12800)).
Proof.
  apply (proj1 (proj2 (proj2 budget_parsing)) (VStr " 12.5 KB ") " 12.5 KB " "12.5").
  - reflexivity.
  - split.
    + apply (kb_fraction "12" "5"); [discriminate | discriminate | reflexivity | reflexivity].
    + exists " ", "K"%char, "B"%char. repeat split; reflexivity.
Defined.

(** ** C3: the fingerprint *)

(** Induction on a value reaches the members of its arrays and objects. *)
Lemma value_ind_deep (P : value -> Prop) :
  P VUndefined -> P VNull -> (forall b, P (VBool b)) -> (forall n, P (VNum n)) ->
  (forall s, P (VStr s)) ->
  (forall l, Forall P l -> P (VArr l)) ->
  (forall l, Forall (fun kv => P (snd kv)) l -> P (VObj l)) ->
  forall v, P v.
Proof.
  intros Hu Hn Hb Hnum Hs Ha Ho.
  fix IH 1. intros [| | b | n | s | l | l].
  - exact Hu.
  - exact Hn.
  - apply Hb.
  - apply Hnum.
  - apply Hs.
  - apply Ha. induction l as [|x l IHl]; constructor; [apply IH | exact IHl].
  - apply Ho. induction l as [|[k x] l IHl]; constructor; [apply IH | exact IHl].
Qed.

(** *** Code-unit order is a total order *)

Lemma ascii_compare_eq (a b : ascii) : Ascii.compare a b = Eq -> a = b.
Proof. apply Ascii.compare_eq_iff. Qed.

Lemma string_compare_trans_lt (a b c : string) :
  String.compare a b = Lt -> String.compare b c = Lt -> String.compare a c = Lt.
Proof.
  revert b c. induction a as [|x a IH]; intros [|y b] [|z c]; simpl;
    try congruence.
  unfold Ascii.compare.
  destruct (N.compare_spec (N_of_ascii x) (N_of_ascii y)) as [Hxy|Hxy|Hxy];
    try discriminate;
    destruct (N.compare_spec (N_of_ascii y) (N_of_ascii z)) as [Hyz|Hyz|Hyz];
    try discriminate; intros H1 H2.
  - rewrite Hxy, Hyz, N.compare_refl. eapply IH; eauto.
  - rewrite Hxy. apply N.compare_lt_iff in Hyz. rewrite Hyz. reflexivity.
  - rewrite <- Hyz. apply N.compare_lt_iff in Hxy. rewrite Hxy. reflexivity.
  - assert (H : (N_of_ascii x < N_of_ascii z)%N) by lia.
    apply N.compare_lt_iff in H. rewrite H. reflexivity.
Qed.

Lemma leb_cases (a b : string) :
  Str.le a b <-> String.compare a b = Lt \/ a = b.
Proof.
  unfold Str.le, String.leb.
  destruct (String.compare a b) eqn:E.
  - apply String.compare_eq_iff in E. split; auto.
  - split; auto.
  - split; [discriminate|]. intros [H | ->]; [discriminate|].
    assert (H : String.compare b b = Eq).
    { clear E. induction b as [|x b IH]; simpl; [reflexivity|].
      unfold Ascii.compare. rewrite N.compare_refl. exact IH. }
    congruence.
Qed.

#[local] Instance str_le_trans : Transitive Str.le.
Proof.
  intros a b c Hab Hbc. apply leb_cases in Hab, Hbc. apply leb_cases.
  destruct Hab as [Hab | ->]; destruct Hbc as [Hbc | ->]; auto.
  left. eapply string_compare_trans_lt; eauto.
Qed.

#[local] Instance str_le_antisym : AntiSymm eq Str.le.
Proof. intros a b Hab Hba. apply String.leb_antisym; assumption. Qed.

#[local] Instance str_le_total : Total Str.le.
Proof. intros a b. apply String.leb_total. Qed.

(** Sorting forgets the order it was given. *)
Lemma sort_perm (l l' : list string) : l ≡ₚ l' -> Str.sort l = Str.sort l'.
Proof.
  intros H. unfold Str.sort.
  apply (Sorted_unique Str.le).
  - apply Sorted_merge_sort. apply _.
  - apply Sorted_merge_sort. apply _.
  - rewrite !merge_sort_Permutation. exact H.
Qed.

Lemma sortZ_perm (l l' : list Z) : l ≡ₚ l' -> merge_sort Z.le l = merge_sort Z.le l'.
Proof.
  intros H.
  apply (Sorted_unique Z.le).
  - apply Sorted_merge_sort. apply _.
  - apply Sorted_merge_sort. apply _.
  - rewrite !merge_sort_Permutation. exact H.
Qed.

Lemma ownKeys_perm (l l' : list (string * value)) :
  l ≡ₚ l' -> ownKeys l ≡ₚ ownKeys l'.
Proof.
  intros H. unfold ownKeys, indexKeys.
  assert (Hk : map fst l ≡ₚ map fst l') by (apply Permutation_map; exact H).
  rewrite (sortZ_perm (omap arrayIndex (map fst l)) (omap arrayIndex (map fst l'))).
  - apply Permutation_app_head. apply filter_Permutation. exact Hk.
  - apply omap_Permutation. exact Hk.
Qed.

(** *** Lookup in an object whose keys are distinct *)

Lemma assoc_In {A : Type} (k : string) (v : A) (l : list (string * A)) :
  NoDup (map fst l) -> (assoc k l = Some v <-> In (k, v) l).
Proof.
  induction l as [|[k' v'] l IH]; simpl; intros Hnd.
  - split; [discriminate | tauto].
  - apply NoDup_cons in Hnd. destruct Hnd as [Hk' Hnd].
    destruct (k =? k')%string eqn:E.
    + apply String.eqb_eq in E. subst k'. split.
      * intros H. inversion H. auto.
      * intros [H | H]; [congruence|].
        exfalso. apply Hk'. apply list_elem_of_In.
        change k with (fst (k, v)). apply in_map. exact H.
    + apply String.eqb_neq in E. rewrite (IH Hnd). split; [auto|].
      intros [H | H]; [congruence | exact H].
Qed.

Lemma assoc_perm {A : Type} (k : string) (l l' : list (string * A)) :
  NoDup (map fst l) -> l ≡ₚ l' -> assoc k l = assoc k l'.
Proof.
  intros Hnd Hp.
  assert (Hnd' : NoDup (map fst l')).
  { eapply NoDup_Permutation_proper; [|exact Hnd].
    symmetry. apply Permutation_map. exact Hp. }
  destruct (assoc k l) as [v|] eqn:E.
  - apply (assoc_In _ _ _ Hnd) in E. symmetry. apply (assoc_In _ _ _ Hnd').
    eapply Permutation_in; eauto.
  - destruct (assoc k l') as [v|] eqn:E'; [|reflexivity].
    apply (assoc_In _ _ _ Hnd') in E'.
    assert (H : In (k, v) l) by (eapply Permutation_in; [symmetry|]; eauto).
    apply (assoc_In _ _ _ Hnd) in H. congruence.
Qed.

Lemma fold_left_ext_in {A B : Type} (f g : A -> B -> A) (l : list B) (a : A) :
  (forall x y, f x y = g x y) -> fold_left f l a = fold_left g l a.
Proof.
  intros H. revert a. induction l as [|y l IH]; intros a; simpl; [reflexivity|].
  rewrite H. apply IH.
Qed.

Lemma sorted_members_keys (f : value -> value) (l : list (string * value)) :
  map fst (map (fun '(k, v) => (k, f v)) l) = map fst l.
Proof. induction l as [|[k v] l IH]; simpl; [reflexivity | f_equal; exact IH]. Qed.

(** The sorter gives one value for all the orders of the keys. *)
Lemma sorter_keyPerm (v : value) : forall v', keyPerm v v' -> sorter v = sorter v'.
Proof.
  induction v as [| | b | n | s | l IH | l IH] using value_ind_deep;
    intros v' H; inversion H; subst; try reflexivity.
  - (* arrays *)
    simpl. f_equal.
    match goal with Hf : Forall2 keyPerm _ _ |- _ => rename Hf into H2 end.
    clear H. induction H2 as [|x y l l' Hxy H2 IH2]; simpl; [reflexivity|].
    apply Forall_cons in IH. destruct IH as [IHx IHl].
    f_equal; [apply IHx; exact Hxy | apply IH2; exact IHl].
  - (* objects *)
    match goal with
    | Hf : Forall2 _ l ?m, Hp : ?m ≡ₚ ?l', Hn : NoDup _ |- _ =>
        rename Hf into H2; rename Hp into Hperm; rename Hn into Hnd;
        rename m into m0; rename l' into l0
    end.
    assert (Hm : map (fun '(k, v) => (k, sorter v)) l
                 = map (fun '(k, v) => (k, sorter v)) m0).
    { clear H Hperm Hnd. induction H2 as [|[k x] [k' y] l l' [Hk Hxy] H2 IH2];
        simpl; [reflexivity|].
      apply Forall_cons in IH. destruct IH as [IHx IHl]. simpl in *. subst k'.
      rewrite (IHx _ Hxy). f_equal. apply IH2; exact IHl. }
    assert (Hkeys : map fst l = map fst m0).
    { clear H Hperm Hnd IH Hm. induction H2 as [|a b l l' [Hk _] H2 IH2]; simpl;
        [reflexivity | f_equal; assumption]. }
    simpl. f_equal.
    assert (Hown : ownKeys l = ownKeys m0) by (unfold ownKeys; rewrite Hkeys; reflexivity).
    rewrite Hown, Hm.
    rewrite (sort_perm _ _ (ownKeys_perm _ _ Hperm)).
    apply fold_left_ext_in. intros out k. f_equal. f_equal.
    apply assoc_perm.
    + rewrite sorted_members_keys, <- Hkeys. exact Hnd.
    + apply Permutation_map. exact Hperm.
Qed.

(** C3. Two values that differ only in the order in which the keys of their
    objects were created, at any depth, have the same fingerprint; the sorter
    keeps the order of an array and leaves a scalar as it is. *)
Theorem fingerprint_key_order :
  (forall v v', keyPerm v v' -> stableStringify v = stableStringify v')
  /\ (forall l, sorter (VArr l) = VArr (map sorter l))
  /\ (forall b n s,
         sorter VNull = VNull /\ sorter (VBool b) = VBool b
         /\ sorter (VNum n) = VNum n /\ sorter (VStr s) = VStr s).
Proof.
  split; [|split].
  - intros v v' H. unfold stableStringify. rewrite (sorter_keyPerm v v' H). reflexivity.
  - reflexivity.
  - intros. repeat split.
Qed.

Lemma keyPerm_refl (v : value) :
  (forall l, v <> VObj l) -> (forall l, v <> VArr l) -> keyPerm v v.
Proof.
  destruct v; intros Ho Ha; try constructor.
  - destruct (Ha l eq_refl).
  - destruct (Ho l eq_refl).
Qed.

Lemma fingerprint_key_order_witness :
  stableStringify Demo.bannerA = stableStringify Demo.bannerB.
Proof.
  apply (proj1 fingerprint_key_order).
  unfold Demo.bannerA, Demo.bannerB.
  eapply (kp_obj _
            [("width", num 300); ("height", num 250);
             ("brand", VObj [("tone", VStr "dark"); ("type", VStr "standard")])]).
  - apply (bool_decide_unpack _). vm_compute. exact I.
  - repeat constructor; simpl.
    eapply (kp_obj _ [("type", VStr "standard"); ("tone", VStr "dark")]).
    + apply (bool_decide_unpack _). vm_compute. exact I.
    + repeat constructor.
    + apply perm_swap.
  - change ([("width", num 300); ("height", num 250);
             ("brand", VObj [("tone", VStr "dark"); ("type", VStr "standard")])])
      with ([("width", num 300); ("height", num 250)]
              ++ [("brand", VObj [("tone", VStr "dark"); ("type", VStr "standard")])]).
    rewrite Permutation_app_comm. simpl. constructor. apply perm_swap.
Defined.

(** ** C8: the packager *)









(** The earlier packager takes everything. *)
Lemma legacy_zipFolder_contents (d : entries) : Legacy.zipFolder d = walk d.
Proof. reflexivity. Qed.

(** C8, on a finished folder: the packager of [bin/cli.js] leaves the
    dynamic source, the OS metadata and the state record out; the earlier
    packager puts all of them into the archive. *)
Theorem packager_exclusions :
  map fst (zipFolder Demo.finished)
  = [["index.html"]; ["assets"]; ["assets"; "logo.png"]]
  /\ map fst (Legacy.zipFolder Demo.finished)
     = [["index.html"]; ["index.html.mustache"]; [".DS_Store"]; [".gen-state.json"];
        ["assets"]; ["assets"; "logo.png"]; ["assets"; "Thumbs.db"]].
Proof. split; reflexivity. Qed.

(** ** C6: the template copy *)

Lemma node_ind_deep (P : node -> Prop) :
  (forall c, P (File c)) ->
  (forall d, Forall (fun kv => P (snd kv)) d -> P (Dir d)) ->
  forall n, P n.
Proof.
  intros Hf Hd. fix IH 1. intros [c|d].
  - apply Hf.
  - apply Hd. induction d as [|[k x] d IHd]; constructor; [apply IH | exact IHd].
Qed.

Lemma prefix_app (p b : string) : String.prefix p (p +:+ b) = true.
Proof.
  induction p as [|c p IH]; simpl.
  - destruct b; reflexivity.
  - destruct (ascii_dec c c); [exact IH | congruence].
Qed.

Lemma includes_prefix (s p : string) :
  String.prefix p s = true -> Str.includes s p = true.
Proof.
  intros H. destruct s as [|c s].
  - change (String.prefix p "" || false = true). rewrite H. reflexivity.
  - change (String.prefix p (String c s) || Str.includes s p = true).
    rewrite H. reflexivity.
Qed.

Lemma includes_middle (a p b : string) : Str.includes (a +:+ p +:+ b) p = true.
Proof.
  induction a as [|c a IH].
  - change ("" +:+ p +:+ b) with (p +:+ b). apply includes_prefix, prefix_app.
  - change (String c a +:+ p +:+ b) with (String c (a +:+ p +:+ b)).
    change (String.prefix p (String c (a +:+ p +:+ b))
            || Str.includes (a +:+ p +:+ b) p = true).
    rewrite IH. apply orb_true_r.
Qed.

Lemma slashed_app (a b : Path.path) :
  Path.slashed (a ++ b) = Path.slashed a +:+ Path.slashed b.
Proof.
  induction a as [|x a IH]; simpl; [reflexivity|].
  rewrite IH, !app_assoc_str. reflexivity.
Qed.

(** The filter of the copy refuses whatever lies in a directory [assets]. *)
Lemma outsideAssets_inside (a : Path.path) (x : string) :
  outsideAssets (a ++ ["assets"; x]) = false.
Proof.
  unfold outsideAssets, Path.toString.
  assert (H : Str.includes (Path.slashed (a ++ ["assets"; x])) "/assets/" = true).
  { rewrite slashed_app. simpl.
    change (String "/" (String "a" (String "s" (String "s" (String "e" (String "t"
              (String "s" (String "/" (x +:+ "")))))))))
      with ("/assets/" +:+ (x +:+ "")).
    apply includes_middle. }
  destruct (a ++ ["assets"; x]) eqn:E.
  - destruct a; discriminate.
  - rewrite H. reflexivity.
Qed.

Lemma insideAssets_refused (src : Path.path) (p : list string) :
  insideAssets p -> refused outsideAssets src p.
Proof.
  intros (pre & x & q & ->). revert src.
  induction pre as [|seg pre IH]; intros src.
  - simpl. right. left. rewrite <- app_assoc. apply outsideAssets_inside.
  - simpl. right. apply IH.
Qed.

Lemma at_path_dir (seg : string) (rest : list string) (d : entries) :
  at_path (seg :: rest) (Dir d) = at_path_from rest (lookup seg d).
Proof. simpl. destruct (lookup seg d); reflexivity. Qed.

(** The copy leaves alone what lies behind an item its filter refuses: there
    it neither creates, nor replaces, nor removes. *)
Lemma copyNode_refused (filter : Path.path -> bool) (s : node) :
  forall (src : Path.path) (d : option node) (n' : node) (p : list string),
    copyNode filter src s d = Ok n' ->
    refused filter src p ->
    at_path p n' = at_path_from p d.
Proof.
  induction s as [c | items IH] using node_ind_deep; intros src d n' p Hc Hp.
  - destruct p as [|seg rest]; [destruct Hp|].
    simpl in Hc. destruct d as [[c'|es]|]; inversion Hc; reflexivity.
  - destruct p as [|seg rest]; [destruct Hp|].
    simpl in Hc.
    assert (Hitems :
              forall acc es',
                (fix copyItems (items : list (string * node)) (acc : entries)
                   : result entries :=
                   match items with
                   | [] => Ok acc
                   | (name, child) :: r =>
                       if filter (src ++ [name])
                       then
                         let* n := copyNode filter (src ++ [name]) child (lookup name acc) in
                         copyItems r (put name n acc)
                       else copyItems r acc
                   end) items acc = Ok es' ->
                at_path (seg :: rest) (Dir es') = at_path (seg :: rest) (Dir acc)).
    { clear Hc. induction items as [|[name child] items IHitems]; intros acc es' Hes.
      - inversion Hes. reflexivity.
      - apply Forall_cons in IH. destruct IH as [IHchild IHrest]. simpl in IHchild.
        destruct (filter (src ++ [name])) eqn:Ef.
        + apply bind_ok_inv in Hes. destruct Hes as (n & Hn & Hes).
          rewrite (IHitems IHrest _ _ Hes).
          rewrite !at_path_dir.
          destruct (String.eqb_spec name seg) as [-> | Hne].
          * rewrite lookup_put_eq. simpl at_path_from.
            destruct Hp as [Hp | Hp]; [congruence|].
            apply (IHchild _ _ _ _ Hn Hp).
          * rewrite lookup_put_ne by exact Hne. reflexivity.
        + apply (IHitems IHrest _ _ Hes). }
    destruct d as [[c'|es]|]; [discriminate| |];
      apply bind_ok_inv in Hc; destruct Hc as (es' & Hes & Hc);
      inversion Hc; subst n'; clear Hc;
      rewrite (Hitems _ _ Hes); reflexivity.
Qed.

Lemma ensureTemplateOnCreate_inside_assets e templateRoot d d' :
  ensureTemplateOnCreate e templateRoot d false = Ok d' ->
  forall p, insideAssets p -> at_path p (Dir d') = at_path p (Dir d).
Proof.
  intros H p Hp. unfold ensureTemplateOnCreate in H.
  destruct (templates e !! templateRoot) as [t|]; [|discriminate].
  apply bind_ok_inv in H. destruct H as (r & Hr & H).
  unfold copy in Hr. destruct (clash _ _); [discriminate|].
  destruct (outsideAssets templateRoot).
  - apply bind_ok_inv in Hr. destruct Hr as (n & Hn & Hr). inversion Hr. subst r.
    pose proof (copyNode_refused _ _ _ _ _ p Hn (insideAssets_refused _ _ Hp)) as Hat.
    simpl in Hat.
    destruct n as [c|es]; inversion H; subst.
    + destruct Hp as (pre & x & q & ->).
      destruct pre; simpl in Hat |- *; rewrite <- Hat; reflexivity.
    + exact Hat.
  - inversion Hr. subst r. inversion H. reflexivity.
Qed.

(** C6. The template is copied only into an artifact whose existence test is
    false: with the test true the folder is returned as it is. And a copy
    never creates, replaces or removes anything inside a directory named
    [assets]: what the folder holds there before, it holds after. *)
Theorem template_copy_protection e templateRoot d :
  ensureTemplateOnCreate e templateRoot d true = Ok d
  /\ forall d',
      ensureTemplateOnCreate e templateRoot d false = Ok d' ->
      forall p, insideAssets p -> at_path p (Dir d') = at_path p (Dir d).
Proof.
  split; [reflexivity|].
  intros d' H. apply (ensureTemplateOnCreate_inside_assets _ _ _ _ H).
Qed.

Lemma template_copy_protection_witness :
  ensureTemplateOnCreate Demo.host ["app"; "templates"; "standard"] Demo.prepared false
  = Ok Demo.instantiated
  /\ at_path ["assets"; "default.png"] (Dir Demo.instantiated)
     = at_path ["assets"; "default.png"] (Dir Demo.prepared).
Proof.
  split; [vm_compute; reflexivity|].
  apply (proj2 (template_copy_protection Demo.host ["app"; "templates"; "standard"]
                  Demo.prepared) Demo.instantiated).
  - vm_compute. reflexivity.
  - exists [], "default.png", []. reflexivity.
Defined.

(** ** C5: width and height *)

Lemma loop_app e o cfg campaign outRoot zipRoot (pre rest : list value) :
  forall idx c w,
    loop e o cfg campaign outRoot zipRoot idx (pre ++ rest) c w
    = match loop e o cfg campaign outRoot zipRoot idx pre c w with
      | (w1, Ok c1) =>
          loop e o cfg campaign outRoot zipRoot (idx + length pre) rest c1 w1
      | (w1, Err x) => (w1, Err x)
      end.
Proof.
  induction pre as [|fmt pre IH]; intros idx c w; simpl.
  - unfold ret. rewrite Nat.add_0_r. reflexivity.
  - unfold bindM.
    destruct (processFormat e o cfg campaign outRoot zipRoot idx fmt c w)
      as [w1 [c1|x]]; [|reflexivity].
    rewrite IH. replace (S idx + length pre)%nat with (idx + S (length pre))%nat by lia.
    reflexivity.
Qed.

Lemma locate_invalid e o cfg outRoot idx fmt width height :
  matchesFilters e fmt idx cfg (templateOverride o) (runFilters o) = Ok true ->
  sizeOf fmt = Ok (width, height) ->
  Num.isFinite width && Num.isFinite height = false ->
  locate e o cfg outRoot idx fmt = Err InvalidWidthHeight.
Proof.
  intros Hf Hs Hfin. unfold locate. rewrite Hf. simpl.
  unfold sizeOf in Hs.
  repeat (apply bind_ok_inv in Hs; let a := fresh "a" in
          let Ha := fresh "Ha" in destruct Hs as (a & Ha & Hs); rewrite Ha; simpl bind).
  inversion Hs. subst.
  apply andb_false_iff in Hfin. destruct Hfin as [-> | ->]; simpl;
    [|rewrite orb_true_r]; reflexivity.
Qed.

Lemma locate_filtered e o cfg outRoot idx fmt :
  matchesFilters e fmt idx cfg (templateOverride o) (runFilters o) = Ok false ->
  locate e o cfg outRoot idx fmt = Ok None.
Proof. intros Hf. unfold locate. rewrite Hf. reflexivity. Qed.

(** The run stops at a format without a width while the banner before it
    has been generated. *)
Lemma invalid_size_after_generation :
  snd (generateFromFormatsJson Demo.host (Demo.run "incremental") Demo.campaign2
         Demo.emptyDisk)
  = Err InvalidWidthHeight
  /\ bannerExists
       (fst (generateFromFormatsJson Demo.host (Demo.run "incremental") Demo.campaign2
               Demo.emptyDisk))
       Demo.folder300
     = true.
Proof. split; vm_compute; reflexivity. Qed.

(** C5, amended. A format that passes the filters and whose width or height
    does not convert to a finite number stops the run with an error when the
    loop reaches it: the formats after it are not processed, the formats
    before it have been processed and the disk stays as they left it. A
    format the filters reject is counted as filtered out whatever its width
    and height. *)
Theorem invalid_size_aborts e o cfg campaign outRoot zipRoot idx pre bad post
        c w w1 c1 width height :
  loop e o cfg campaign outRoot zipRoot idx pre c w = (w1, Ok c1) ->
  matchesFilters e bad (idx + length pre) cfg (templateOverride o) (runFilters o)
  = Ok true ->
  sizeOf bad = Ok (width, height) ->
  Num.isFinite width && Num.isFinite height = false ->
  loop e o cfg campaign outRoot zipRoot idx (pre ++ bad :: post) c w
  = (w1, Err InvalidWidthHeight).
Proof.
  intros Hpre Hf Hs Hfin. rewrite loop_app, Hpre. simpl.
  unfold bindM, processFormat, bindM, lift.
  rewrite (locate_invalid _ _ _ _ _ _ _ _ Hf Hs Hfin). reflexivity.
Qed.

Lemma invalid_size_aborts_witness :
  loop Demo.host (Demo.run "incremental") Demo.campaign2 (VStr "c")
       ["work"; "src"; "c"] ["work"; "output"; "zip"] 0
       ([Demo.banner300] ++ Demo.bannerWide :: []) noCounts Demo.emptyDisk
  = (fst (loop Demo.host (Demo.run "incremental") Demo.campaign2 (VStr "c")
               ["work"; "src"; "c"] ["work"; "output"; "zip"] 0
               [Demo.banner300] noCounts Demo.emptyDisk),
     Err InvalidWidthHeight).
Proof.
  apply (invalid_size_aborts Demo.host (Demo.run "incremental") Demo.campaign2 (VStr "c")
           ["work"; "src"; "c"] ["work"; "output"; "zip"] 0%nat
           [Demo.banner300] Demo.bannerWide [] noCounts Demo.emptyDisk _
           (bump noCounts 1 1 0 0 0) Num.nan (Num.of_Z 90)).
  - vm_compute. reflexivity.
  - vm_compute. reflexivity.
  - vm_compute. reflexivity.
  - reflexivity.
Defined.

(** ** Rendering keeps a folder in shape *)

Lemma renderNode_dir data ow (d : entries) :
  renderNode data ow (Dir d) = (let* es := renderEntries data ow d d in Ok (Dir es)).
Proof. reflexivity. Qed.

Lemma lookup_in_names (name : string) (n : node) (d : entries) :
  lookup name d = Some n -> In name (map fst d).
Proof.
  unfold lookup. induction d as [|[k x] d IH]; simpl; [discriminate|].
  destruct (String.eqb_spec name k) as [-> | Hne]; [auto|].
  intros H. right. exact (IH H).
Qed.

Lemma names_in_lookup (name : string) (d : entries) :
  In name (map fst d) -> exists n, lookup name d = Some n.
Proof.
  unfold lookup. induction d as [|[k x] d IH]; simpl; [tauto|].
  destruct (String.eqb_spec name k) as [-> | Hne]; [eauto|].
  intros [H | H]; [congruence | exact (IH H)].
Qed.

Lemma put_names_in (name : string) (n : node) (d : entries) :
  In name (map fst d) -> map fst (put name n d) = map fst d.
Proof.
  induction d as [|[k x] d IH]; simpl; [tauto|].
  destruct (String.eqb_spec name k) as [-> | Hne]; [reflexivity|].
  intros [H | H]; [congruence|]. simpl. f_equal. exact (IH H).
Qed.

Lemma put_names_new (name : string) (n : node) (d : entries) :
  ~ In name (map fst d) -> map fst (put name n d) = map fst d ++ [name].
Proof.
  induction d as [|[k x] d IH]; simpl; [reflexivity|].
  destruct (String.eqb_spec name k) as [-> | Hne]; [tauto|].
  intros H. simpl. f_equal. apply IH. tauto.
Qed.

Lemma put_NoDup (name : string) (n : node) (d : entries) :
  NoDup (map fst d) -> NoDup (map fst (put name n d)).
Proof.
  intros H. destruct (in_dec string_dec name (map fst d)) as [Hin | Hnin].
  - rewrite put_names_in by exact Hin. exact H.
  - rewrite put_names_new by exact Hnin.
    apply NoDup_app. split; [exact H|]. split.
    + intros x Hx Hx'. apply list_elem_of_In in Hx. apply list_elem_of_singleton in Hx'.
      subst x. tauto.
    + apply NoDup_singleton.
Qed.

Lemma lookup_listed (name : string) (n : node) (d : entries) :
  NoDup (map fst d) -> In (name, n) d -> lookup name d = Some n.
Proof. intros Hnd Hin. apply (assoc_In name n d Hnd). exact Hin. Qed.

(** In a directory without dynamic sources rendering creates no entry. *)
Lemma renderEntries_names data ow (listing : list (string * node)) :
  forall cur es',
    Forall (fun kv => Str.endsWith (fst kv) ".mustache" = false) listing ->
    (forall kv, In kv listing -> In (fst kv) (map fst cur)) ->
    renderEntries data ow listing cur = Ok es' ->
    map fst es' = map fst cur.
Proof.
  induction listing as [|[name child] listing IH]; intros cur es' Hsrc Hin H.
  - inversion H. reflexivity.
  - apply Forall_cons in Hsrc. destruct Hsrc as [Hname Hsrc]. simpl in Hname.
    assert (Hn : In name (map fst cur)) by (apply (Hin (name, child)); left; reflexivity).
    simpl in H. destruct child as [c|sub].
    + rewrite Hname in H. simpl in H.
      apply (IH _ _ Hsrc); [|exact H]. intros kv Hkv. apply Hin. right. exact Hkv.
    + apply bind_ok_inv in H. destruct H as (sub' & _ & H).
      assert (Hin' : forall kv, In kv listing -> In (fst kv) (map fst (put name sub' cur))).
      { intros kv Hkv. rewrite put_names_in by exact Hn. apply Hin. right. exact Hkv. }
      rewrite (IH _ _ Hsrc Hin' H).
      apply put_names_in. exact Hn.
Qed.

Lemma render_assets_names data ow (es es' : entries) :
  noSources es ->
  renderNode data ow (Dir es) = Ok (Dir es') ->
  map fst es' = map fst es.
Proof.
  intros Hsrc H. rewrite renderNode_dir in H.
  apply bind_ok_inv in H. destruct H as (x & Hx & H). inversion H. subst x.
  assert (H1 : Forall (fun kv : string * node => Str.endsWith (fst kv) ".mustache" = false) es).
  { unfold noSources in Hsrc. clear Hx. induction es as [|[k n] es IH]; constructor.
    - simpl in Hsrc. apply Forall_cons in Hsrc. apply Hsrc.
    - apply IH. simpl in Hsrc. apply Forall_cons in Hsrc. apply Hsrc. }
  assert (H2 : forall kv : string * node, In kv es -> In (fst kv) (map fst es)).
  { intros kv Hkv. apply in_map. exact Hkv. }
  exact (renderEntries_names _ _ _ _ _ H1 H2 Hx).
Qed.

Lemma renderNode_dir_ok data ow (d : entries) (n : node) :
  renderNode data ow (Dir d) = Ok n -> exists es, n = Dir es.
Proof.
  rewrite renderNode_dir. intros H. apply bind_ok_inv in H.
  destruct H as (es & _ & H). inversion H. eauto.
Qed.

Lemma keeps_refl (d : entries) : NoDup (map fst d) -> keeps d d.
Proof.
  intros H. repeat split; auto.
  intros es2 Hes _. eauto.
Qed.

Lemma dirAt_put (name name' : string) (n : node) (d : entries) :
  dirAt name' (put name n d)
  <-> (name' = name /\ exists sub, n = Dir sub) \/ (name' <> name /\ dirAt name' d).
Proof.
  unfold dirAt. destruct (string_dec name' name) as [-> | Hne].
  - rewrite lookup_put_eq. split.
    + intros (sub & H). inversion H. left. eauto.
    + intros [[_ (sub & ->)] | [H _]]; [eauto | congruence].
  - rewrite lookup_put_ne by congruence. split; [auto|].
    intros [[H _] | [_ H]]; [congruence | exact H].
Qed.

Lemma hasEntry_put_mono (name name' : string) (n : node) (d : entries) :
  hasEntry name' d = true -> hasEntry name' (put name n d) = true.
Proof.
  unfold hasEntry. destruct (string_dec name name') as [-> | Hne].
  - rewrite lookup_put_eq. reflexivity.
  - rewrite lookup_put_ne by exact Hne. auto.
Qed.

Lemma renderEntries_keeps data (d2 : entries) (listing : list (string * node)) :
  NoDup (map fst d2) ->
  forall cur es',
    (forall kv, In kv listing -> In kv d2) ->
    keeps d2 cur ->
    renderEntries data true listing cur = Ok es' ->
    keeps d2 es'.
Proof.
  intros Hnd.
  induction listing as [|[name child] listing IH]; intros cur es' Hsub Hk H.
  - inversion H. subst. exact Hk.
  - assert (Hlisted : lookup name d2 = Some child).
    { apply lookup_listed; [exact Hnd|]. apply Hsub. left. reflexivity. }
    assert (Hsub' : forall kv, In kv listing -> In kv d2).
    { intros kv Hkv. apply Hsub. right. exact Hkv. }
    destruct Hk as (Hcn & Hdirs & Hmono & Hassets).
    simpl in H. destruct child as [c|sub].
    + destruct (negb (Str.endsWith name ".mustache")).
      { apply (IH _ _ Hsub' (conj Hcn (conj Hdirs (conj Hmono Hassets))) H). }
      simpl in H.
      destruct (lookup name cur) as [[raw|?]|] eqn:Ecur; try discriminate.
      apply bind_ok_inv in H. destruct H as (cur' & Hw & H).
      apply (IH _ _ Hsub') in H; [exact H|].
      unfold writeFile in Hw.
      destruct (Str.dropEnd 9 name =? "")%string; [discriminate|].
      assert (Hout : ~ dirAt (Str.dropEnd 9 name) cur /\ cur' = put (Str.dropEnd 9 name) (File (Rendered raw data)) cur).
      { destruct (lookup (Str.dropEnd 9 name) cur) as [[c0|sub0]|] eqn:Eout;
          try discriminate; inversion Hw; (split; [|reflexivity]);
          intros (s0 & Hs0); congruence. }
      destruct Hout as [Hnodir ->]. clear Hw.
      split; [apply put_NoDup; exact Hcn|]. split; [|split].
      * intros name0. rewrite dirAt_put. split.
        -- intros [[_ (s0 & Hs0)] | [_ Hd]]; [discriminate | apply Hdirs; exact Hd].
        -- intros Hd. right. split; [|apply Hdirs; exact Hd].
           intros ->. apply Hnodir. apply Hdirs. exact Hd.
      * intros name0 Hn. apply hasEntry_put_mono. auto.
      * intros es2 Hes2 Hsrc. destruct (Hassets es2 Hes2 Hsrc) as (x & Hx & Hnames).
        exists x. split; [|exact Hnames].
        rewrite lookup_put_ne; [exact Hx|]. intros Heq.
        apply Hnodir. rewrite Heq. exists x. exact Hx.
    + apply bind_ok_inv in H. destruct H as (sub' & Hsub'' & H).
      destruct (renderNode_dir_ok _ _ _ _ Hsub'') as (es & ->).
      apply (IH _ _ Hsub') in H; [exact H|].
      split; [apply put_NoDup; exact Hcn|]. split; [|split].
      * intros name0. rewrite dirAt_put. split.
        -- intros [[-> _] | [_ Hd]]; [exists sub; exact Hlisted | apply Hdirs; exact Hd].
        -- intros Hd. destruct (string_dec name0 name) as [-> | Hne]; [left; eauto|].
           right. split; [exact Hne|]. apply Hdirs. exact Hd.
      * intros name0 Hn. apply hasEntry_put_mono. auto.
      * intros es2 Hes2 Hsrc. destruct (Hassets es2 Hes2 Hsrc) as (x & Hx & Hnames).
        destruct (string_dec name "assets") as [-> | Hne].
        -- rewrite lookup_put_eq. exists es. split; [reflexivity|].
           assert (sub = es2) by congruence. subst sub.
           apply (render_assets_names _ _ _ _ Hsrc Hsub'').
        -- rewrite lookup_put_ne by exact Hne. eauto.
Qed.

Lemma render_keeps data (d2 d3 : entries) :
  NoDup (map fst d2) ->
  renderFromMustacheFiles d2 data true = Ok d3 ->
  keeps d2 d3.
Proof.
  intros Hnd H. unfold renderFromMustacheFiles in H.
  apply bind_ok_inv in H. destruct H as (n & Hn & H).
  rewrite renderNode_dir in Hn.
  apply bind_ok_inv in Hn. destruct Hn as (es & Hes & Hn). inversion Hn. subst n.
  inversion H. subst d3.
  apply (renderEntries_keeps _ _ _ Hnd _ _ (fun kv Hkv => Hkv) (keeps_refl _ Hnd) Hes).
Qed.

(** ** What [generate] leaves behind *)

Lemma keepsBanners_ret {A : Type} (a : A) : keepsBanners (ret a).
Proof. intros w w' r H. inversion H. reflexivity. Qed.

Lemma keepsBanners_lift {A : Type} (x : result A) : keepsBanners (lift x).
Proof. intros w w' r H. inversion H. reflexivity. Qed.

Lemma keepsBanners_bind {A B : Type} (m : M A) (k : A -> M B) :
  keepsBanners m -> (forall a, keepsBanners (k a)) -> keepsBanners (bindM m k).
Proof.
  intros Hm Hk w w' r H. unfold bindM in H.
  destruct (m w) as [w1 [a|x]] eqn:E.
  - rewrite (Hk a _ _ _ H). apply (Hm _ _ _ E).
  - inversion H. subst. apply (Hm _ _ _ E).
Qed.

Lemma keepsBanners_setZip zipPath a : keepsBanners (setZip zipPath a).
Proof. intros w w' r H. inversion H. reflexivity. Qed.

Lemma keepsBanners_say l : keepsBanners (say l).
Proof. intros w w' r H. inversion H. reflexivity. Qed.

Lemma keepsBanners_checkZipSize e zipPath fmt maxBytes :
  keepsBanners (checkZipSize e zipPath fmt maxBytes).
Proof.
  unfold checkZipSize. destruct (negb (truthy maxBytes)).
  - apply keepsBanners_ret.
  - apply keepsBanners_bind.
    + intros w w' r H. inversion H. reflexivity.
    + intros a. apply keepsBanners_bind; [apply keepsBanners_lift|].
      intros limit. apply keepsBanners_bind; [apply keepsBanners_lift|].
      intros label. apply keepsBanners_bind; [apply keepsBanners_say|].
      intros _. apply keepsBanners_ret.
Qed.

Lemma setFolder_eval (folder : Path.path) (d : entries) (w : world) :
  setFolder folder d w
  = ({| banners := <[folder := d]> (banners w); zips := zips w; console := console w |},
     Ok tt).
Proof. reflexivity. Qed.

(** What [generate] does when it completes: it renders the folder with the
    view of the format, writes the state record, and counts the format. *)
Lemma generate_ok_view e o cfg campaign zipRoot idx fmt t ex ty d2 assets af sig c w w' c' :
  generate e o cfg campaign zipRoot idx fmt t ex ty d2 assets af sig c w = (w', Ok c') ->
  exists view d3 d4,
    Props.viewOf o cfg campaign fmt t ty assets = Ok view
    /\ renderFromMustacheFiles d2 view true = Ok d3
    /\ writeGenState d3 (stateRecord e idx af sig ty) = Ok d4
    /\ banners w' = <[bannerFolder t := d4]> (banners w)
    /\ (shouldZip o = false -> zips w' = zips w /\ console w' = console w)
    /\ c' = bump c 1 (if ex then 0 else 1) (if ex then 1 else 0) 0 0.
Proof.
  intros H. pose proof (generate_counts _ _ _ _ _ _ _ _ _ _ _ _ _ _ _ _ _ _ H) as Hc.
  unfold generate in H.
  apply bindM_ok_inv in H. destruct H as (fsize & w1 & H1 & H).
  apply lift_ok_inv in H1. destruct H1 as [-> Hsize].
  apply bindM_ok_inv in H. destruct H as (maxBytes & w1 & H1 & H).
  apply lift_ok_inv in H1. destruct H1 as [-> Hkb].
  apply bindM_ok_inv in H. destruct H as (cfgClick & w1 & H1 & H).
  apply lift_ok_inv in H1. destruct H1 as [-> Hcc].
  apply bindM_ok_inv in H. destruct H as (fmtClick & w1 & H1 & H).
  apply lift_ok_inv in H1. destruct H1 as [-> Hfc].
  apply bindM_ok_inv in H. destruct H as (d3 & w1 & H1 & H).
  apply lift_ok_inv in H1. destruct H1 as [-> Hrender].
  apply bindM_ok_inv in H. destruct H as ([] & w1 & H1 & H).
  rewrite setFolder_eval in H1. inversion H1. subst w1. clear H1.
  apply bindM_ok_inv in H. destruct H as (d4 & w1 & H1 & H).
  apply lift_ok_inv in H1. destruct H1 as [-> Hwrite].
  apply bindM_ok_inv in H. destruct H as ([] & w1 & H1 & H).
  rewrite setFolder_eval in H1. inversion H1. subst w1. clear H1. simpl in H.
  apply bindM_ok_inv in H. destruct H as ([] & w1 & H1 & H).
  inversion H. subst w'. clear H.
  eexists _, d3, d4. split; [|split; [exact Hrender|]].
  { unfold Props.viewOf. rewrite Hsize. simpl. rewrite Hkb. simpl.
    rewrite Hcc. simpl. rewrite Hfc. reflexivity. }
  split; [exact Hwrite|].
  assert (Hz : banners w1
               = <[bannerFolder t := d4]> (<[bannerFolder t := d3]> (banners w))
               /\ (shouldZip o = false -> zips w1 = zips w /\ console w1 = console w)).
  { destruct (shouldZip o).
    - split; [|discriminate]. revert H1.
      match goal with
      | |- ?m ?w0 = _ -> _ =>
          assert (Hk : keepsBanners m); [|intros H1; exact (Hk _ _ _ H1)]
      end.
      apply keepsBanners_bind; [apply keepsBanners_lift|].
      intros zipName. apply keepsBanners_bind; [apply keepsBanners_setZip|].
      intros _. apply keepsBanners_bind; [apply keepsBanners_checkZipSize|].
      intros _. apply keepsBanners_ret.
    - inversion H1. auto. }
  destruct Hz as [Hz Hq].
  split; [rewrite Hz; apply insert_insert_eq|].
  split; [exact Hq | first [exact Hc | congruence]].
Qed.

Lemma generate_ok_inv e o cfg campaign zipRoot idx fmt t ex ty d2 assets af sig c w w' c' :
  generate e o cfg campaign zipRoot idx fmt t ex ty d2 assets af sig c w = (w', Ok c') ->
  exists data d3 d4,
    renderFromMustacheFiles d2 data true = Ok d3
    /\ writeGenState d3 (stateRecord e idx af sig ty) = Ok d4
    /\ banners w' = <[bannerFolder t := d4]> (banners w)
    /\ c' = bump c 1 (if ex then 0 else 1) (if ex then 1 else 0) 0 0.
Proof.
  intros H. destruct (generate_ok_view _ _ _ _ _ _ _ _ _ _ _ _ _ _ _ _ _ _ H)
    as (view & d3 & d4 & _ & Hr & Hw & Hb & _ & Hc).
  exists view, d3, d4. auto.
Qed.

Lemma writeGenState_ok_inv (d3 d4 : entries) (state : value) :
  writeGenState d3 state = Ok d4 ->
  d4 = put ".gen-state.json" (File (Json (jsonCopy state))) d3.
Proof.
  unfold writeGenState, writeJson, writeFile.
  destruct (serialize state); [|discriminate]. simpl.
  destruct (lookup ".gen-state.json" d3) as [[c|sub]|]; intros H; inversion H; reflexivity.
Qed.

Lemma writeGenState_no_dir (d3 d4 : entries) (state : value) :
  writeGenState d3 state = Ok d4 -> ~ dirAt ".gen-state.json" d3.
Proof.
  unfold writeGenState, writeJson, writeFile.
  destruct (serialize state); [|discriminate]. simpl.
  intros H (sub & Hsub). rewrite Hsub in H. discriminate.
Qed.

(** An object always has a JSON text. *)
Lemma serialize_obj (l : list (string * value)) : serialize (VObj l) <> None.
Proof. simpl. discriminate. Qed.

Lemma jsonCopy_strs (l : list string) :
  map (fun e => match e with VUndefined => VNull | _ => jsonCopy e end) (map VStr l)
  = map VStr l.
Proof. induction l as [|s l IH]; simpl; [reflexivity | f_equal; exact IH]. Qed.

(** The state record reads back as it was written: not stale for the asset
    files and the fingerprint it was built from. *)
Lemma stateRecord_fresh e idx (assets : list (string * string)) (fmt : value) (ty : string) :
  ~ staleState
      (jsonCopy (stateRecord e idx (VArr (map (fun a => VStr (snd a)) assets))
                             (stableStringify fmt) ty))
      assets (stableStringify fmt).
Proof.
  unfold staleState, stateRecord. rewrite assetsFiles_strs.
  destruct (stableStringify_cases fmt) as [[s ->] | ->]; simpl;
    rewrite jsonCopy_strs; intros [H | [H | H]]; congruence.
Qed.

(** ** A tidy folder stays tidy *)

Lemma noSources_names (es : entries) :
  noSources es <->
  forall name n, lookup name es = Some n -> Str.endsWith name ".mustache" = false.
Proof.
  unfold noSources. rewrite Forall_forall. split.
  - intros H name n Hl. apply H. apply list_elem_of_In.
    eapply lookup_in_names; eauto.
  - intros H name Hin. apply list_elem_of_In in Hin.
    destruct (names_in_lookup _ _ Hin) as (n & Hn). eapply H; eauto.
Qed.

Lemma noSources_same_names (es es' : entries) :
  map fst es' = map fst es -> noSources es -> noSources es'.
Proof. unfold noSources. intros ->. auto. Qed.

Lemma tidy_nil : tidy [].
Proof. split; [constructor | discriminate]. Qed.

Lemma copyNode_NoDup (filter : Path.path -> bool) (src : Path.path)
      (items d es : entries) :
  NoDup (map fst d) ->
  copyNode filter src (Dir items) (Some (Dir d)) = Ok (Dir es) ->
  NoDup (map fst es).
Proof.
  intros Hnd H. simpl in H.
  apply bind_ok_inv in H. destruct H as (es' & Hes & H). inversion H. subst es'. clear H.
  revert d Hnd Hes. induction items as [|[name child] items IH]; intros acc Hnd Hes.
  - inversion Hes. subst. exact Hnd.
  - destruct (filter (src ++ [name])).
    + apply bind_ok_inv in Hes. destruct Hes as (n & _ & Hes).
      apply (IH _ (put_NoDup _ _ _ Hnd) Hes).
    + apply (IH _ Hnd Hes).
Qed.

Lemma ensureTemplateOnCreate_tidy e root d0 ex d1 :
  tidy d0 ->
  ensureTemplateOnCreate e root d0 ex = Ok d1 ->
  tidy d1.
Proof.
  intros [Hnd Has] H. destruct ex.
  { inversion H. subst. split; assumption. }
  split.
  - unfold ensureTemplateOnCreate in H.
    destruct (templates e !! root) as [t|]; [|discriminate].
    apply bind_ok_inv in H. destruct H as (r & Hr & H).
    unfold copy in Hr. destruct (clash _ _); [discriminate|].
    destruct (outsideAssets root).
    + apply bind_ok_inv in Hr. destruct Hr as (n & Hn & Hr). inversion Hr. subst r.
      destruct n as [c|es]; inversion H; subst; [exact Hnd|].
      destruct t as [c|items]; [simpl in Hn; discriminate|].
      apply (copyNode_NoDup _ _ _ _ _ Hnd Hn).
    + inversion Hr. subst r. inversion H. subst. exact Hnd.
  - intros es1 Hes1. apply noSources_names. intros name n Hn.
    pose proof (ensureTemplateOnCreate_inside_assets _ _ _ _ H ["assets"; name]) as Hat.
    assert (Hin : insideAssets ["assets"; name]) by (exists [], name, []; reflexivity).
    specialize (Hat Hin). simpl in Hat. rewrite Hes1, Hn in Hat.
    destruct (lookup "assets" d0) as [[c|es0]|] eqn:E0; try discriminate.
    destruct (lookup name es0) as [n0|] eqn:En0; [|discriminate].
    apply (proj1 (noSources_names es0) (Has es0 eq_refl) name n0 En0).
Qed.

Lemma ensureDir_assets (d d2 : entries) :
  tidy d ->
  ensureDir "assets" d = Ok d2 ->
  tidy d2 /\ ensureDir "assets" d2 = Ok d2
  /\ exists es, lookup "assets" d2 = Some (Dir es).
Proof.
  intros Ht. unfold ensureDir.
  destruct (lookup "assets" d) as [[c|es]|] eqn:E; try discriminate.
  - intros H. inversion H. subst d2. rewrite E. repeat split; eauto; apply Ht.
  - intros H. inversion H. subst d2. clear H. rewrite lookup_put_eq.
    destruct Ht as [Hnd Has].
    repeat split; eauto.
    + apply put_NoDup. exact Hnd.
    + intros es Hes. rewrite lookup_put_eq in Hes. inversion Hes. constructor.
Qed.

Lemma readAssets_names (d d' : entries) (es es' : entries) :
  lookup "assets" d = Some (Dir es) ->
  lookup "assets" d' = Some (Dir es') ->
  map fst es' = map fst es ->
  readAssets d' = readAssets d.
Proof. intros H H' Hn. unfold readAssets. rewrite H, H', Hn. reflexivity. Qed.

(** The folder [generate] leaves: tidy, with its marker if it had one, with
    the asset files it had, and with the state record just written. *)
Lemma generated_folder data (d2 d3 d4 : entries) (state : value) :
  tidy d2 ->
  (exists es, lookup "assets" d2 = Some (Dir es)) ->
  renderFromMustacheFiles d2 data true = Ok d3 ->
  writeGenState d3 state = Ok d4 ->
  tidy d4
  /\ ensureDir "assets" d4 = Ok d4
  /\ readAssets d4 = readAssets d2
  /\ readGenState d4 = jsonCopy state
  /\ (forall name, hasEntry name d2 = true -> hasEntry name d4 = true).
Proof.
  intros [Hnd Has] (es2 & Hes2) Hr Hw.
  destruct (render_keeps _ _ _ Hnd Hr) as (Hnd3 & Hdirs & Hmono & Hassets).
  destruct (Hassets es2 Hes2 (Has es2 Hes2)) as (x & Hx & Hnames).
  apply writeGenState_ok_inv in Hw. subst d4.
  assert (Hx4 : lookup "assets" (put ".gen-state.json" (File (Json (jsonCopy state))) d3)
                = Some (Dir x)).
  { rewrite lookup_put_ne by discriminate. exact Hx. }
  repeat split.
  - apply put_NoDup. exact Hnd3.
  - intros es Hes. rewrite Hx4 in Hes. inversion Hes. subst es.
    apply (noSources_same_names es2 x Hnames (Has es2 Hes2)).
  - unfold ensureDir. rewrite Hx4. reflexivity.
  - apply (readAssets_names _ _ _ _ Hes2 Hx4 Hnames).
  - unfold readGenState. rewrite lookup_put_eq. reflexivity.
  - intros name Hn. apply hasEntry_put_mono. auto.
Qed.

(** ** One step of an incremental run *)

Lemma shouldRender_incremental_false ex prev (assets : list (string * string)) fmt :
  shouldRenderBanner "incremental" ex prev
    (VArr (map (fun a => VStr (snd a)) assets)) (stableStringify fmt) = false ->
  ex = true /\ ~ staleState prev assets (stableStringify fmt).
Proof.
  intros H. destruct ex.
  - split; [reflexivity|]. intros Hs. apply shouldRender_incremental in Hs. congruence.
  - discriminate.
Qed.

(** In incremental mode a step that completes has found the template, leaves
    its folder up to date for its format, keeps the disk tidy and touches no
    other folder. *)
Lemma reconcile_incremental_ok e o cfg campaign zipRoot idx fmt t c w w' c' :
  mode o = "incremental" ->
  tidyDisk w ->
  reconcile e o cfg campaign zipRoot idx fmt t c w = (w', Ok c') ->
  resolves e o cfg fmt
  /\ upToDate w' (bannerFolder t) (stableStringify fmt)
  /\ tidyDisk w'
  /\ (forall f, f <> bannerFolder t -> banners w' !! f = banners w !! f).
Proof.
  intros Hmode Htidy H. unfold reconcile in H.
  rewrite (bindM_eval (folderEntries _) _ w w _ eq_refl) in H.
  rewrite (bindM_eval _ _ w w _ eq_refl) in H.
  rewrite Hmode in H. simpl in H.
  apply bindM_ok_inv in H. destruct H as ([ty root] & w1 & H1 & H).
  apply lift_ok_inv in H1. destruct H1 as [-> Htr].
  destruct (bool_decide (is_Some (templates e !! root))) eqn:Etpl; simpl in H;
    [|unfold throw in H; inversion H].
  apply bool_decide_eq_true in Etpl.
  set (d0 := default [] (banners w !! bannerFolder t)) in *.
  assert (Hd0 : tidy d0).
  { unfold d0. destruct (banners w !! bannerFolder t) as [d|] eqn:E; simpl.
    - apply (Htidy _ _ E).
    - apply tidy_nil. }
  apply bindM_ok_inv in H. destruct H as ([] & wa & Ha & H).
  rewrite setFolder_eval in Ha. inversion Ha. subst wa. clear Ha.
  apply bindM_ok_inv in H. destruct H as (d1 & w1 & H1 & H).
  apply lift_ok_inv in H1. destruct H1 as [-> Hd1].
  apply bindM_ok_inv in H. destruct H as ([] & wb & Hb & H).
  rewrite setFolder_eval in Hb. inversion Hb. subst wb. clear Hb. simpl in H.
  apply bindM_ok_inv in H. destruct H as (d2 & w1 & H1 & H).
  apply lift_ok_inv in H1. destruct H1 as [-> Hd2].
  apply bindM_ok_inv in H. destruct H as ([] & wc & Hc & H).
  rewrite setFolder_eval in Hc. inversion Hc. subst wc. clear Hc. simpl in H.
  apply bindM_ok_inv in H. destruct H as (assets & w1 & H1 & H).
  apply lift_ok_inv in H1. destruct H1 as [-> Hassets].
  pose proof (ensureTemplateOnCreate_tidy _ _ _ _ _ Hd0 Hd1) as Ht1.
  destruct (ensureDir_assets _ _ Ht1 Hd2) as (Ht2 & Hidem & Hes2).
  split; [exists ty, root; auto|].
  destruct (shouldRenderBanner "incremental" _ _ _ _) eqn:Edec; simpl in H.
  - (* rendered *)
    destruct (generate_ok_inv _ _ _ _ _ _ _ _ _ _ _ _ _ _ _ _ _ _ H)
      as (data & d3 & d4 & Hr & Hw & Hbanners & _).
    simpl in Hbanners.
    destruct (generated_folder _ _ _ _ _ Ht2 Hes2 Hr Hw)
      as (Ht4 & Hidem4 & Has4 & Hst4 & _).
    split; [|split].
    + exists d4, assets. rewrite Hbanners, lookup_insert_eq.
      split; [reflexivity|]. split; [exact Hidem4|].
      split; [rewrite Has4; exact Hassets|].
      rewrite Hst4. apply stateRecord_fresh.
    + intros f d Hf. rewrite Hbanners in Hf.
      destruct (decide (bannerFolder t = f)) as [<- | Hne].
      * rewrite lookup_insert_eq in Hf. inversion Hf. subst d. exact Ht4.
      * rewrite !lookup_insert_ne in Hf by exact Hne. apply (Htidy _ _ Hf).
    + intros f Hf. rewrite Hbanners. rewrite !lookup_insert_ne by congruence.
      reflexivity.
  - (* up to date already *)
    unfold ret in H. inversion H. subst w' c'. clear H. simpl.
    destruct (shouldRender_incremental_false _ _ _ _ Edec) as [_ Hfresh].
    split; [|split].
    + exists d2, assets. simpl. rewrite lookup_insert_eq. auto.
    + intros f d Hf. simpl in Hf.
      destruct (decide (bannerFolder t = f)) as [<- | Hne].
      * rewrite lookup_insert_eq in Hf. inversion Hf. subst d. exact Ht2.
      * rewrite !lookup_insert_ne in Hf by exact Hne. apply (Htidy _ _ Hf).
    + intros f Hf. rewrite !lookup_insert_ne by congruence. reflexivity.
Qed.

(** A folder that is up to date and has its marker is skipped, and the disk
    stays as it is. *)
Lemma reconcile_up_to_date e o cfg campaign zipRoot idx fmt t c w :
  mode o = "incremental" ->
  resolves e o cfg fmt ->
  upToDate w (bannerFolder t) (stableStringify fmt) ->
  bannerExists w (bannerFolder t) = true ->
  reconcile e o cfg campaign zipRoot idx fmt t c w = (w, Ok (bump c 0 0 0 1 0)).
Proof.
  intros Hmode (ty & root & Htr & Htpl) (d & assets & Hd & Hidem & Has & Hfresh) Hex.
  unfold reconcile.
  rewrite (bindM_eval (folderEntries _) _ w w (Some d))
    by (unfold folderEntries; rewrite Hd; reflexivity).
  rewrite (bindM_eval _ _ w w true) by (rewrite Hex; reflexivity).
  rewrite Hmode. simpl.
  rewrite (bindM_lift_ok _ _ _ _ Htr).
  rewrite (bool_decide_eq_true_2 _ Htpl). simpl.
  rewrite (bindM_eval _ _ _ _ _ (setFolder_same _ _ _ Hd)).
  rewrite (bindM_lift_ok (ensureTemplateOnCreate e root d true) _ _ d eq_refl).
  rewrite (bindM_eval _ _ _ _ _ (setFolder_same _ _ _ Hd)).
  rewrite (bindM_lift_ok _ _ _ _ Hidem).
  rewrite (bindM_eval _ _ _ _ _ (setFolder_same _ _ _ Hd)).
  rewrite (bindM_lift_ok _ _ _ _ Has).
  destruct (shouldRenderBanner "incremental" true _ _ _) eqn:Edec; [|reflexivity].
  apply shouldRender_incremental in Edec. contradiction.
Qed.

(** ** C2: a second incremental run *)

Lemma processFormat_locate e o cfg campaign outRoot zipRoot idx fmt c w :
  processFormat e o cfg campaign outRoot zipRoot idx fmt c w
  = match locate e o cfg outRoot idx fmt with
    | Err x => (w, Err x)
    | Ok None => (w, Ok (bump c 0 0 0 0 1))
    | Ok (Some t) => reconcile e o cfg campaign zipRoot idx fmt t c w
    end.
Proof.
  unfold processFormat, bindM, lift.
  destruct (locate e o cfg outRoot idx fmt) as [[t|]|x]; reflexivity.
Qed.

Lemma upToDate_frame (w w' : world) (folder : Path.path) (sig : value) :
  banners w' !! folder = banners w !! folder ->
  upToDate w folder sig -> upToDate w' folder sig.
Proof.
  intros Heq (d & assets & Hd & H). exists d, assets. rewrite Heq. auto.
Qed.

Lemma sharedFoldersAgree_tail e o cfg outRoot idx fmt rest :
  sharedFoldersAgree e o cfg outRoot idx (fmt :: rest) ->
  sharedFoldersAgree e o cfg outRoot (S idx) rest.
Proof.
  intros H i j fi fj ti tj Hi Hj Hli Hlj Hf.
  apply (H (S i) (S j) fi fj ti tj); try assumption.
  - replace (idx + S i)%nat with (S idx + i)%nat by lia. exact Hli.
  - replace (idx + S j)%nat with (S idx + j)%nat by lia. exact Hlj.
Qed.

(** The first run: when it completes, every format that passed the filters
    has its template and an up-to-date folder. *)
Lemma loop_first_run e o cfg campaign outRoot zipRoot :
  mode o = "incremental" ->
  forall formats idx c w w1 c1,
    tidyDisk w ->
    sharedFoldersAgree e o cfg outRoot idx formats ->
    loop e o cfg campaign outRoot zipRoot idx formats c w = (w1, Ok c1) ->
    tidyDisk w1
    /\ (forall i fi, formats !! i = Some fi ->
                     exists r, locate e o cfg outRoot (idx + i) fi = Ok r)
    /\ (forall i fi ti,
           formats !! i = Some fi ->
           locate e o cfg outRoot (idx + i) fi = Ok (Some ti) ->
           resolves e o cfg fi /\ upToDate w1 (bannerFolder ti) (stableStringify fi))
    /\ (forall folder sig,
           upToDate w folder sig ->
           (forall i fi ti,
               formats !! i = Some fi ->
               locate e o cfg outRoot (idx + i) fi = Ok (Some ti) ->
               bannerFolder ti = folder -> stableStringify fi = sig) ->
           upToDate w1 folder sig).
Proof.
  intros Hmode. induction formats as [|fmt rest IH]; intros idx c w w1 c1 Htidy Hagree H.
  - simpl in H. unfold ret in H. inversion H. subst.
    split; [exact Htidy|]. split; [|split].
    + intros i fi Hi. rewrite lookup_nil in Hi. discriminate.
    + intros i fi ti Hi. rewrite lookup_nil in Hi. discriminate.
    + intros folder sig Hw _. exact Hw.
  - simpl in H. apply bindM_ok_inv in H. destruct H as (c' & w' & Hstep & H).
    rewrite processFormat_locate in Hstep.
    pose proof (sharedFoldersAgree_tail _ _ _ _ _ _ _ Hagree) as Hagree'.
    destruct (locate e o cfg outRoot idx fmt) as [[t|]|x] eqn:Eloc.
    + (* the format passes the filters *)
      destruct (reconcile_incremental_ok _ _ _ _ _ _ _ _ _ _ _ _ Hmode Htidy Hstep)
        as (Hres & Hup & Htidy' & Hframe).
      destruct (IH _ _ _ _ _ Htidy' Hagree' H) as (Ht1 & Hloc & Hall & Hkeep).
      assert (Hshift : forall i, (idx + S i)%nat = (S idx + i)%nat) by (intros; lia).
      split; [exact Ht1|]. split; [|split].
      * intros [|i] fi Hi; simpl in Hi.
        -- inversion Hi. subst fi. rewrite Nat.add_0_r, Eloc. eauto.
        -- rewrite Hshift. apply (Hloc _ _ Hi).
      * intros [|i] fi ti Hi Hli; simpl in Hi.
        -- inversion Hi. subst fi. rewrite Nat.add_0_r, Eloc in Hli.
           inversion Hli. subst ti. split; [exact Hres|].
           apply (Hkeep _ _ Hup). intros j fj tj Hj Hlj Hfj.
           symmetry. apply (Hagree 0%nat (S j) fmt fj t tj); auto.
           ++ rewrite Nat.add_0_r. exact Eloc.
           ++ rewrite Hshift. exact Hlj.
        -- rewrite Hshift in Hli. apply (Hall _ _ _ Hi Hli).
      * intros folder sig Hw Hcompat. apply Hkeep.
        -- destruct (decide (folder = bannerFolder t)) as [-> | Hne].
           ++ rewrite <- (Hcompat 0%nat fmt t eq_refl); [exact Hup | | reflexivity].
              rewrite Nat.add_0_r. exact Eloc.
           ++ apply (upToDate_frame w); [apply Hframe; exact Hne | exact Hw].
        -- intros i fi ti Hi Hli. apply (Hcompat (S i) fi ti Hi).
           rewrite Hshift. exact Hli.
    + (* the filters reject the format *)
      inversion Hstep. subst w' c'. clear Hstep.
      destruct (IH _ _ _ _ _ Htidy Hagree' H) as (Ht1 & Hloc & Hall & Hkeep).
      assert (Hshift : forall i, (idx + S i)%nat = (S idx + i)%nat) by (intros; lia).
      split; [exact Ht1|]. split; [|split].
      * intros [|i] fi Hi; simpl in Hi.
        -- inversion Hi. subst fi. rewrite Nat.add_0_r, Eloc. eauto.
        -- rewrite Hshift. apply (Hloc _ _ Hi).
      * intros [|i] fi ti Hi Hli; simpl in Hi.
        -- inversion Hi. subst fi. rewrite Nat.add_0_r, Eloc in Hli. discriminate.
        -- rewrite Hshift in Hli. apply (Hall _ _ _ Hi Hli).
      * intros folder sig Hw Hcompat. apply Hkeep; [exact Hw|].
        intros i fi ti Hi Hli. apply (Hcompat (S i) fi ti Hi).
        rewrite Hshift. exact Hli.
    + inversion Hstep.
Qed.

(** The second run: every format that passes the filters is skipped, and the
    disk stays as it is. *)
Lemma loop_second_run e o cfg campaign outRoot zipRoot :
  mode o = "incremental" ->
  forall formats idx c w,
    (forall i fi, formats !! i = Some fi ->
                  exists r, locate e o cfg outRoot (idx + i) fi = Ok r) ->
    (forall i fi ti,
        formats !! i = Some fi ->
        locate e o cfg outRoot (idx + i) fi = Ok (Some ti) ->
        resolves e o cfg fi
        /\ upToDate w (bannerFolder ti) (stableStringify fi)
        /\ bannerExists w (bannerFolder ti) = true) ->
    loop e o cfg campaign outRoot zipRoot idx formats c w
    = (w, Ok (bump c 0 0 0 (surviving e o cfg outRoot idx formats)
                   (length formats - surviving e o cfg outRoot idx formats))).
Proof.
  intros Hmode. induction formats as [|fmt rest IH]; intros idx c w Hloc Hall.
  - simpl. unfold ret, bump. destruct c; simpl. rewrite !Nat.add_0_r. reflexivity.
  - assert (Hshift : forall i, (idx + S i)%nat = (S idx + i)%nat) by (intros; lia).
    assert (Hloc' : forall i fi, rest !! i = Some fi ->
                                 exists r, locate e o cfg outRoot (S idx + i) fi = Ok r).
    { intros i fi Hi. rewrite <- Hshift. apply (Hloc (S i) fi Hi). }
    assert (Hall' : forall i fi ti,
               rest !! i = Some fi ->
               locate e o cfg outRoot (S idx + i) fi = Ok (Some ti) ->
               resolves e o cfg fi
               /\ upToDate w (bannerFolder ti) (stableStringify fi)
               /\ bannerExists w (bannerFolder ti) = true).
    { intros i fi ti Hi Hli. apply (Hall (S i) fi ti Hi). rewrite Hshift. exact Hli. }
    assert (Hbound : (surviving e o cfg outRoot (S idx) rest <= length rest)%nat).
    { clear. generalize (S idx). induction rest as [|f r IHr]; intros n; simpl; [lia|].
      specialize (IHr (S n)).
      destruct (locate e o cfg outRoot n f) as [[?|]|?]; simpl; lia. }
    simpl loop. unfold bindM. rewrite processFormat_locate.
    destruct (Hloc 0%nat fmt eq_refl) as (r & Hr). rewrite Nat.add_0_r in Hr.
    simpl surviving. rewrite Hr. destruct r as [t|].
    + destruct (Hall 0%nat fmt t eq_refl) as (Hres & Hup & Hex).
      { rewrite Nat.add_0_r. exact Hr. }
      rewrite (reconcile_up_to_date _ _ _ _ _ _ _ _ _ _ Hmode Hres Hup Hex).
      rewrite (IH _ _ _ Hloc' Hall'). f_equal. f_equal.
      unfold bump. simpl. f_equal; lia.
    + rewrite (IH _ _ _ Hloc' Hall'). f_equal. f_equal.
      unfold bump. simpl. f_equal; lia.
Qed.

(** *** The same host *)

Lemma getTemplateRoot_host e e' fmt cfg tov :
  TEMPLATES_DIR e' = TEMPLATES_DIR e ->
  getTemplateRoot e' fmt cfg tov = getTemplateRoot e fmt cfg tov.
Proof. intros H. unfold getTemplateRoot. rewrite H. reflexivity. Qed.

Lemma locate_host e e' o cfg outRoot idx fmt :
  TEMPLATES_DIR e' = TEMPLATES_DIR e ->
  locate e' o cfg outRoot idx fmt = locate e o cfg outRoot idx fmt.
Proof.
  intros H. unfold locate, matchesFilters.
  rewrite (getTemplateRoot_host _ _ _ _ _ H). reflexivity.
Qed.

Lemma resolves_host e e' o cfg fmt :
  sameHost e e' -> resolves e o cfg fmt -> resolves e' o cfg fmt.
Proof.
  intros (_ & Hdir & Htpl) (ty & root & Htr & Hsome).
  exists ty, root. rewrite (getTemplateRoot_host _ _ _ _ _ Hdir), Htpl. auto.
Qed.

Lemma surviving_host e e' o cfg outRoot formats :
  TEMPLATES_DIR e' = TEMPLATES_DIR e ->
  forall idx, surviving e' o cfg outRoot idx formats = surviving e o cfg outRoot idx formats.
Proof.
  intros H. induction formats as [|f r IH]; intros idx; simpl; [reflexivity|].
  rewrite (locate_host _ _ _ _ _ _ _ H), IH. reflexivity.
Qed.

(** Two formats that share a folder and differ in their fingerprint are
    rendered again by every run: here the second run updates both. *)
Lemma second_run_renders_shared_folder :
  snd (generateFromFormatsJson Demo.host (Demo.run "incremental") Demo.campaign3
         Demo.emptyDisk)
  = Ok {| processed := 2; created := 1; updated := 1; skipped := 0; filteredOut := 0 |}
  /\ snd (generateFromFormatsJson Demo.host (Demo.run "incremental") Demo.campaign3
            (fst (generateFromFormatsJson Demo.host (Demo.run "incremental")
                    Demo.campaign3 Demo.emptyDisk)))
     = Ok {| processed := 2; created := 0; updated := 2; skipped := 0; filteredOut := 0 |}.
Proof. split; vm_compute; reflexivity. Qed.

Lemma run_inv e o cfg w w1 c1 :
  generateFromFormatsJson e o cfg w = (w1, Ok c1) ->
  exists formats cfgCampaign roots,
    readFormatsFromCfg cfg = Ok formats
    /\ get cfg "campaign" = Ok cfgCampaign
    /\ buildRoots e (coalesce (outDirOverride o) (VStr DEFAULT_OUT_DIR))
                  (coalesce (coalesce (campaignOverride o) cfgCampaign)
                            (VStr DEFAULT_CAMPAIGN)) = Ok roots
    /\ (length formats =? 0)%nat = false
    /\ loop e o cfg (coalesce (coalesce (campaignOverride o) cfgCampaign)
                              (VStr DEFAULT_CAMPAIGN))
            (fst roots) (snd roots) 0 formats noCounts w = (w1, Ok c1).
Proof.
  unfold generateFromFormatsJson. intros H.
  apply bindM_ok_inv in H. destruct H as (formats & w' & H1 & H).
  apply lift_ok_inv in H1. destruct H1 as [-> Hf].
  destruct (length formats =? 0)%nat eqn:El; [inversion H|].
  apply bindM_ok_inv in H. destruct H as (cc & w' & H1 & H).
  apply lift_ok_inv in H1. destruct H1 as [-> Hc].
  apply bindM_ok_inv in H. destruct H as (roots & w' & H1 & H).
  apply lift_ok_inv in H1. destruct H1 as [-> Hr].
  exists formats, cc, roots. auto.
Qed.

Lemma buildRoots_host e e' outDir campaign :
  cwd e' = cwd e -> buildRoots e' outDir campaign = buildRoots e outDir campaign.
Proof. intros H. unfold buildRoots. rewrite H. reflexivity. Qed.

(** C2, amended. Let a run in incremental mode complete on a disk where each
    folder lists each name once and holds no dynamic source directly in its
    assets directory, and let the folders of the run lie side by side: no
    folder of a format lies in another banner folder, in a template or in
    the archive directory, nor holds one of them. If the formats that share
    a folder have one fingerprint, and every format that passes the filters
    has its entry marker after the run, then a second incremental run over
    the same configuration, working directory and templates renders nothing
    and leaves the disk as it is: nothing is processed, created or updated,
    every format that passes the filters is counted as skipped and the
    others as filtered out. *)
Theorem incremental_idempotent e e' o cfg formats outRoot w0 w1 c1 :
  mode o = "incremental" ->
  sameHost e e' ->
  tidyDisk w0 ->
  readFormatsFromCfg cfg = Ok formats ->
  outRootOf e o cfg = Ok outRoot ->
  Props.sideBySide e o cfg outRoot 0 formats w0 ->
  sharedFoldersAgree e o cfg outRoot 0 formats ->
  generateFromFormatsJson e o cfg w0 = (w1, Ok c1) ->
  markersPresent e o cfg outRoot 0 formats w1 ->
  generateFromFormatsJson e' o cfg w1
  = (w1, Ok {| processed := 0; created := 0; updated := 0;
               skipped := surviving e o cfg outRoot 0 formats;
               filteredOut := length formats - surviving e o cfg outRoot 0 formats |}).
Proof.
  intros Hmode Hhost Htidy Hformats Hroot _ Hagree Hrun Hmarkers.
  destruct (run_inv _ _ _ _ _ _ Hrun) as (fs & cc & roots & Hf & Hc & Hr & Hlen & Hloop).
  rewrite Hformats in Hf. inversion Hf. subst fs. clear Hf.
  unfold outRootOf in Hroot. rewrite Hc in Hroot. simpl in Hroot.
  rewrite Hr in Hroot. simpl in Hroot. inversion Hroot. subst outRoot. clear Hroot.
  destruct (loop_first_run _ _ _ _ _ _ Hmode _ _ _ _ _ _ Htidy Hagree Hloop)
    as (_ & Hloc & Hall & _).
  destruct Hhost as (Hcwd & Hdir & Htpl).
  unfold generateFromFormatsJson.
  rewrite (bindM_lift_ok _ _ _ _ Hformats). rewrite Hlen.
  rewrite (bindM_lift_ok _ _ _ _ Hc).
  rewrite (buildRoots_host _ _ _ _ Hcwd).
  rewrite (bindM_lift_ok _ _ _ _ Hr).
  rewrite (loop_second_run e' o cfg _ (fst roots) (snd roots) Hmode formats 0%nat noCounts w1).
  - rewrite (surviving_host _ _ _ _ _ _ Hdir). reflexivity.
  - intros i fi Hi. rewrite (locate_host _ _ _ _ _ _ _ Hdir). apply (Hloc i fi Hi).
  - intros i fi ti Hi Hli. rewrite (locate_host _ _ _ _ _ _ _ Hdir) in Hli.
    destruct (Hall i fi ti Hi Hli) as [Hres Hup].
    split; [apply (resolves_host e e'); [repeat split; assumption | exact Hres]|].
    split; [exact Hup|]. apply (Hmarkers i fi ti Hi Hli).
Qed.

Lemma incremental_idempotent_witness :
  generateFromFormatsJson Demo.laterHost (Demo.run "incremental") Demo.campaign1
                          Demo.afterRun1
  = (Demo.afterRun1,
     Ok {| processed := 0; created := 0; updated := 0; skipped := 1; filteredOut := 0 |}).
Proof.
  apply (incremental_idempotent Demo.host Demo.laterHost (Demo.run "incremental")
           Demo.campaign1 [Demo.banner300] ["work"; "src"; "c"] Demo.emptyDisk
           Demo.afterRun1 (bump noCounts 1 1 0 0 0)).
  - reflexivity.
  - repeat split.
  - intros folder d H. simpl in H. rewrite lookup_empty in H. discriminate.
  - reflexivity.
  - vm_compute. reflexivity.
  - intros [|i] fi ti Hi Hli; simpl in Hi; [|discriminate].
    inversion Hi. subst fi. vm_compute in Hli. inversion Hli. subst ti. clear Hli Hi.
    split; [|split; [|split]].
    + intros k [x Hk]. simpl in Hk. rewrite lookup_empty in Hk. discriminate.
    + intros [|j] fj tj Hj Hlj; simpl in Hj; [|discriminate].
      inversion Hj. subst fj. vm_compute in Hlj. inversion Hlj. left. reflexivity.
    + intros k [x Hk]. simpl in Hk. apply lookup_singleton_Some in Hk.
      destruct Hk as [<- _]. split; apply (bool_decide_unpack _); vm_compute; exact I.
    + intros _. split; apply (bool_decide_unpack _); vm_compute; exact I.
  - intros [|i] [|j] fi fj ti tj Hi Hj; simpl in Hi, Hj; try discriminate.
    inversion Hi. inversion Hj. reflexivity.
  - vm_compute. reflexivity.
  - intros [|i] fi ti Hi Hli; simpl in Hi; [|discriminate].
    inversion Hi. subst fi. vm_compute in Hli. inversion Hli. subst ti.
    vm_compute. reflexivity.
Defined.

(** ** A state record that cannot be read *)

Lemma unreadable_null (d : entries) : unreadableState d -> readGenState d = VNull.
Proof.
  unfold unreadableState, readGenState.
  destruct (lookup ".gen-state.json" d) as [[[s|v|tpl view]|sub]|]; simpl; tauto.
Qed.

Lemma unreadable_no_dir (d : entries) : unreadableState d -> ~ dirAt ".gen-state.json" d.
Proof.
  unfold unreadableState, dirAt. intros H (sub & Hsub). rewrite Hsub in H. exact H.
Qed.

Lemma writeGenState_over_file (d : entries) (state : value) :
  serialize state <> None ->
  ~ dirAt ".gen-state.json" d ->
  writeGenState d state = Ok (put ".gen-state.json" (File (Json (jsonCopy state))) d).
Proof.
  intros Hs H. unfold writeGenState, writeJson, writeFile.
  destruct (serialize state); [|contradiction]. simpl.
  destruct (lookup ".gen-state.json" d) as [[c|sub]|] eqn:E; try reflexivity.
  exfalso. apply H. exists sub. exact E.
Qed.

Lemma dirAt_ensureDir (name : string) (d d2 : entries) :
  name <> "assets" -> ensureDir "assets" d = Ok d2 -> dirAt name d2 -> dirAt name d.
Proof.
  intros Hne. unfold ensureDir.
  destruct (lookup "assets" d) as [[c|es]|]; try discriminate.
  - intros H. inversion H. auto.
  - intros H. inversion H. subst d2. unfold dirAt.
    rewrite lookup_put_ne by congruence. auto.
Qed.


(** ** The command line *)

Import Args Props.

Lemma indexOf_app (flag : string) (pre r : list string) :
  ~ In flag pre -> indexOf flag (pre ++ flag :: r) = Some (length pre).
Proof.
  induction pre as [|a pre IH]; simpl; intros Hn.
  - rewrite String.eqb_refl. reflexivity.
  - destruct (String.eqb_spec a flag) as [->|_]; [destruct Hn; auto|].
    rewrite IH by tauto. reflexivity.
Qed.

Lemma indexOf_none (flag : string) (args : list string) :
  ~ In flag args -> indexOf flag args = None.
Proof.
  induction args as [|a r IH]; simpl; intros Hn; [reflexivity|].
  destruct (String.eqb_spec a flag) as [->|_]; [destruct Hn; auto|].
  rewrite IH by tauto. reflexivity.
Qed.

Lemma getArgValue_after (pre post : list string) (flag v : string) :
  ~ In flag pre -> getArgValue (pre ++ flag :: v :: post) flag = VStr v.
Proof.
  intros Hn. unfold getArgValue. rewrite indexOf_app by exact Hn.
  replace (S (length pre)) with (length pre + 1)%nat by lia.
  rewrite nth_error_app2 by lia.
  replace (length pre + 1 - length pre)%nat with 1%nat by lia. reflexivity.
Qed.

(** X1. [getArgValue] answers with the argument after the first occurrence of
    the flag, whatever that argument is; a flag that is absent, or that
    comes last, gives null. *)
Theorem getArgValue_first (pre post : list string) (flag v : string) :
  ~ In flag pre ->
  getArgValue (pre ++ flag :: v :: post) flag = VStr v
  /\ getArgValue (pre ++ [flag]) flag = VNull
  /\ getArgValue pre flag = VNull.
Proof.
  intros Hn. split; [apply getArgValue_after, Hn|].
  unfold getArgValue. split.
  - rewrite indexOf_app by exact Hn.
    rewrite (proj2 (nth_error_None _ _)); [reflexivity|].
    rewrite length_app. simpl. lia.
  - rewrite indexOf_none by exact Hn. reflexivity.
Qed.

Lemma getArgValue_first_witness :
  getArgValue ["--zip"; "--outDir"; "--update"; "--outDir"; "b"] "--outDir"
  = VStr "--update".
Proof.
  assert (H : ~ In "--outDir" ["--zip"]) by (simpl; intros [H|[]]; discriminate).
  exact (proj1 (getArgValue_first ["--zip"] ["--outDir"; "b"] "--outDir" "--update" H)).
Defined.

Lemma stripKnownFlags_ind (P : list string -> Prop) :
  P [] ->
  (forall a, P [a]) ->
  (forall a b r, P r -> P (b :: r) -> P (a :: b :: r)) ->
  forall l, P l.
Proof.
  intros H0 H1 H2.
  assert (H : forall l, P l /\ forall a, P (a :: l)).
  { induction l as [|b r [IHr IHbr]]; split; auto. }
  intros l. apply H.
Qed.

Lemma stripKnownFlags_members (args : list string) :
  forall a, In a (stripKnownFlags args) ->
            In a args /\ hasStr flagsNoValue a = false
            /\ hasStr flagsWithValue a = false.
Proof.
  pattern args. apply stripKnownFlags_ind; clear args;
    [| intros x | intros x y r IHr IHyr]; intros a.
  - intros [].
  - change (stripKnownFlags [x])
      with (if hasStr flagsNoValue x then []
            else if hasStr flagsWithValue x then [] else [x]).
    destruct (hasStr flagsNoValue x) eqn:E1; [intros []|].
    destruct (hasStr flagsWithValue x) eqn:E2; [intros []|].
    intros [<-|[]]. auto with datatypes.
  - change (stripKnownFlags (x :: y :: r))
      with (if hasStr flagsNoValue x then stripKnownFlags (y :: r)
            else if hasStr flagsWithValue x then stripKnownFlags r
            else x :: stripKnownFlags (y :: r)).
    destruct (hasStr flagsNoValue x) eqn:E1.
    { intros H. destruct (IHyr a H) as (? & ? & ?). auto with datatypes. }
    destruct (hasStr flagsWithValue x) eqn:E2.
    { intros H. destruct (IHr a H) as (? & ? & ?).
      repeat split; auto. right. right. assumption. }
    intros [<-|H]; [auto with datatypes|].
    destruct (IHyr a H) as (? & ? & ?). auto with datatypes.
Qed.

Lemma stripKnownFlags_sublist (args : list string) :
  sublist (stripKnownFlags args) args.
Proof.
  pattern args. apply stripKnownFlags_ind; clear args;
    [| intros x | intros x y r IHr IHyr].
  - constructor.
  - change (stripKnownFlags [x])
      with (if hasStr flagsNoValue x then []
            else if hasStr flagsWithValue x then [] else [x]).
    destruct (hasStr flagsNoValue x); [apply sublist_nil_l|].
    destruct (hasStr flagsWithValue x); [apply sublist_nil_l|].
    reflexivity.
  - change (stripKnownFlags (x :: y :: r))
      with (if hasStr flagsNoValue x then stripKnownFlags (y :: r)
            else if hasStr flagsWithValue x then stripKnownFlags r
            else x :: stripKnownFlags (y :: r)).
    destruct (hasStr flagsNoValue x).
    { apply sublist_cons. exact IHyr. }
    destruct (hasStr flagsWithValue x).
    { apply sublist_cons, sublist_cons. exact IHr. }
    apply sublist_skip. exact IHyr.
Qed.

Lemma stripKnownFlags_plain (args : list string) :
  (forall a, In a args ->
             hasStr flagsNoValue a = false /\ hasStr flagsWithValue a = false) ->
  stripKnownFlags args = args.
Proof.
  induction args as [|x r IH]; intros H; [reflexivity|].
  destruct (H x (or_introl eq_refl)) as [E1 E2].
  change (stripKnownFlags (x :: r))
    with (if hasStr flagsNoValue x then stripKnownFlags r
          else if hasStr flagsWithValue x then
                 match r with [] => [] | _ :: r' => stripKnownFlags r' end
          else x :: stripKnownFlags r).
  rewrite E1, E2.
  rewrite IH; [reflexivity|]. intros a Ha. apply H. right. exact Ha.
Qed.

(** X2. [stripKnownFlags] keeps arguments of the command line in their order,
    keeps no known flag, and leaves alone a list without known flags: so
    stripping twice is stripping once. *)
Theorem stripKnownFlags_free (args : list string) :
  sublist (stripKnownFlags args) args
  /\ (forall a, In a (stripKnownFlags args) ->
                hasStr flagsNoValue a = false /\ hasStr flagsWithValue a = false)
  /\ stripKnownFlags (stripKnownFlags args) = stripKnownFlags args.
Proof.
  split; [apply stripKnownFlags_sublist|]. split.
  - intros a Ha. apply (stripKnownFlags_members args a Ha).
  - apply stripKnownFlags_plain. intros a Ha.
    apply (stripKnownFlags_members args a Ha).
Qed.

(** *** Comma-separated sets *)

Lemma hasStr_In (l : list string) (x : string) : hasStr l x = true <-> In x l.
Proof.
  unfold hasStr. rewrite existsb_exists. split.
  - intros (y & Hy & E). apply String.eqb_eq in E. subst. exact Hy.
  - intros H. exists x. split; [exact H | apply String.eqb_refl].
Qed.

Lemma setOf_acc_In (l acc : list string) (x : string) :
  In x (fold_left (fun acc x => if hasStr acc x then acc else acc ++ [x]) l acc)
  <-> In x acc \/ In x l.
Proof.
  revert acc. induction l as [|y l IH]; intros acc; simpl; [tauto|].
  rewrite IH. destruct (hasStr acc y) eqn:E.
  - apply hasStr_In in E. split; [tauto|]. intros [H|[<-|H]]; auto.
  - rewrite in_app_iff. simpl. tauto.
Qed.

Lemma setOf_acc_NoDup (l acc : list string) :
  NoDup acc ->
  NoDup (fold_left (fun acc x => if hasStr acc x then acc else acc ++ [x]) l acc).
Proof.
  revert acc. induction l as [|y l IH]; intros acc Hnd; simpl; [exact Hnd|].
  apply IH. destruct (hasStr acc y) eqn:E; [exact Hnd|].
  apply NoDup_app. repeat split; [exact Hnd | | apply NoDup_singleton].
  intros x Hx Hy. apply list_elem_of_In in Hx, Hy. destruct Hy as [<-|[]].
  apply hasStr_In in Hx. congruence.
Qed.

Lemma setOf_acc_id (l acc : list string) :
  NoDup (acc ++ l) ->
  fold_left (fun acc x => if hasStr acc x then acc else acc ++ [x]) l acc = acc ++ l.
Proof.
  revert acc. induction l as [|y l IH]; intros acc Hnd; simpl.
  - rewrite app_nil_r. reflexivity.
  - destruct (hasStr acc y) eqn:E.
    + apply hasStr_In in E. apply NoDup_app in Hnd. destruct Hnd as (_ & Hd & _).
      exfalso. apply (Hd y); apply list_elem_of_In; [exact E | left; reflexivity].
    + rewrite IH; rewrite <- app_assoc; [reflexivity | exact Hnd].
Qed.

Lemma setOf_spec (l : list string) :
  NoDup (setOf l) /\ (forall x, In x (setOf l) <-> In x l)
  /\ (NoDup l -> setOf l = l).
Proof.
  unfold setOf. repeat split.
  - apply setOf_acc_NoDup. constructor.
  - intros H. apply setOf_acc_In in H. destruct H as [[]|H]. exact H.
  - intros H. apply setOf_acc_In. right. exact H.
  - intros H. apply (setOf_acc_id l []). exact H.
Qed.

Lemma nonEmpty_In (l : list string) (x : string) :
  In x (nonEmpty l) <-> In x l /\ x <> "".
Proof.
  unfold nonEmpty. rewrite <- !list_elem_of_In, list_elem_of_filter. tauto.
Qed.

Lemma allOf_dropWhile (q p : ascii -> bool) (s : string) :
  allOf q s = true -> allOf q (Str.dropWhile p s) = true.
Proof.
  induction s as [|c s IH]; simpl; [auto|]. intros H.
  destruct (p c); [|exact H]. apply andb_true_iff in H. apply IH, H.
Qed.

Lemma allOf_dropWhileEnd (q p : ascii -> bool) (s : string) :
  allOf q s = true -> allOf q (Str.dropWhileEnd p s) = true.
Proof.
  induction s as [|c s IH]; simpl; [auto|]. intros H.
  apply andb_true_iff in H. destruct H as [Hc Hs]. specialize (IH Hs).
  destruct (Str.dropWhileEnd p s) as [|x d].
  - destruct (p c); simpl; [reflexivity | rewrite Hc; reflexivity].
  - simpl in *. rewrite Hc. exact IH.
Qed.

Lemma dropWhile_head (p : ascii -> bool) (s : string) :
  match Str.dropWhile p s with String c _ => p c = false | EmptyString => True end.
Proof.
  induction s as [|c s IH]; simpl; [exact I|].
  destruct (p c) eqn:E; [exact IH | exact E].
Qed.

Lemma dropWhile_fixed (p : ascii -> bool) (s : string) :
  match s with String c _ => p c = false | EmptyString => True end ->
  Str.dropWhile p s = s.
Proof. destruct s as [|c s]; simpl; [reflexivity|]. intros ->. reflexivity. Qed.

Lemma dropWhileEnd_idem (p : ascii -> bool) (s : string) :
  Str.dropWhileEnd p (Str.dropWhileEnd p s) = Str.dropWhileEnd p s.
Proof.
  induction s as [|c s IH]; simpl; [reflexivity|].
  destruct (Str.dropWhileEnd p s) as [|x d] eqn:E.
  - destruct (p c) eqn:Ec; simpl; [reflexivity | rewrite Ec; reflexivity].
  - simpl in IH |- *. rewrite IH. reflexivity.
Qed.

Lemma dropWhileEnd_head (p : ascii -> bool) (s : string) :
  match s with String c _ => p c = false | EmptyString => True end ->
  match Str.dropWhileEnd p s with
  | String c _ => p c = false
  | EmptyString => True
  end.
Proof.
  destruct s as [|c s]; simpl; [auto|]. intros Hc.
  destruct (Str.dropWhileEnd p s); [rewrite Hc|]; exact Hc.
Qed.

Lemma trim_idem (s : string) : Str.trim (Str.trim s) = Str.trim s.
Proof.
  unfold Str.trim, Str.trimStart, Str.trimEnd.
  rewrite (dropWhile_fixed Str.isSpace (Str.dropWhileEnd Str.isSpace _)).
  - apply dropWhileEnd_idem.
  - apply dropWhileEnd_head, dropWhile_head.
Qed.

Lemma allOf_trim (q : ascii -> bool) (s : string) :
  allOf q s = true -> allOf q (Str.trim s) = true.
Proof. intros H. apply allOf_dropWhileEnd, allOf_dropWhile, H. Qed.

Lemma split_pieces (c : ascii) (s x : string) :
  In x (Str.split c s) -> allOf (notUnit c) x = true.
Proof.
  revert x. induction s as [|a s IH]; simpl; intros x.
  - intros [<-|[]]. reflexivity.
  - destruct (Ascii.eqb a c) eqn:E.
    + intros [<-|H]; [reflexivity | apply IH, H].
    + destruct (Str.split c s) as [|y ys].
      * intros [<-|[]]. simpl. unfold notUnit at 1. rewrite E. reflexivity.
      * intros [<-|H].
        -- simpl. unfold notUnit at 1. rewrite E. apply IH. left. reflexivity.
        -- apply IH. right. exact H.
Qed.

Lemma split_free (c : ascii) (x : string) :
  allOf (notUnit c) x = true -> Str.split c x = [x].
Proof.
  induction x as [|a x IH]; simpl; [reflexivity|]. intros H.
  apply andb_true_iff in H. destruct H as [Ha Hx].
  unfold notUnit in Ha. apply negb_true_iff in Ha. rewrite Ha, (IH Hx). reflexivity.
Qed.

Lemma split_app (c : ascii) (x r : string) :
  allOf (notUnit c) x = true ->
  Str.split c (x +:+ String c r) = x :: Str.split c r.
Proof.
  induction x as [|a x IH]; simpl; intros H.
  - rewrite Ascii.eqb_refl. reflexivity.
  - apply andb_true_iff in H. destruct H as [Ha Hx].
    unfold notUnit in Ha. apply negb_true_iff in Ha. rewrite Ha, (IH Hx). reflexivity.
Qed.

Lemma split_join (c : ascii) (l : list string) :
  l <> [] -> (forall x, In x l -> allOf (notUnit c) x = true) ->
  Str.split c (Str.join (String c "") l) = l.
Proof.
  induction l as [|x l IH]; intros Hne H; [congruence|].
  destruct l as [|y l].
  - simpl. apply split_free, H. left. reflexivity.
  - change (Str.join (String c "") (x :: y :: l))
      with (x +:+ String c "" +:+ Str.join (String c "") (y :: l)).
    change (String c "" +:+ Str.join (String c "") (y :: l))
      with (String c (Str.join (String c "") (y :: l))).
    rewrite split_app by (apply H; left; reflexivity).
    rewrite IH; [reflexivity | discriminate |].
    intros z Hz. apply H. right. exact Hz.
Qed.

(** X3. The members of a set read by [parseCsvSet]: at least one, no member
    twice, none empty, none with white space around it or a comma in it. *)
Theorem parseCsvSet_members (v : value) (l : list string) :
  parseCsvSet v = Ok (Some l) ->
  l <> [] /\ NoDup l /\ forall x, In x l -> plainItem x.
Proof.
  unfold parseCsvSet. destruct (truthy v); simpl; [|discriminate].
  destruct (ToString v) as [s|e]; simpl; [|discriminate].
  destruct (nonEmpty (map Str.trim (Str.split "," s))) as [|p ps] eqn:E;
    [discriminate|].
  intros H. inversion H. subst l. clear H.
  destruct (setOf_spec (p :: ps)) as (Hnd & Hin & _).
  repeat split.
  - intros H0. assert (Hp : In p (setOf (p :: ps))) by (apply Hin; left; reflexivity).
    rewrite H0 in Hp. destruct Hp.
  - exact Hnd.
  - apply Hin in H. rewrite <- E in H. apply nonEmpty_In in H. tauto.
  - apply Hin in H. rewrite <- E in H. apply nonEmpty_In in H.
    destruct H as [H _]. apply in_map_iff in H. destruct H as (y & <- & _).
    apply trim_idem.
  - apply Hin in H. rewrite <- E in H. apply nonEmpty_In in H.
    destruct H as [H _]. apply in_map_iff in H. destruct H as (y & <- & Hy).
    apply allOf_trim. apply (split_pieces _ _ _ Hy).
Qed.

Lemma parseCsvSet_members_witness :
  ["a"; "b c"] <> [] /\ NoDup ["a"; "b c"] /\ forall x, In x ["a"; "b c"] -> plainItem x.
Proof.
  apply (parseCsvSet_members (VStr " a , b c,,a, ")). reflexivity.
Defined.

Lemma join_nonempty (sep : string) (l : list string) :
  l <> [] -> (forall x, In x l -> x <> "") -> Str.join sep l <> "".
Proof.
  destruct l as [|x l]; [congruence|]. intros _ H.
  assert (Hx : x <> "") by (apply H; left; reflexivity).
  destruct x as [|a x]; [congruence|].
  destruct l; simpl; discriminate.
Qed.

(** X4. Round trip: a list of distinct plain items, joined by commas, is read
    back as itself. *)
Theorem parseCsvSet_join (l : list string) :
  l <> [] -> NoDup l -> (forall x, In x l -> plainItem x) ->
  parseCsvSet (VStr (Str.join "," l)) = Ok (Some l).
Proof.
  intros Hne Hnd Hp. unfold parseCsvSet.
  assert (Hj : Str.join "," l <> "")
    by (apply join_nonempty; [exact Hne | intros x Hx; apply (Hp x Hx)]).
  simpl truthy. apply String.eqb_neq in Hj. rewrite Hj. simpl.
  rewrite (split_join ","%char) by (auto; intros x Hx; apply (Hp x Hx)).
  assert (Hm : map Str.trim l = l).
  { clear Hne Hnd Hj. induction l as [|x l IH]; [reflexivity|]. simpl.
    rewrite (proj1 (proj2 (Hp x (or_introl eq_refl)))).
    rewrite IH; [reflexivity|]. intros y Hy. apply Hp. right. exact Hy. }
  rewrite Hm.
  assert (Hf : nonEmpty l = l).
  { clear Hne Hnd Hj Hm. unfold nonEmpty. induction l as [|x l IH]; [reflexivity|].
    rewrite filter_cons. destruct (decide (x <> "")) as [_|Hx].
    - rewrite IH; [reflexivity|]. intros y Hy. apply Hp. right. exact Hy.
    - destruct Hx. apply (Hp x). left. reflexivity. }
  rewrite Hf. destruct l as [|x r]; [congruence|].
  rewrite (proj2 (proj2 (setOf_spec (x :: r))) Hnd). reflexivity.
Qed.

Lemma parseCsvSet_join_witness :
  parseCsvSet (VStr "en,de ch") = Ok (Some ["en"; "de ch"]).
Proof.
  apply (parseCsvSet_join ["en"; "de ch"]).
  - discriminate.
  - apply (bool_decide_unpack _). vm_compute. exact I.
  - intros x [<-|[<-|[]]]; repeat split; discriminate.
Defined.

(** *** Index sets and size lists *)

Lemma setOfNum_acc_In (l acc : list number) (x : number) :
  In x (fold_left
          (fun acc x =>
             let x' := match x with S754_zero _ => S754_zero false | _ => x end in
             if hasNum acc x' then acc else acc ++ [x'])
          l acc) ->
  In x acc
  \/ exists y, In y l /\ x = match y with S754_zero _ => S754_zero false | _ => y end.
Proof.
  revert acc. induction l as [|y l IH]; intros acc; simpl; [auto|].
  intros H. apply IH in H. destruct H as [H|(z & Hz & ->)].
  - destruct (hasNum acc _); [auto|].
    apply in_app_iff in H. destruct H as [H|[<-|[]]]; [auto|].
    right. exists y. auto.
  - right. exists z. auto.
Qed.

Lemma setOfNum_acc_grows (l acc : list number) :
  acc <> [] ->
  fold_left
    (fun acc x =>
       let x' := match x with S754_zero _ => S754_zero false | _ => x end in
       if hasNum acc x' then acc else acc ++ [x'])
    l acc <> [].
Proof.
  revert acc. induction l as [|y l IH]; intros acc Hne; simpl; [exact Hne|].
  apply IH. destruct (hasNum acc _); [exact Hne|].
  destruct acc; discriminate.
Qed.

(** X5. The members of a set read by [parseIndexSet]: at least one, each a
    finite number that is not negative, zero kept as [+0]. What is not a
    number, or is negative or infinite, is left out. *)
Theorem parseIndexSet_members (v : value) (l : list number) :
  parseIndexSet v = Ok (Some l) ->
  l <> []
  /\ forall n, In n l ->
               Num.isFinite n = true /\ Num.leb (S754_zero false) n = true
               /\ n <> S754_zero true.
Proof.
  unfold parseIndexSet. destruct (truthy v); simpl; [|discriminate].
  destruct (ToString v) as [s|e]; simpl; [|discriminate].
  match goal with |- context [filter ?f ?xs] => set (kept := filter f xs) end.
  assert (Hk : forall n, In n kept ->
                         Num.isFinite n = true /\ Num.leb (S754_zero false) n = true).
  { intros n Hn. apply list_elem_of_In, list_elem_of_filter in Hn.
    destruct Hn as [Hn _]. apply andb_true_iff in Hn. exact Hn. }
  destruct kept as [|p ps]; [discriminate|].
  intros H. inversion H. subst l. clear H. split.
  - unfold setOfNum. simpl fold_left. apply setOfNum_acc_grows. discriminate.
  - intros n Hn. unfold setOfNum in Hn. apply setOfNum_acc_In in Hn.
    destruct Hn as [[]|(y & Hy & ->)].
    destruct (Hk y Hy) as [Hf Hl].
    destruct y; try discriminate; repeat split; auto; discriminate.
Qed.

Lemma parseIndexSet_members_witness :
  [Num.of_Z 0; Num.of_Z 2] <> []
  /\ forall n, In n [Num.of_Z 0; Num.of_Z 2] ->
               Num.isFinite n = true /\ Num.leb (S754_zero false) n = true
               /\ n <> S754_zero true.
Proof.
  apply (parseIndexSet_members (VStr "-0, 2, -1, x, Infinity, 2")).
  vm_compute. reflexivity.
Defined.

Lemma allOf_app (p : ascii -> bool) (a b : string) :
  allOf p (a +:+ b) = allOf p a && allOf p b.
Proof.
  induction a as [|c a IH]; simpl; [reflexivity|].
  rewrite IH. apply andb_assoc.
Qed.

Lemma allOf_impl (p q : ascii -> bool) (s : string) :
  (forall c, p c = true -> q c = true) -> allOf p s = true -> allOf q s = true.
Proof.
  intros Hpq. induction s as [|c s IH]; simpl; [auto|]. intros H.
  apply andb_true_iff in H. destruct H as [Hc Hs].
  rewrite (Hpq c Hc), (IH Hs). reflexivity.
Qed.

(** The code units a size is written with. *)
Lemma size_unit_classes (c : ascii) :
  (Str.isDigit c = true -> Str.isSpace c = false /\ isListSeparator c = false)
  /\ (Str.lower c = "x"%char ->
      Str.isDigit c = false /\ Str.isSpace c = false /\ isListSeparator c = false).
Proof.
  destruct c as [[] [] [] [] [] [] [] []]; vm_compute;
    repeat split; intros; congruence.
Qed.

Lemma splitRuns_free (p : ascii -> bool) (s : string) :
  allOf (fun c => negb (p c)) s = true -> splitRuns p false s = [s].
Proof.
  induction s as [|c s IH]; simpl; [reflexivity|]. intros H.
  apply andb_true_iff in H. destruct H as [Hc Hs].
  apply negb_true_iff in Hc. rewrite Hc, (IH Hs). reflexivity.
Qed.

Lemma dropWhileEnd_free (p : ascii -> bool) (s : string) :
  allOf (fun c => negb (p c)) s = true -> Str.dropWhileEnd p s = s.
Proof.
  induction s as [|c s IH]; simpl; [reflexivity|]. intros H.
  apply andb_true_iff in H. destruct H as [Hc Hs].
  apply negb_true_iff in Hc. rewrite (IH Hs), Hc.
  destruct s; reflexivity.
Qed.

Lemma trim_free (s : string) :
  allOf (fun c => negb (Str.isSpace c)) s = true -> Str.trim s = s.
Proof.
  intros H. unfold Str.trim, Str.trimStart, Str.trimEnd.
  rewrite (dropWhile_fixed Str.isSpace s).
  - apply dropWhileEnd_free, H.
  - destruct s as [|c s]; [exact I|]. simpl in H.
    apply andb_true_iff in H. destruct H as [Hc _]. apply negb_true_iff, Hc.
Qed.

Lemma digits_head (a : string) :
  digits a -> exists c r, a = String c r /\ Str.isDigit c = true.
Proof.
  intros [Hne Ha]. destruct a as [|c r]; [congruence|].
  simpl in Ha. apply andb_true_iff in Ha. exists c, r. tauto.
Qed.

(** The pattern of a size finds the two numbers of [a x b]. *)
Lemma matchSize_written (a b : string) (x : ascii) :
  digits a -> digits b -> Str.lower x = "x"%char ->
  matchSize (a +:+ String x b) = Some (a, b).
Proof.
  intros Ha Hb Hx. unfold matchSize.
  destruct (proj2 (size_unit_classes x) Hx) as (Hxd & Hxs & _).
  rewrite (span_app Str.isDigit a (String x b) (proj2 Ha) Hxd).
  rewrite (proj2 (eqb_empty a) (proj1 Ha)).
  unfold Str.trimStart. simpl Str.dropWhile. rewrite Hxs, Hx. simpl Ascii.eqb.
  destruct (digits_head b Hb) as (c & r & -> & Hc).
  rewrite (dropWhile_fixed Str.isSpace (String c r))
    by (apply (proj1 (size_unit_classes c) Hc)).
  pose proof (span_app Str.isDigit (String c r) "" (proj2 Hb) I) as Hs.
  rewrite app_nil_r_str in Hs. rewrite Hs. reflexivity.
Qed.

Lemma matchSize_digits (s a b : string) :
  matchSize s = Some (a, b) -> digits a /\ digits b.
Proof.
  unfold matchSize.
  destruct (Str.span Str.isDigit s) as [a' r1] eqn:E1.
  destruct (a' =? "")%string eqn:Ea; [discriminate|].
  destruct (Str.trimStart r1) as [|c r2]; [discriminate|].
  destruct (Ascii.eqb (Str.lower c) "x"); [|discriminate].
  destruct (Str.span Str.isDigit (Str.trimStart r2)) as [b' r3] eqn:E2.
  destruct (b' =? "")%string eqn:Eb; [discriminate|].
  destruct (r3 =? "")%string; [|discriminate].
  intros H. inversion H. subst a' b'.
  apply span_spec in E1, E2. apply eqb_empty in Ea, Eb.
  unfold digits. tauto.
Qed.

(** X6. A size written [a x b] on the command line, in either case of the
    [x], selects exactly the size that [normalizeSize] computes for a format
    with the width [a] and the height [b], given as strings or as numbers. *)
Theorem parseSizeList_normalizeSize (a b : string) (x : ascii) :
  digits a -> digits b -> Str.lower x = "x"%char ->
  Num.isFinite (StringToNumber a) = true ->
  Num.isFinite (StringToNumber b) = true ->
  exists size,
    normalizeSize (VStr a) (VStr b) = Ok size
    /\ normalizeSize (VNum (StringToNumber a)) (VNum (StringToNumber b)) = Ok size
    /\ parseSizeList (VStr (a +:+ String x b)) = Ok (Some [size]).
Proof.
  intros Ha Hb Hx Hfa Hfb.
  exists (Num.toString (StringToNumber a) +:+ "x" +:+ Num.toString (StringToNumber b)).
  unfold normalizeSize. simpl ToNumber. simpl bind. rewrite Hfa, Hfb. simpl.
  repeat split.
  assert (Hfree : allOf (fun c => negb (isListSeparator c)) (a +:+ String x b) = true).
  { rewrite allOf_app. simpl.
    rewrite (proj2 (proj2 (proj2 (size_unit_classes x) Hx))). simpl.
    apply andb_true_iff. split;
      [apply (allOf_impl Str.isDigit _ a); [|apply Ha]
      |apply (allOf_impl Str.isDigit _ b); [|apply Hb]];
      intros c Hc; rewrite (proj2 (proj1 (size_unit_classes c) Hc)); reflexivity. }
  assert (Hne : a +:+ String x b <> "").
  { destruct a; simpl; discriminate. }
  unfold parseSizeList.
  assert (Ht : truthy (VStr (a +:+ String x b)) = true).
  { simpl. apply String.eqb_neq in Hne. rewrite Hne. reflexivity. }
  rewrite Ht. simpl ToString. simpl bind.
  rewrite (splitRuns_free _ _ Hfree). simpl map.
  rewrite trim_free.
  2:{ revert Hfree. apply allOf_impl.
      intros c Hc. unfold isListSeparator in Hc.
      apply negb_true_iff in Hc. apply orb_false_iff in Hc.
      apply negb_true_iff. tauto. }
  unfold nonEmpty. rewrite filter_cons.
  destruct (decide (a +:+ String x b <> "")) as [_|H]; [|destruct (H Hne)].
  rewrite filter_nil. simpl omap.
  rewrite (matchSize_written a b x Ha Hb Hx). reflexivity.
Qed.

Lemma parseSizeList_normalizeSize_witness :
  exists size,
    normalizeSize (VStr "0300") (VStr "250") = Ok size
    /\ normalizeSize (VNum (StringToNumber "0300")) (VNum (StringToNumber "250"))
       = Ok size
    /\ parseSizeList (VStr "0300X250") = Ok (Some [size]).
Proof.
  apply (parseSizeList_normalizeSize "0300" "250" "X"%char);
    first [reflexivity | split; [discriminate | reflexivity]].
Defined.

(** ** The run *)

Lemma parseSizeList_shape (input : value) (sizes : list string) :
  parseSizeList input = Ok (Some sizes) ->
  forall s, In s sizes ->
            exists a b, digits a /\ digits b
                        /\ s = Num.toString (StringToNumber a) +:+ "x"
                               +:+ Num.toString (StringToNumber b).
Proof.
  unfold parseSizeList. intros H. apply bind_ok_inv in H.
  destruct H as (raw & _ & H).
  match type of H with context [omap ?f ?l] => set (sz := omap f l) in H;
    assert (Hsz : forall s, In s sz -> exists p, f p = Some s) end.
  { intros s Hs. apply list_elem_of_In, list_elem_of_omap in Hs.
    destruct Hs as (p & _ & Hp). eauto. }
  destruct sz as [|s0 sz]; [discriminate|].
  inversion H. subst sizes. clear H.
  intros s Hs. destruct (setOf_spec (s0 :: sz)) as (_ & Hin & _).
  apply (proj1 (Hin s)) in Hs.
  destruct (Hsz s Hs) as (p & Hp).
  destruct (matchSize p) as [[a b]|] eqn:E; [|discriminate].
  inversion Hp. exists a, b. destruct (matchSize_digits _ _ _ E). auto.
Qed.

(** X7. With a selection of sizes in force, a format whose width or height is
    not a finite number never reaches the check that would stop the run:
    it is counted as filtered out and nothing is done for it. *)
Theorem size_selection_hides_malformed
        e o cfg campaign outRoot zipRoot idx fmt c w
        input sizes fw fh nw nh size lang motive ty :
  parseSizeList input = Ok (Some sizes) ->
  onlySize (runFilters o) = Some sizes ->
  get fmt "width" = Ok fw -> ToNumber fw = Ok nw ->
  get fmt "height" = Ok fh -> ToNumber fh = Ok nh ->
  Num.isFinite nw && Num.isFinite nh = false ->
  filterKeys e fmt cfg (templateOverride o) = Ok (size, lang, motive, ty) ->
  processFormat e o cfg campaign outRoot zipRoot idx fmt c w
  = (w, Ok (bump c 0 0 0 0 1)).
Proof.
  intros Hp Hs Hw Hnw Hh Hnh Hfin Hk.
  assert (Hsize : size = "").
  { unfold filterKeys in Hk. rewrite Hw, Hh in Hk. simpl bind in Hk.
    unfold normalizeSize in Hk. rewrite Hnw, Hnh in Hk. simpl bind in Hk.
    apply andb_false_iff in Hfin.
    assert (Hn : negb (Num.isFinite nw) || negb (Num.isFinite nh) = true)
      by (destruct Hfin as [-> | ->]; simpl; [|rewrite orb_true_r]; reflexivity).
    rewrite Hn in Hk. simpl bind in Hk.
    repeat (apply bind_ok_inv in Hk; destruct Hk as (? & _ & Hk)).
    inversion Hk. reflexivity. }
  subst size.
  assert (Hno : hasStr sizes "" = false).
  { destruct (hasStr sizes "") eqn:E; [|reflexivity].
    apply hasStr_In in E. destruct (parseSizeList_shape _ _ Hp _ E) as (a & b & _ & _ & H).
    exfalso. destruct (Num.toString (StringToNumber a)); discriminate. }
  unfold processFormat, locate.
  rewrite (matchesFilters_keys _ _ _ _ _ _ _ _ _ _ Hk), Hs, Hno.
  rewrite andb_false_r. reflexivity.
Qed.

Lemma size_selection_hides_malformed_witness :
  processFormat Demo.host
    {| outDirOverride := VNull; campaignOverride := VNull; clicktagOverride := VNull;
       shouldZip := false; templateOverride := VNull; mode := "incremental";
       runFilters := {| onlySize := Some ["300x250"]; onlyLang := None;
                        onlyMotive := None; onlyTemplate := None;
                        onlyIndex := None |} |}
    Demo.campaign2 (VStr "c") ["out"] ["zip"] 1
    (VObj [("height", VNum (Num.of_Z 90))]) noCounts Demo.emptyDisk
  = (Demo.emptyDisk, Ok (bump noCounts 0 0 0 0 1)).
Proof.
  apply (size_selection_hides_malformed Demo.host _ Demo.campaign2 (VStr "c")
           ["out"] ["zip"] 1%nat (VObj [("height", VNum (Num.of_Z 90))])
           noCounts Demo.emptyDisk (VStr "300x250") ["300x250"]
           VUndefined (VNum (Num.of_Z 90)) Num.nan (Num.of_Z 90)
           "" "" "" "standard");
    reflexivity.
Defined.

(** X8. The template is looked for only for a format that the mode lets
    through. If it is missing then, the run stops before the banner folder
    is created; a format that the mode skips is skipped without a look at
    its template. *)
Theorem template_missing_stops e o cfg campaign zipRoot idx fmt t c w ty root :
  getTemplateRoot e fmt cfg (templateOverride o) = Ok (ty, root) ->
  templates e !! root = None ->
  reconcile e o cfg campaign zipRoot idx fmt t c w
  = if shouldProcessBanner (mode o) (bannerExists w (bannerFolder t))
    then (w, Err (TemplateNotFound ty))
    else (w, Ok (bump c 0 0 0 1 0)).
Proof.
  intros Htr Hnone. unfold reconcile.
  rewrite (bindM_eval (folderEntries _) _ w w (banners w !! bannerFolder t))
    by reflexivity.
  rewrite (bindM_eval _ _ w w (bannerExists w (bannerFolder t))) by reflexivity.
  destruct (shouldProcessBanner (mode o) (bannerExists w (bannerFolder t)));
    [|reflexivity].
  simpl negb. cbv iota.
  unfold bindM at 1. unfold lift at 1. rewrite Htr, Hnone. reflexivity.
Qed.

Lemma template_missing_stops_witness :
  reconcile Demo.host (Demo.run "update")
    Demo.campaign1 (VStr "c") ["zip"] 0
    (VObj [("brand", VObj [("type", VStr "rich")])])
    {| width := Num.of_Z 300; height := Num.of_Z 250; langCode := VNull;
       motiveName := VNull; bannerFolder := Demo.folder300 |}
    noCounts Demo.emptyDisk
  = (Demo.emptyDisk, Ok (bump noCounts 0 0 0 1 0)).
Proof.
  apply (template_missing_stops Demo.host (Demo.run "update") Demo.campaign1 (VStr "c")
           ["zip"] 0%nat (VObj [("brand", VObj [("type", VStr "rich")])]) _
           noCounts Demo.emptyDisk "rich" (TEMPLATES_DIR Demo.host ++ ["rich"]));
    reflexivity.
Defined.

Lemma reconcile_counted e o cfg campaign zipRoot idx fmt t c w w' c' :
  reconcile e o cfg campaign zipRoot idx fmt t c w = (w', Ok c') ->
  countedOnce c c'.
Proof.
  unfold reconcile. intros H.
  apply bindM_ok_inv in H. destruct H as (found & w1 & _ & H).
  apply bindM_ok_inv in H. destruct H as (ex & w2 & _ & H).
  destruct (negb (shouldProcessBanner (mode o) ex)).
  { inversion H. right. right. left. reflexivity. }
  apply bindM_ok_inv in H. destruct H as ([ty root] & w3 & _ & H).
  destruct (negb (bool_decide (is_Some (templates e !! root)))).
  { inversion H. }
  inv_M H.
  destruct (negb (shouldRenderBanner _ _ _ _ _)).
  { inversion H. right. right. left. reflexivity. }
  apply generate_counts in H. subst c'.
  destruct ex; [right; left | left]; reflexivity.
Qed.

Lemma processFormat_counted e o cfg campaign outRoot zipRoot idx fmt c w w' c' :
  processFormat e o cfg campaign outRoot zipRoot idx fmt c w = (w', Ok c') ->
  countedOnce c c'.
Proof.
  unfold processFormat. intros H.
  apply bindM_ok_inv in H. destruct H as ([t|] & w1 & _ & H).
  - apply (reconcile_counted _ _ _ _ _ _ _ _ _ _ _ _ H).
  - inversion H. right. right. right. reflexivity.
Qed.

Lemma loop_counted e o cfg campaign outRoot zipRoot (formats : list value) :
  forall idx c w w' c',
    loop e o cfg campaign outRoot zipRoot idx formats c w = (w', Ok c') ->
    (processed c = created c + updated c)%nat ->
    (processed c' = created c' + updated c')%nat
    /\ (processed c' + skipped c' + filteredOut c'
        = processed c + skipped c + filteredOut c + length formats)%nat.
Proof.
  induction formats as [|fmt rest IH]; intros idx c w w' c' H Hc.
  - inversion H. subst. simpl. lia.
  - simpl in H. apply bindM_ok_inv in H. destruct H as (c1 & w1 & H1 & H).
    apply processFormat_counted in H1.
    assert (Hc1 : (processed c1 = created c1 + updated c1)%nat
                  /\ (processed c1 + skipped c1 + filteredOut c1
                      = processed c + skipped c + filteredOut c + 1)%nat).
    { destruct H1 as [-> | [-> | [-> | ->]]]; simpl; lia. }
    destruct (IH _ _ _ _ _ H (proj1 Hc1)) as [Ha Hb].
    split; [exact Ha|]. simpl length. lia.
Qed.

(** X9. The counters of a run that completes add up: every format of the
    configuration is counted once, as processed, skipped or filtered out,
    and what is processed is either created or updated. *)
Theorem counters_add_up e o cfg formats w w' c :
  readFormatsFromCfg cfg = Ok formats ->
  generateFromFormatsJson e o cfg w = (w', Ok c) ->
  (processed c = created c + updated c)%nat
  /\ (processed c + skipped c + filteredOut c = length formats)%nat.
Proof.
  intros Hf H. unfold generateFromFormatsJson in H.
  rewrite (bindM_lift_ok _ _ _ _ Hf) in H.
  destruct (length formats =? 0)%nat; [inversion H|].
  inv_M H.
  apply loop_counted in H; [|reflexivity].
  simpl in H. exact H.
Qed.

Lemma counters_add_up_witness :
  let c := {| processed := 1; created := 1; updated := 0; skipped := 0;
              filteredOut := 0 |} in
  generateFromFormatsJson Demo.host (Demo.run "incremental") Demo.campaign1
                          Demo.emptyDisk
  = (Demo.afterRun1, Ok c)
  /\ (processed c = created c + updated c)%nat
  /\ (processed c + skipped c + filteredOut c = 1)%nat.
Proof.
  intros c.
  assert (H : generateFromFormatsJson Demo.host (Demo.run "incremental")
                Demo.campaign1 Demo.emptyDisk = (Demo.afterRun1, Ok c))
    by (vm_compute; reflexivity).
  split; [exact H|].
  exact (counters_add_up Demo.host (Demo.run "incremental") Demo.campaign1
           [Demo.banner300] Demo.emptyDisk Demo.afterRun1 c eq_refl H).
Defined.

(** ** Assets and the state record *)

(** X10. The list of assets does not depend on the order in which the directory
    reports its entries: it is sorted by file name, and holds the images of
    the directory that are not [@2x] variants, each with its name without
    the extension as id. *)
Theorem readAssets_listing (d d' : entries) (es es' : entries) :
  lookup "assets" d = Some (Dir es) ->
  lookup "assets" d' = Some (Dir es') ->
  map fst es ≡ₚ map fst es' ->
  readAssets d = readAssets d'
  /\ exists files,
      readAssets d = Ok (map (fun file => (stem true file, file)) files)
      /\ Sorted Str.le files
      /\ forall f, In f files <->
                   In f (map fst es) /\ isImageName f = true /\ is2xName f = false.
Proof.
  intros Hd Hd' Hp. unfold readAssets. rewrite Hd, Hd'. split.
  - f_equal. f_equal. apply sort_perm. rewrite Hp. reflexivity.
  - eexists. split; [reflexivity|]. split.
    + unfold Str.sort. apply Sorted_merge_sort. apply _.
    + intros f. unfold Str.sort.
      rewrite <- list_elem_of_In, merge_sort_Permutation,
        !list_elem_of_filter, list_elem_of_In. tauto.
Qed.

Lemma readAssets_listing_witness :
  readAssets [("assets", Dir [("b.png", File (Text "")); ("a@2x.png", File (Text ""));
                              ("notes.txt", File (Text "")); ("a.JPG", File (Text ""))])]
  = readAssets [("assets", Dir [("a.JPG", File (Text "")); ("notes.txt", File (Text ""));
                                ("a@2x.png", File (Text "")); ("b.png", File (Text ""))])].
Proof.
  refine (proj1 (readAssets_listing
                   [("assets", Dir [("b.png", File (Text "")); ("a@2x.png", File (Text ""));
                                    ("notes.txt", File (Text "")); ("a.JPG", File (Text ""))])]
                   [("assets", Dir [("a.JPG", File (Text "")); ("notes.txt", File (Text ""));
                                    ("a@2x.png", File (Text "")); ("b.png", File (Text ""))])]
                   _ _ eq_refl eq_refl _)).
  apply (bool_decide_unpack _). vm_compute. exact I.
Defined.

(** X11. Round trip of the state record: what [writeGenState] writes is what
    [readGenState] reads back, as JSON keeps it, and no other entry of the
    folder changes. The write fails only for a state without a JSON text
    ([undefined]) or on a directory of that name. *)
Theorem gen_state_round_trip (d : entries) (state : value) :
  match writeGenState d state with
  | Ok d' =>
      readGenState d' = jsonCopy state
      /\ JSON_stringify state <> VUndefined
      /\ forall name, name <> ".gen-state.json" -> lookup name d' = lookup name d
  | Err _ =>
      JSON_stringify state = VUndefined
      \/ exists es, lookup ".gen-state.json" d = Some (Dir es)
  end.
Proof.
  unfold writeGenState, writeJson, writeFile, JSON_stringify.
  destruct (serialize state) as [s|]; [|left; reflexivity]. simpl.
  destruct (lookup ".gen-state.json" d) as [[c|es]|] eqn:E;
    try (right; eexists; reflexivity);
    (split; [unfold readGenState; rewrite lookup_put_eq; reflexivity|]);
    (split; [discriminate|]);
    intros name Hn; apply lookup_put_ne; congruence.
Qed.

(** ** Names of archives *)

Lemma underscoreRuns_units (p q : ascii -> bool) (s : string) :
  (forall c, p c = false -> q c = true) -> q "_"%char = true ->
  forall inRun, allOf q (underscoreRuns p inRun s) = true.
Proof.
  intros Hpq Hu. induction s as [|c s IH]; intros inRun; simpl; [reflexivity|].
  destruct (p c) eqn:E.
  - destruct inRun; [apply IH|]. simpl. rewrite Hu. apply IH.
  - simpl. rewrite (Hpq c E). apply IH.
Qed.

Lemma endsWith_app (a b : string) : Str.endsWith (a +:+ b) b = true.
Proof.
  induction a as [|c a IH]; simpl.
  - change ("" +:+ b) with b. destruct b as [|x b]; [reflexivity|].
    cbn [Str.endsWith]. rewrite String.eqb_refl. reflexivity.
  - rewrite IH. apply orb_true_r.
Qed.

Lemma length_app_str (a b : string) :
  String.length (a +:+ b) = (String.length a + String.length b)%nat.
Proof. induction a as [|c a IH]; simpl; [reflexivity | rewrite IH; reflexivity]. Qed.

Lemma safe_no_slash (c : ascii) : isSafeUnit c = true -> notUnit "/"%char c = true.
Proof.
  destruct c as [[] [] [] [] [] [] [] []]; vm_compute; congruence.
Qed.

Lemma join1_plain (p : Path.path) (name : string) :
  allOf (notUnit "/"%char) name = true ->
  (4 <= String.length name)%nat ->
  Path.join1 p name = p ++ [name].
Proof.
  intros Hfree Hlen. unfold Path.join1. rewrite (split_free _ _ Hfree).
  simpl. unfold Path.step.
  destruct name as [|a [|b [|c [|x r]]]]; simpl in Hlen; try lia.
  destruct (String.eqb_spec (String a (String b (String c (String x r)))) "");
    [discriminate|].
  destruct (String.eqb_spec (String a (String b (String c (String x r)))) ".");
    [discriminate|].
  destruct (String.eqb_spec (String a (String b (String c (String x r)))) "..");
    [discriminate|].
  reflexivity.
Qed.

(** X12. The name [makeZipName] gives an archive is a portable file name: it is
    written with letters, digits, [_], [.] and [-] only, ends in [.zip], and
    joined to the directory of the archives it names a file directly in that
    directory, whatever the campaign, the language and the motive hold. *)
Theorem makeZipName_safe campaign langCode motiveName width height name zipRoot :
  makeZipName campaign langCode motiveName width height = Ok name ->
  allOf isSafeUnit name = true
  /\ Str.endsWith name ".zip" = true
  /\ Path.join1 zipRoot name = zipRoot ++ [name].
Proof.
  unfold makeZipName. intros H. apply bind_ok_inv in H.
  destruct H as (parts & _ & H). inversion H. clear H.
  match goal with |- context [underscoreRuns ?p false ?s +:+ ".zip"] =>
    set (body := underscoreRuns p false s);
    assert (Hb : allOf isSafeUnit body = true)
  end.
  { apply underscoreRuns_units; [|reflexivity].
    intros c Hc. apply negb_false_iff in Hc. exact Hc. }
  assert (Hs : allOf isSafeUnit (body +:+ ".zip") = true).
  { rewrite allOf_app, Hb. reflexivity. }
  repeat split.
  - exact Hs.
  - apply endsWith_app.
  - apply join1_plain.
    + revert Hs. apply allOf_impl. exact safe_no_slash.
    + rewrite length_app_str. simpl. lia.
Qed.

Lemma makeZipName_safe_witness :
  allOf isSafeUnit "my_campaign_.._etc_de_300x250.zip" = true
  /\ Str.endsWith "my_campaign_.._etc_de_300x250.zip" ".zip" = true
  /\ Path.join1 ["work"; "output"; "zip"] "my_campaign_.._etc_de_300x250.zip"
     = ["work"; "output"; "zip"] ++ ["my_campaign_.._etc_de_300x250.zip"].
Proof.
  apply (makeZipName_safe (VStr "my campaign/../etc") (VStr "de") VNull
           (Num.of_Z 300) (Num.of_Z 250)).
  vm_compute. reflexivity.
Defined.

(** ** The preview page: escaping *)

Import Preview ZipOnly.

Lemma replaceUnit_app (c : ascii) (by_ a b : string) :
  replaceUnit c by_ (a +:+ b) = replaceUnit c by_ a +:+ replaceUnit c by_ b.
Proof.
  induction a as [|x a IH]; simpl; [reflexivity|].
  destruct (Ascii.eqb x c); rewrite IH; [|reflexivity].
  symmetry. apply app_assoc_str.
Qed.

Lemma escape_chain (t : string) :
  replaceUnit "'"%char "&#39;"
    (replaceUnit dquote "&quot;"
       (replaceUnit ">"%char "&gt;"
          (replaceUnit "<"%char "&lt;"
             (replaceUnit "&"%char "&amp;" t))))
  = escaped t.
Proof.
  induction t as [|x t IH]; [reflexivity|].
  change (String x t) with (String x "" +:+ t).
  rewrite !replaceUnit_app, IH.
  change (escaped (String x "" +:+ t)) with (entity x +:+ escaped t).
  f_equal.
  destruct x as [[] [] [] [] [] [] [] []]; vm_compute; reflexivity.
Qed.

Lemma entity_clean (c : ascii) :
  allOf (fun x => negb (isMarkup x)) (entity c) = true.
Proof. destruct c as [[] [] [] [] [] [] [] []]; vm_compute; reflexivity. Qed.

Lemma readEntity_entity (c : ascii) (r : string) :
  readEntity (entity c +:+ r) = Some (c, r).
Proof. destruct c as [[] [] [] [] [] [] [] []]; reflexivity. Qed.

(** X13. The five replacements of [escapeHtml] amount to one pass that writes
    each code unit or its entity: no entity is escaped a second time, and
    the result holds no [<], [>], double quote or apostrophe. *)
Theorem escapeHtml_single_pass (s : string) :
  escapeHtml (VStr s) = Ok (escaped s)
  /\ allOf (fun x => negb (isMarkup x)) (escaped s) = true.
Proof.
  split.
  - unfold escapeHtml. simpl ToString. simpl bind. rewrite escape_chain. reflexivity.
  - induction s as [|c s IH]; [reflexivity|].
    simpl escaped. rewrite allOf_app, entity_clean, IH. reflexivity.
Qed.

Lemma escaped_inj (a b : string) : escaped a = escaped b -> a = b.
Proof.
  revert b. induction a as [|x a IH]; intros [|y b] H.
  - reflexivity.
  - apply (f_equal readEntity) in H. simpl escaped in H.
    rewrite readEntity_entity in H. discriminate.
  - apply (f_equal readEntity) in H. simpl escaped in H.
    rewrite readEntity_entity in H. discriminate.
  - apply (f_equal readEntity) in H. simpl escaped in H.
    rewrite !readEntity_entity in H. inversion H. f_equal. apply IH. assumption.
Qed.

(** X14. Escaping loses nothing: two texts with the same escaped form are the
    same text. *)
Theorem escapeHtml_injective (a b : string) :
  escapeHtml (VStr a) = escapeHtml (VStr b) -> a = b.
Proof.
  unfold escapeHtml. simpl ToString. simpl bind. rewrite !escape_chain.
  intros H. inversion H. apply escaped_inj. assumption.
Qed.

Lemma escapeHtml_injective_witness : "a<b" = "a<b".
Proof.
  apply (escapeHtml_injective "a<b" "a<b"). reflexivity.
Defined.

(** ** Walks over the tree of banners *)

Lemma walkFolders_dir (dir : Path.path) (es : entries) :
  walkFolders dir (Dir es)
  = if existsb (String.eqb "index.html") (map fst es) then Ok [dir]
    else walkEntries dir es.
Proof. reflexivity. Qed.

Lemma walkEntries_cons (dir : Path.path) (name : string) (child : node)
      (r : list (string * node)) :
  walkEntries dir ((name, child) :: r)
  = match child with
    | Dir _ =>
        let* a := walkFolders (dir ++ [name]) child in
        let* b := walkEntries dir r in
        Ok (a ++ b)
    | File _ => walkEntries dir r
    end.
Proof. reflexivity. Qed.

Lemma hasIndex_names (es : entries) :
  existsb (String.eqb "index.html") (map fst es) = hasEntry "index.html" es.
Proof.
  unfold hasEntry, lookup. induction es as [|[k x] es IH]; [reflexivity|].
  cbn [map fst existsb assoc].
  destruct ("index.html" =? k)%string; [reflexivity | exact IH].
Qed.

Lemma wellListed_child (d : entries) (k : string) (c : node) :
  wellListed (Dir d) -> In (k, c) d -> wellListed c.
Proof.
  intros [_ Hall]. induction d as [|[k' c'] d IH]; intros Hin; [destruct Hin|].
  destruct Hall as [Hc Hall]. destruct Hin as [H|H].
  - inversion H. subst. exact Hc.
  - apply (IH Hall H).
Qed.

Lemma bannerAt_below (d : entries) (name : string) (child : node) (p : list string) :
  lookup name d = Some child ->
  (bannerAt (Dir d) (name :: p) <-> bannerAt child p).
Proof.
  intros Hl. unfold bannerAt. simpl. rewrite Hl. reflexivity.
Qed.

Lemma topmost_root (d : entries) (p : list string) :
  hasEntry "index.html" d = true -> (topmost (Dir d) p <-> p = []).
Proof.
  intros Hidx. split.
  - intros [_ Hq]. destruct p as [|seg r]; [reflexivity|].
    exfalso. apply (Hq []); [apply prefix_nil | discriminate |].
    exists d. auto.
  - intros ->. split; [exists d; auto|].
    intros q Hq Hne. apply prefix_nil_inv in Hq. congruence.
Qed.

Lemma topmost_below (d : entries) (p : list string) :
  NoDup (map fst d) ->
  hasEntry "index.html" d = false ->
  (topmost (Dir d) p <->
   exists name es p', In (name, Dir es) d /\ p = name :: p' /\ topmost (Dir es) p').
Proof.
  intros Hnd Hidx. split.
  - intros [Hb Hq]. destruct p as [|name p'].
    { destruct Hb as (es & Hes & Hi). inversion Hes. subst. congruence. }
    destruct (lookup name d) as [child|] eqn:El.
    2:{ destruct Hb as (es & Hes & _). simpl in Hes. rewrite El in Hes. discriminate. }
    assert (Hchild : exists es, child = Dir es).
    { destruct Hb as (es & Hes & _). simpl in Hes. rewrite El in Hes.
      destruct child as [c|es']; [|eauto].
      destruct p'; simpl in Hes; discriminate. }
    destruct Hchild as (es' & ->).
    exists name, es', p'. split.
    { apply (assoc_In name (Dir es') d Hnd). exact El. }
    split; [reflexivity|]. split.
    + apply (bannerAt_below d name _ p' El). exact Hb.
    + intros q Hpre Hne Hbq.
      apply (Hq (name :: q)).
      * apply prefix_cons. exact Hpre.
      * congruence.
      * apply (bannerAt_below d name _ q El). exact Hbq.
  - intros (name & es & p' & Hin & -> & Hb & Hq).
    assert (El : lookup name d = Some (Dir es))
      by (apply (assoc_In name (Dir es) d Hnd); exact Hin).
    split.
    + apply (bannerAt_below d name _ p' El). exact Hb.
    + intros q Hpre Hne Hbq. destruct q as [|x q].
      * destruct Hbq as (es0 & Hes0 & Hi). inversion Hes0. subst. congruence.
      * assert (x = name) by (destruct Hpre as (k & Hk); inversion Hk; reflexivity).
        subst x. apply (Hq q).
        -- destruct Hpre as (k & Hk). inversion Hk. exists k. reflexivity.
        -- congruence.
        -- apply (bannerAt_below d name _ q El). exact Hbq.
Qed.

Lemma map_app_cons (dir : Path.path) (name : string) (rels : list (list string)) :
  map (app (dir ++ [name])) rels = map (app dir) (map (cons name) rels).
Proof.
  rewrite map_map. apply map_ext. intros p. rewrite <- app_assoc. reflexivity.
Qed.

Lemma walkFolders_topmost (n : node) :
  wellListed n ->
  forall dir es,
    n = Dir es ->
    exists rels,
      walkFolders dir n = Ok (map (app dir) rels)
      /\ NoDup rels
      /\ forall p, In p rels <-> topmost n p.
Proof.
  induction n as [c | d IH] using node_ind_deep; intros Hwl dir es Hn;
    [discriminate|].
  clear es Hn. rewrite walkFolders_dir, hasIndex_names.
  destruct (hasEntry "index.html" d) eqn:Hidx.
  { exists [[]]. simpl. rewrite app_nil_r. split; [reflexivity|]. split.
    - apply NoDup_singleton.
    - intros p. rewrite (topmost_root d p Hidx). simpl. split.
      + intros [<-|[]]. reflexivity.
      + intros ->. auto. }
  assert (Hloop :
            forall l,
              (forall kv, In kv l -> In kv d) ->
              NoDup (map fst l) ->
              exists rels,
                walkEntries dir l = Ok (map (app dir) rels)
                /\ NoDup rels
                /\ forall p, In p rels <->
                             exists name es p',
                               In (name, Dir es) l /\ p = name :: p'
                               /\ topmost (Dir es) p').
  { induction l as [|[name child] l IHl]; intros Hsub Hnd.
    - exists []. split; [reflexivity|]. split; [constructor|].
      intros p. split; [intros [] | intros (? & ? & ? & [] & _)].
    - change (map fst ((name, child) :: l)) with (name :: map fst l) in Hnd.
      apply NoDup_cons in Hnd. destruct Hnd as [Hname Hnd].
      destruct (IHl (fun kv H => Hsub kv (or_intror H)) Hnd)
        as (rels & Hr & Hndr & Hin).
      rewrite walkEntries_cons. destruct child as [c|es].
      + exists rels. split; [exact Hr|]. split; [exact Hndr|].
        intros p. rewrite Hin. split.
        * intros (n0 & es0 & p' & H & Hp). exists n0, es0, p'. split; [right|]; tauto.
        * intros (n0 & es0 & p' & [H|H] & Hp); [discriminate|].
          exists n0, es0, p'. tauto.
      + assert (Hd : In (name, Dir es) d) by (apply Hsub; left; reflexivity).
        rewrite Forall_forall in IH.
        destruct (IH (name, Dir es) (proj2 (list_elem_of_In _ _) Hd)
                     (wellListed_child d name _ Hwl Hd)
                     (dir ++ [name]) es eq_refl)
          as (relc & Hc & Hndc & Hinc).
        simpl snd in Hc, Hinc. rewrite Hc, Hr. simpl bind.
        exists (map (cons name) relc ++ rels). split.
        { rewrite map_app, map_app_cons. reflexivity. }
        split.
        { apply NoDup_app. split; [|split; [|exact Hndr]].
          - apply NoDup_fmap_2; [|exact Hndc]. intros a b H. inversion H. reflexivity.
          - intros p Hp Hp'. apply list_elem_of_In in Hp, Hp'.
            apply in_map_iff in Hp. destruct Hp as (p0 & <- & _).
            apply Hin in Hp'. destruct Hp' as (n0 & es0 & p' & H & Hp & _).
            inversion Hp. subst n0.
            apply Hname. apply list_elem_of_In.
            change name with (fst (name, Dir es0)). apply in_map. exact H. }
        intros p. rewrite in_app_iff, in_map_iff, Hin. split.
        * intros [(p0 & <- & Hp0) | (n0 & es0 & p' & H & Hp)].
          -- exists name, es, p0. split; [left; reflexivity|].
             split; [reflexivity|]. apply Hinc. exact Hp0.
          -- exists n0, es0, p'. split; [right|]; tauto.
        * intros (n0 & es0 & p' & [H|H] & -> & Ht).
          -- inversion H. subst. left. exists p'. split; [reflexivity|].
             apply Hinc. exact Ht.
          -- right. exists n0, es0, p'. auto. }
  destruct Hwl as [Hnd Hall].
  destruct (Hloop d (fun kv H => H) Hnd) as (rels & Hr & Hndr & Hin).
  exists rels. split; [exact Hr|]. split; [exact Hndr|].
  intros p. rewrite Hin. symmetry. apply topmost_below; assumption.
Qed.

(** X15. [collectBannerFolders] finds, each once, exactly the directories that
    list an entry [index.html] and have no ancestor that does, the root
    directory included: a banner folder is never looked into. *)
Theorem collectBannerFolders_topmost (rootDir : Path.path) (es : entries) :
  wellListed (Dir es) ->
  exists rels,
    collectBannerFolders rootDir (Some (Dir es)) = Ok (map (app rootDir) rels)
    /\ NoDup rels
    /\ forall p, In p rels <-> topmost (Dir es) p.
Proof.
  intros Hwl. apply (walkFolders_topmost (Dir es) Hwl rootDir es eq_refl).
Qed.

Lemma collectBannerFolders_topmost_witness :
  exists rels,
    collectBannerFolders ["work"; "src"; "c"] (Some (Dir Samples.campaignTree))
    = Ok (map (app ["work"; "src"; "c"]) rels)
    /\ NoDup rels
    /\ forall p, In p rels <-> topmost (Dir Samples.campaignTree) p.
Proof.
  apply (collectBannerFolders_topmost ["work"; "src"; "c"] Samples.campaignTree).
  vm_compute. repeat split; try (apply (bool_decide_unpack _); vm_compute; exact I).
Defined.

Lemma walkIndexFiles_dir (rootDir dir : Path.path) (es : entries) :
  walkIndexFiles rootDir dir (Dir es)
  = if existsb (fun e => isFile (snd e) && (fst e =? "index.html")%string) es
       && negb (bool_decide (dir ++ ["index.html"] = rootDir ++ ["index.html"]))
    then Ok [dir ++ ["index.html"]]
    else walkIndexEntries rootDir dir es.
Proof. reflexivity. Qed.

Lemma walkIndexEntries_cons (rootDir dir : Path.path) (name : string) (child : node)
      (r : list (string * node)) :
  walkIndexEntries rootDir dir ((name, child) :: r)
  = match child with
    | Dir _ =>
        let* a := walkIndexFiles rootDir (dir ++ [name]) child in
        let* b := walkIndexEntries rootDir dir r in
        Ok (a ++ b)
    | File _ => walkIndexEntries rootDir dir r
    end.
Proof. reflexivity. Qed.

(** What the walk reports lies below the directory it is at. *)
Lemma walkIndexFiles_below (rootDir : Path.path) (n : node) :
  forall dir l,
    walkIndexFiles rootDir dir n = Ok l ->
    forall q, In q l ->
              q <> rootDir ++ ["index.html"]
              /\ exists p, q = dir ++ p ++ ["index.html"].
Proof.
  induction n as [c | d IH] using node_ind_deep; intros dir l H q Hq;
    [discriminate|].
  rewrite walkIndexFiles_dir in H.
  destruct (existsb _ d && negb (bool_decide _)) eqn:E.
  { inversion H. subst l. destruct Hq as [<-|[]].
    apply andb_true_iff in E. destruct E as [_ E].
    apply negb_true_iff, bool_decide_eq_false in E.
    split; [exact E | exists []; reflexivity]. }
  clear E. revert l H q Hq.
  induction d as [|[name child] d IHd]; intros l H q Hq.
  - inversion H. subst. destruct Hq.
  - apply Forall_cons in IH. destruct IH as [IHc IHr]. simpl in IHc.
    rewrite walkIndexEntries_cons in H. destruct child as [c|es].
    + apply (IHd IHr _ H _ Hq).
    + apply bind_ok_inv in H. destruct H as (a & Ha & H).
      apply bind_ok_inv in H. destruct H as (b & Hb & H).
      inversion H. subst l. apply in_app_iff in Hq. destruct Hq as [Hq|Hq].
      * destruct (IHc _ _ Ha _ Hq) as [Hne (p & ->)].
        split; [exact Hne|]. exists (name :: p).
        rewrite <- app_assoc. reflexivity.
      * apply (IHd IHr _ Hb _ Hq).
Qed.

Lemma hasIndex_files (es : entries) :
  indexFilesOnly (Dir es) ->
  existsb (fun e => isFile (snd e) && (fst e =? "index.html")%string) es
  = existsb (String.eqb "index.html") (map fst es).
Proof.
  induction es as [|[k x] es IH]; intros H; [reflexivity|].
  destruct H as (Hk & _ & Hall).
  cbn [existsb map fst snd]. rewrite (IH Hall). f_equal.
  rewrite (String.eqb_sym "index.html" k).
  destruct (String.eqb_spec k "index.html") as [E|_].
  - rewrite (Hk E). reflexivity.
  - apply andb_false_r.
Qed.

Lemma indexFilesOnly_child (d : entries) (k : string) (c : node) :
  indexFilesOnly (Dir d) -> In (k, c) d -> indexFilesOnly c.
Proof.
  induction d as [|[k' c'] d IH]; intros Hall Hin; [destruct Hin|].
  destruct Hall as (_ & Hc & Hall). destruct Hin as [H|H].
  - inversion H. subst. exact Hc.
  - apply (IH Hall H).
Qed.

Lemma walkIndexFiles_folders (rootDir : Path.path) (n : node) :
  indexFilesOnly n ->
  forall p es,
    n = Dir es ->
    (p = [] -> hasEntry "index.html" es = false) ->
    walkIndexFiles rootDir (rootDir ++ p) n
    = let* l := walkFolders (rootDir ++ p) n in
      Ok (map (fun d => d ++ ["index.html"]) l).
Proof.
  induction n as [c | d IH] using node_ind_deep; intros Hfo p es Hn Hroot;
    [discriminate|].
  inversion Hn. subst es. clear Hn.
  rewrite walkIndexFiles_dir, walkFolders_dir, (hasIndex_files d Hfo).
  rewrite hasIndex_names in *.
  destruct (hasEntry "index.html" d) eqn:Hidx.
  { rewrite bool_decide_eq_false_2; [reflexivity|].
    intros H. rewrite <- app_assoc in H. apply app_inv_head in H.
    destruct p as [|x p]; [specialize (Hroot eq_refl); congruence|].
    destruct p; discriminate. }
  simpl andb. cbv iota.
  assert (Hloop :
            forall l, (forall kv, In kv l -> In kv d) ->
                      walkIndexEntries rootDir (rootDir ++ p) l
                      = let* x := walkEntries (rootDir ++ p) l in
                        Ok (map (fun d => d ++ ["index.html"]) x)).
  { induction l as [|[name child] l IHl]; intros Hsub; [reflexivity|].
    rewrite walkIndexEntries_cons, walkEntries_cons.
    specialize (IHl (fun kv H => Hsub kv (or_intror H))).
    destruct child as [c|es]; [exact IHl|].
    assert (Hd : In (name, Dir es) d) by (apply Hsub; left; reflexivity).
    rewrite Forall_forall in IH.
    pose proof (IH (name, Dir es) (proj2 (list_elem_of_In _ _) Hd)
                   (indexFilesOnly_child d name _ Hfo Hd) (p ++ [name]) es eq_refl)
      as Hc.
    simpl snd in Hc. rewrite app_assoc in Hc. rewrite Hc.
    2:{ intros H. destruct p; discriminate. }
    rewrite IHl.
    destruct (walkFolders ((rootDir ++ p) ++ [name]) (Dir es)) as [a|x]; [|reflexivity].
    simpl bind. destruct (walkEntries (rootDir ++ p) l) as [b|x]; [|reflexivity].
    simpl bind. rewrite map_app. reflexivity. }
  apply Hloop. auto.
Qed.

(** X16. The walk for the preview page never reports the page [index.html] of
    the root directory itself. Where that directory has no such entry and no
    directory of the tree is named [index.html], it reports the page of
    exactly the folders that [collectBannerFolders] finds, in the same
    order. *)
Theorem collectBannerIndexFiles_folders (rootDir : Path.path) (es : entries) :
  (forall l, collectBannerIndexFiles rootDir (Some (Dir es)) = Ok l ->
             ~ In (rootDir ++ ["index.html"]) l)
  /\ (indexFilesOnly (Dir es) -> hasEntry "index.html" es = false ->
      collectBannerIndexFiles rootDir (Some (Dir es))
      = let* l := collectBannerFolders rootDir (Some (Dir es)) in
        Ok (map (fun d => d ++ ["index.html"]) l)).
Proof.
  split.
  - intros l H Hin.
    destruct (walkIndexFiles_below rootDir (Dir es) rootDir l H _ Hin) as [Hne _].
    congruence.
  - intros Hfo Hidx. unfold collectBannerIndexFiles, collectBannerFolders.
    pose proof (walkIndexFiles_folders rootDir (Dir es) Hfo [] es eq_refl
                  (fun _ => Hidx)) as H.
    rewrite app_nil_r in H. exact H.
Qed.

Lemma collectBannerIndexFiles_folders_witness :
  collectBannerIndexFiles ["work"; "src"; "c"] (Some (Dir Samples.campaignTree))
  = let* l := collectBannerFolders ["work"; "src"; "c"]
                                   (Some (Dir Samples.campaignTree)) in
    Ok (map (fun d => d ++ ["index.html"]) l).
Proof.
  apply (proj2 (collectBannerIndexFiles_folders ["work"; "src"; "c"]
                  Samples.campaignTree)).
  - vm_compute. repeat split; try discriminate; try reflexivity.
  - reflexivity.
Defined.

(** ** The zip-only workflow: from a folder back to its format *)

Lemma relative_below (outRoot rel : list string) :
  relative outRoot (outRoot ++ rel) = rel.
Proof.
  induction outRoot as [|a r IH]; simpl.
  - destruct rel; reflexivity.
  - rewrite String.eqb_refl. exact IH.
Qed.

Lemma join1_segment (p : Path.path) (s : string) :
  plainSegment s -> Path.join1 p s = p ++ [s].
Proof.
  intros (H0 & H1 & H2 & Hfree). unfold Path.join1.
  rewrite (split_free _ _ Hfree). simpl. unfold Path.step.
  apply String.eqb_neq in H0, H1, H2. rewrite H0, H1, H2. reflexivity.
Qed.

Lemma join_segments (p : Path.path) (l : list string) :
  (forall s, In s l -> plainSegment s) -> Path.join p l = p ++ l.
Proof.
  revert p. induction l as [|s l IH]; intros p H.
  - simpl. rewrite app_nil_r. reflexivity.
  - unfold Path.join in *. simpl.
    rewrite join1_segment by (apply H; left; reflexivity).
    rewrite IH by (intros x Hx; apply H; right; exact Hx).
    rewrite <- app_assoc. reflexivity.
Qed.

(** The pattern of a folder name finds the two numbers of [a x b]. *)
Lemma matchWxH_written (a b : string) (x : ascii) :
  digits a -> digits b -> Str.lower x = "x"%char ->
  matchWxH (a +:+ String x b) = Some (a, b).
Proof.
  intros Ha Hb Hx. unfold matchWxH.
  destruct (proj2 (size_unit_classes x) Hx) as (Hxd & _ & _).
  rewrite (span_app Str.isDigit a (String x b) (proj2 Ha) Hxd).
  rewrite (proj2 (eqb_empty a) (proj1 Ha)). rewrite Hx. simpl Ascii.eqb.
  pose proof (span_app Str.isDigit b "" (proj2 Hb) I) as Hs.
  rewrite app_nil_r_str in Hs. rewrite Hs.
  rewrite (proj2 (eqb_empty b) (proj1 Hb)). reflexivity.
Qed.

Lemma digits_size_segment (a b : string) (x : ascii) :
  digits a -> digits b -> Str.lower x = "x"%char ->
  plainSegment (a +:+ String x b).
Proof.
  intros Ha Hb Hx.
  destruct (digits_head a Ha) as (c & r & -> & Hc).
  assert (Hfree : allOf (notUnit "/"%char) (String c r +:+ String x b) = true).
  { rewrite allOf_app. apply andb_true_iff. split.
    - apply (allOf_impl Str.isDigit); [|apply Ha].
      intros [[] [] [] [] [] [] [] []]; vm_compute; congruence.
    - simpl. apply andb_true_iff. split.
      + revert Hx. destruct x as [[] [] [] [] [] [] [] []]; vm_compute; congruence.
      + apply (allOf_impl Str.isDigit); [|apply Hb].
        intros [[] [] [] [] [] [] [] []]; vm_compute; congruence. }
  repeat split; try exact Hfree; simpl; try discriminate.
  - intros H. inversion H. destruct r; discriminate.
  - intros H. inversion H. subst c. vm_compute in Hc. discriminate.
Qed.

Lemma last_app_one (l : list string) (s d : string) : List.last (l ++ [s]) d = s.
Proof. apply last_last. Qed.

Lemma parseMeta_rel (outRoot : Path.path) (pre : list string) (a b : string)
      (x : ascii) :
  (forall s, In s pre -> plainSegment s) ->
  digits a -> digits b -> Str.lower x = "x"%char ->
  parseMetaFromBannerFolder outRoot (outRoot ++ pre ++ [a +:+ String x b])
  = Some {| width := StringToNumber a;
            height := StringToNumber b;
            langCode := match pre with
                        | l :: _ => VStr l
                        | [] => VNull
                        end;
            motiveName := match pre with
                          | _ :: m :: _ => VStr m
                          | _ => VNull
                          end |}.
Proof.
  intros Hpre Ha Hb Hx. unfold parseMetaFromBannerFolder.
  rewrite relative_below.
  rewrite (split_join "/"%char).
  2:{ destruct pre; discriminate. }
  2:{ intros s Hs. apply in_app_iff in Hs. destruct Hs as [Hs|[<-|[]]].
      - apply (Hpre s Hs).
      - apply (digits_size_segment a b x Ha Hb Hx). }
  rewrite last_app_one, (matchWxH_written a b x Ha Hb Hx).
  destruct pre as [|l [|m pre]]; try reflexivity.
  rewrite !length_app. simpl length.
  replace (2 <=? S (S (length pre)) + 1)%nat with true
    by (symmetry; apply Nat.leb_le; lia).
  replace (3 <=? S (S (length pre)) + 1)%nat with true
    by (symmetry; apply Nat.leb_le; lia).
  reflexivity.
Qed.

(** X17. Round trip of a banner folder: the folder [bannerFolderFor] derives
    from a language, a motive and a size is read back by
    [parseMetaFromBannerFolder] with the numbers its size segment is written
    with, and with the language and the motive when both are given. A motive
    given without a language is read back as the language. *)
Theorem banner_folder_read_back (outRoot : Path.path) (lang motive : option string)
        (w h : number) :
  (forall s, lang = Some s -> plainSegment s) ->
  (forall s, motive = Some s -> plainSegment s) ->
  digits (Num.toString w) -> digits (Num.toString h) ->
  let value_of o := match o with Some s => VStr s | None => VNull end in
  exists folder,
    bannerFolderFor outRoot (value_of lang) (value_of motive) w h = Ok folder
    /\ parseMetaFromBannerFolder outRoot folder
       = Some {| width := StringToNumber (Num.toString w);
                 height := StringToNumber (Num.toString h);
                 langCode := match lang, motive with
                             | Some l, _ => VStr l
                             | None, Some m => VStr m
                             | None, None => VNull
                             end;
                 motiveName := match lang, motive with
                               | Some _, Some m => VStr m
                               | _, _ => VNull
                               end |}.
Proof.
  intros Hl Hm Hw Hh value_of.
  set (pre := match lang with Some l => [l] | None => [] end
              ++ match motive with Some m => [m] | None => [] end).
  assert (Hpre : forall s, In s pre -> plainSegment s).
  { intros s Hs. apply in_app_iff in Hs. destruct Hs as [Hs|Hs].
    - destruct lang as [l|]; [|destruct Hs]. destruct Hs as [<-|[]]. auto.
    - destruct motive as [m|]; [|destruct Hs]. destruct Hs as [<-|[]]. auto. }
  exists (outRoot ++ pre ++ [Num.toString w +:+ String "x" (Num.toString h)]).
  split.
  - unfold bannerFolderFor.
    assert (Ht : forall o, (forall s, o = Some s -> plainSegment s) ->
                           (if truthy (value_of o)
                            then let* s := ToString (value_of o) in Ok [s]
                            else Ok [])
                           = Ok (match o with Some s => [s] | None => [] end)).
    { intros [s|] Hs; [|reflexivity]. simpl.
      destruct (Hs s eq_refl) as [Hne _]. apply String.eqb_neq in Hne.
      rewrite Hne. reflexivity. }
    rewrite (Ht lang Hl), (Ht motive Hm). simpl bind.
    rewrite join_segments.
    + subst pre. rewrite <- !app_assoc. reflexivity.
    + intros s Hs. rewrite app_assoc in Hs. apply in_app_iff in Hs.
      destruct Hs as [Hs|[<-|[]]]; [apply (Hpre s Hs)|].
      apply (digits_size_segment _ _ "x"%char Hw Hh eq_refl).
  - rewrite (parseMeta_rel outRoot pre _ _ "x"%char Hpre Hw Hh eq_refl).
    subst pre. destruct lang, motive; reflexivity.
Qed.

Lemma banner_folder_read_back_witness :
  exists folder,
    bannerFolderFor ["work"; "src"; "c"] VNull (VStr "teaser")
                    (Num.of_Z 300) (Num.of_Z 250)
    = Ok folder
    /\ parseMetaFromBannerFolder ["work"; "src"; "c"] folder
       = Some {| width := StringToNumber (Num.toString (Num.of_Z 300));
                 height := StringToNumber (Num.toString (Num.of_Z 250));
                 langCode := VStr "teaser";
                 motiveName := VNull |}.
Proof.
  apply (banner_folder_read_back ["work"; "src"; "c"] None (Some "teaser")
           (Num.of_Z 300) (Num.of_Z 250)).
  - discriminate.
  - intros s H. inversion H. repeat split; discriminate.
  - split; vm_compute; [discriminate | reflexivity].
  - split; vm_compute; [discriminate | reflexivity].
Defined.

Lemma find_spec (p : value -> result bool) (formats : list value) (r : value) :
  find p formats = Ok r ->
  (In r formats /\ p r = Ok true)
  \/ (r = VUndefined /\ forall f, In f formats -> p f = Ok false).
Proof.
  induction formats as [|f l IH]; simpl; intros H.
  - inversion H. right. split; [reflexivity | intros f []].
  - apply bind_ok_inv in H. destruct H as ([|] & Hp & H).
    + inversion H. subst r. left. auto.
    + destruct (IH H) as [[Hin Hr]|[-> Hall]]; [left; auto|].
      right. split; [reflexivity|]. intros g [<-|Hg]; auto.
Qed.

Lemma exactly_size (m : meta) (f : value) : exactly m f = Ok true -> hasSize m f.
Proof.
  unfold exactly. intros H.
  apply bind_ok_inv in H. destruct H as (fw & Hfw & H).
  apply bind_ok_inv in H. destruct H as (w & Hw & H).
  apply bind_ok_inv in H. destruct H as (fh & Hfh & H).
  apply bind_ok_inv in H. destruct H as (h & Hh & H).
  destruct (strictEq (VNum w) (VNum (width m))) eqn:Ew; [|discriminate].
  destruct (strictEq (VNum h) (VNum (height m))) eqn:Eh; [|discriminate].
  exists fw, fh, w, h. auto 10.
Qed.

Lemma bySize_size (m : meta) (f : value) (b : bool) :
  bySize m f = Ok b -> (b = true <-> hasSize m f).
Proof.
  unfold bySize. intros H.
  apply bind_ok_inv in H. destruct H as (fw & Hfw & H).
  apply bind_ok_inv in H. destruct H as (w & Hw & H).
  destruct (strictEq (VNum w) (VNum (width m))) eqn:Ew.
  - apply bind_ok_inv in H. destruct H as (fh & Hfh & H).
    apply bind_ok_inv in H. destruct H as (h & Hh & H).
    inversion H. subst b. split.
    + intros E. exists fw, fh, w, h. auto 10.
    + intros (fw' & fh' & w' & h' & H1 & H2 & H3 & H4 & _ & H6). congruence.
  - inversion H. subst b. split; [discriminate|].
    intros (fw' & fh' & w' & h' & H1 & H2 & _ & _ & H5 & _). congruence.
Qed.

(** X18. The format [findFormatForFolder] finds for a folder is one of the
    formats and has the width and the height of the folder, whatever its
    language and its motive; the answer is null exactly when no format has
    that size. *)
Theorem findFormatForFolder_size (formats : list value) (m : meta) (r : value) :
  findFormatForFolder formats (Some m) = Ok r ->
  (In r formats /\ hasSize m r)
  \/ (r = VNull /\ forall f, In f formats -> ~ hasSize m f).
Proof.
  unfold findFormatForFolder. intros H.
  apply bind_ok_inv in H. destruct H as (exact & He & H).
  assert (Hfall : forall f0,
             (let* f := find (bySize m) formats in Ok (coalesce f VNull)) = Ok f0 ->
             (In f0 formats /\ hasSize m f0)
             \/ (f0 = VNull /\ forall f, In f formats -> ~ hasSize m f)).
  { intros f0 H0. apply bind_ok_inv in H0. destruct H0 as (f & Hf & H0).
    inversion H0. subst f0. clear H0.
    destruct (find_spec _ _ _ Hf) as [[Hin Hp]|[-> Hall]].
    - pose proof (proj1 (bySize_size _ _ _ Hp) eq_refl) as Hs.
      assert (Hn : nullish f = false).
      { destruct Hs as (fw & _ & _ & _ & Hg & _).
        destruct f; try reflexivity; discriminate. }
      unfold coalesce. rewrite Hn. left. auto.
    - right. split; [reflexivity|]. intros f Hin Hs.
      pose proof (proj2 (bySize_size _ _ _ (Hall f Hin)) Hs). discriminate. }
  destruct (truthy exact) eqn:Et; [|apply Hfall, H].
  inversion H. subst r. clear H.
  destruct (find_spec _ _ _ He) as [[Hin Hp]|[-> _]]; [|discriminate].
  left. split; [exact Hin | apply exactly_size, Hp].
Qed.

Lemma findFormatForFolder_size_witness :
  (In Demo.banner300 [Demo.bannerWide; Demo.banner300]
   /\ hasSize {| width := Num.of_Z 300; height := Num.of_Z 250;
                 langCode := VStr "de"; motiveName := VNull |} Demo.banner300)
  \/ (Demo.banner300 = VNull
      /\ forall f, In f [Demo.bannerWide; Demo.banner300] ->
                   ~ hasSize {| width := Num.of_Z 300; height := Num.of_Z 250;
                                langCode := VStr "de"; motiveName := VNull |} f).
Proof.
  apply (findFormatForFolder_size [Demo.bannerWide; Demo.banner300]
           {| width := Num.of_Z 300; height := Num.of_Z 250;
              langCode := VStr "de"; motiveName := VNull |} Demo.banner300).
  vm_compute. reflexivity.
Defined.

(** ** Rendering keeps the dynamic sources *)

Lemma endsWith_split (s p : string) :
  Str.endsWith s p = true -> exists a, s = a +:+ p.
Proof.
  induction s as [|c s IH].
  - cbn [Str.endsWith]. rewrite orb_false_r. intros H.
    apply String.eqb_eq in H. subst p. exists "". reflexivity.
  - cbn [Str.endsWith]. intros H. apply orb_true_iff in H. destruct H as [H|H].
    + apply String.eqb_eq in H. subst p. exists "". reflexivity.
    + destruct (IH H) as (a & ->). exists (String c a). reflexivity.
Qed.

Lemma substring_app (a p : string) : substring 0 (String.length a) (a +:+ p) = a.
Proof.
  induction a as [|c a IH]; simpl.
  - destruct p; reflexivity.
  - rewrite IH. reflexivity.
Qed.

Lemma dropEnd_app (a p : string) : Str.dropEnd (String.length p) (a +:+ p) = a.
Proof.
  unfold Str.dropEnd. rewrite length_app_str.
  replace (String.length a + String.length p - String.length p)%nat
    with (String.length a) by lia.
  apply substring_app.
Qed.

Lemma source_name (name : string) :
  Str.endsWith name ".mustache" = true ->
  name = Str.dropEnd 9 name +:+ ".mustache".
Proof.
  intros H. destruct (endsWith_split _ _ H) as (a & ->).
  pose proof (dropEnd_app a ".mustache") as Hd. simpl String.length in Hd.
  rewrite Hd. reflexivity.
Qed.

Lemma output_not_source (name : string) :
  Str.endsWith name ".mustache" = true ->
  Str.endsWith name ".mustache.mustache" = false ->
  Str.endsWith (Str.dropEnd 9 name) ".mustache" = false.
Proof.
  intros H Hn. destruct (Str.endsWith (Str.dropEnd 9 name) ".mustache") eqn:E;
    [|reflexivity].
  destruct (endsWith_split _ _ E) as (b & Hb).
  rewrite (source_name name H), Hb, app_assoc_str in Hn.
  change (".mustache" +:+ ".mustache") with ".mustache.mustache" in Hn.
  rewrite endsWith_app in Hn. discriminate.
Qed.

Lemma noSourceOfSource_child (d : entries) (k : string) (c : node) :
  noSourceOfSource (Dir d) -> In (k, c) d ->
  Str.endsWith k ".mustache.mustache" = false /\ noSourceOfSource c.
Proof.
  induction d as [|[k' c'] d IH]; intros Hall Hin; [destruct Hin|].
  destruct Hall as (Hk & Hc & Hall). destruct Hin as [H|H].
  - inversion H. subst. auto.
  - apply (IH Hall H).
Qed.

Lemma renderEntries_cons data ow (name : string) (child : node)
      (r : list (string * node)) (cur : entries) :
  renderEntries data ow ((name, child) :: r) cur
  = match child with
    | Dir _ =>
        let* sub := renderNode data ow child in
        renderEntries data ow r (put name sub cur)
    | File _ =>
        if negb (Str.endsWith name ".mustache") then renderEntries data ow r cur
        else
          let outName := Str.dropEnd 9 name in
          if negb ow && hasEntry outName cur then renderEntries data ow r cur
          else
            match lookup name cur with
            | Some (File raw) =>
                let* cur' := writeFile outName (Rendered raw data) cur in
                renderEntries data ow r cur'
            | _ => Err IOError
            end
    end.
Proof. reflexivity. Qed.


Lemma done_fresh (done r : entries) (name : string) (child x : node) :
  NoDup (map fst (done ++ (name, child) :: r)) -> ~ In (name, x) done.
Proof.
  intros Hnd Hin. rewrite map_app in Hnd. apply NoDup_app in Hnd.
  destruct Hnd as (_ & Hdis & _).
  apply (Hdis name).
  - apply list_elem_of_In. change name with (fst (name, x)). apply in_map, Hin.
  - simpl. left.
Qed.

Lemma renderEntries_sources data (d : entries) :
  NoDup (map fst d) -> noSourceOfSource (Dir d) ->
  forall l done cur es',
    d = done ++ l ->
    renderedSoFar data d done cur ->
    renderEntries data true l cur = Ok es' ->
    renderedSoFar data d d es'.
Proof.
  intros Hnd Hns.
  induction l as [|[name child] r IH]; intros done cur es' Hd Inv H.
  - rewrite app_nil_r in Hd. subst done. inversion H. subst. exact Inv.
  - assert (Hin : In (name, child) d)
      by (rewrite Hd; apply in_app_iff; right; left; reflexivity).
    assert (Hl : lookup name d = Some child) by (apply lookup_listed; assumption).
    assert (Hfresh : forall x, ~ In (name, x) done)
      by (intros x; apply (done_fresh done r name child x); rewrite <- Hd; exact Hnd).
    assert (Hd' : d = (done ++ [(name, child)]) ++ r)
      by (rewrite <- app_assoc; exact Hd).
    destruct Inv as (Ia & Ib & Ic & Id).
    rewrite renderEntries_cons in H. destruct child as [c|sub].
    + destruct (Str.endsWith name ".mustache") eqn:Esrc; simpl negb in H; cbv iota in H.
      2:{ refine (IH _ _ _ Hd' _ H). repeat split; auto.
          - intros n1 s1 Hn1. apply in_app_iff in Hn1.
            destruct Hn1 as [Hn1|[Hn1|[]]]; [auto | discriminate].
          - intros n1 r1 Hn1 He. apply in_app_iff in Hn1.
            destruct Hn1 as [Hn1|[Hn1|[]]]; [auto|]. inversion Hn1. congruence. }
      simpl andb in H. cbv iota in H.
      rewrite (Ia name c Hl Esrc) in H.
      apply bind_ok_inv in H. destruct H as (cur' & Hw & H).
      unfold writeFile in Hw.
      destruct (Str.dropEnd 9 name =? "")%string; [discriminate|].
      assert (Hout : (forall x, lookup (Str.dropEnd 9 name) cur <> Some (Dir x))
                     /\ cur' = put (Str.dropEnd 9 name) (File (Rendered c data)) cur).
      { destruct (lookup (Str.dropEnd 9 name) cur) as [[c0|sub0]|];
          try discriminate; inversion Hw; split; try reflexivity; intros x; discriminate. }
      destruct Hout as [Hnodir ->]. clear Hw.
      destruct (noSourceOfSource_child d name _ Hns Hin) as [Hnot _].
      pose proof (output_not_source name Esrc Hnot) as Hplain.
      refine (IH _ _ _ Hd' _ H). repeat split.
      * intros n1 r1 Hn1 He. rewrite lookup_put_ne; [auto|].
        intros E. rewrite <- E in He. congruence.
      * intros n1 s1 Hn1. destruct (Ib n1 s1 Hn1) as (x & Hx).
        exists x. rewrite lookup_put_ne; [exact Hx|].
        intros E. rewrite <- E in Hx. apply (Hnodir x Hx).
      * intros n1 s1 Hn1. apply in_app_iff in Hn1.
        destruct Hn1 as [Hn1|[Hn1|[]]]; [|discriminate].
        destruct (Ic n1 s1 Hn1) as (s' & Hr & Hs'). exists s'. split; [exact Hr|].
        rewrite lookup_put_ne; [exact Hs'|].
        intros E. rewrite <- E in Hs'.
        destruct (renderNode_dir_ok _ _ _ _ Hr) as (es & ->).
        apply (Hnodir es Hs').
      * intros n1 r1 Hn1 He. apply in_app_iff in Hn1.
        destruct Hn1 as [Hn1|[Hn1|[]]].
        -- rewrite lookup_put_ne; [auto|].
           intros E. apply (Hfresh (File r1)).
           replace name with n1; [exact Hn1|].
           rewrite (source_name n1 He), (source_name name Esrc), E. reflexivity.
        -- inversion Hn1. subst. apply lookup_put_eq.
    + apply bind_ok_inv in H. destruct H as (sub' & Hr & H).
      destruct (renderNode_dir_ok _ _ _ _ Hr) as (es & ->).
      refine (IH _ _ _ Hd' _ H). repeat split.
      * intros n1 r1 Hn1 He. rewrite lookup_put_ne; [auto|].
        intros E. subst n1. congruence.
      * intros n1 s1 Hn1. destruct (string_dec name n1) as [<-|Hne].
        -- rewrite lookup_put_eq. eauto.
        -- rewrite lookup_put_ne by exact Hne. eauto.
      * intros n1 s1 Hn1. apply in_app_iff in Hn1.
        destruct Hn1 as [Hn1|[Hn1|[]]].
        -- destruct (Ic n1 s1 Hn1) as (s' & Hr' & Hs'). exists s'.
           split; [exact Hr'|]. rewrite lookup_put_ne; [exact Hs'|].
           intros E. subst n1. apply (Hfresh _ Hn1).
        -- inversion Hn1. subst. exists (Dir es). split; [exact Hr|].
           apply lookup_put_eq.
      * intros n1 r1 Hn1 He. apply in_app_iff in Hn1.
        destruct Hn1 as [Hn1|[Hn1|[]]]; [|discriminate].
        rewrite lookup_put_ne; [auto|].
        intros E. destruct (Ib name sub Hl) as (x & Hx).
        pose proof (Id n1 r1 Hn1 He) as Ho. rewrite <- E in Ho. congruence.
Qed.

Lemma renderNode_sources data (n : node) :
  wellListed n -> noSourceOfSource n ->
  forall n',
    renderNode data true n = Ok n' ->
    forall p name raw,
      at_path (p ++ [name]) n = Some (File raw) ->
      Str.endsWith name ".mustache" = true ->
      at_path (p ++ [name]) n' = Some (File raw)
      /\ at_path (p ++ [Str.dropEnd 9 name]) n' = Some (File (Rendered raw data)).
Proof.
  induction n as [c | d IH] using node_ind_deep;
    intros Hwl Hns n' H p name raw Hat Hsrc.
  { destruct p; discriminate. }
  rewrite renderNode_dir in H. apply bind_ok_inv in H.
  destruct H as (es' & Hes & H). inversion H. subst n'. clear H.
  pose proof Hwl as [Hnd _].
  assert (Inv0 : renderedSoFar data d [] d).
  { repeat split; auto.
    - intros n1 s1 Hn1. eauto.
    - intros n1 s1 []. 
    - intros n1 r1 []. }
  pose proof (renderEntries_sources data d Hnd Hns d [] d es' eq_refl Inv0 Hes)
    as (Ia & Ib & Ic & Id).
  destruct p as [|seg p].
  - simpl in Hat |- *. destruct (lookup name d) as [x|] eqn:El; [|discriminate].
    inversion Hat. subst x.
    rewrite (Ia name raw El Hsrc).
    rewrite (Id name raw); auto.
    apply (assoc_In name (File raw) d Hnd). exact El.
  - change ((seg :: p) ++ [name]) with (seg :: (p ++ [name])) in *.
    change ((seg :: p) ++ [Str.dropEnd 9 name])
      with (seg :: (p ++ [Str.dropEnd 9 name])).
    simpl at_path in Hat |- *.
    destruct (lookup seg d) as [child|] eqn:El; [|discriminate].
    destruct child as [c|sub]; [destruct p; discriminate|].
    assert (Hin : In (seg, Dir sub) d) by (apply (assoc_In seg (Dir sub) d Hnd); exact El).
    destruct (Ic seg sub Hin) as (sub' & Hr & Hs'). rewrite Hs'.
    rewrite Forall_forall in IH.
    apply (IH (seg, Dir sub) (proj2 (list_elem_of_In _ _) Hin)
              (wellListed_child d seg _ Hwl Hin)
              (proj2 (noSourceOfSource_child d seg _ Hns Hin))
              sub' Hr p name raw Hat Hsrc).
Qed.

(** X19. Rendering leaves the dynamic sources as they are, at every depth of the
    folder, and writes beside each of them the file rendered from it, in a
    folder where no name is the source of a source. *)
Theorem render_keeps_sources data (d d' : entries) :
  wellListed (Dir d) -> noSourceOfSource (Dir d) ->
  renderFromMustacheFiles d data true = Ok d' ->
  forall p name raw,
    at_path (p ++ [name]) (Dir d) = Some (File raw) ->
    Str.endsWith name ".mustache" = true ->
    at_path (p ++ [name]) (Dir d') = Some (File raw)
    /\ at_path (p ++ [Str.dropEnd 9 name]) (Dir d')
       = Some (File (Rendered raw data)).
Proof.
  intros Hwl Hns H. unfold renderFromMustacheFiles in H.
  apply bind_ok_inv in H. destruct H as (n & Hn & H).
  destruct (renderNode_dir_ok _ _ _ _ Hn) as (es & ->). inversion H. subst d'.
  apply (renderNode_sources data (Dir d) Hwl Hns (Dir es) Hn).
Qed.

Lemma render_keeps_sources_witness :
  at_path (["css"] ++ ["style.css.mustache"])
          (Dir (match renderFromMustacheFiles Samples.dynamicFolder (VObj []) true with
                | Ok d' => d'
                | Err _ => []
                end))
  = Some (File (Text "body{}"))
  /\ at_path (["css"] ++ [Str.dropEnd 9 "style.css.mustache"])
             (Dir (match renderFromMustacheFiles Samples.dynamicFolder (VObj []) true with
                   | Ok d' => d'
                   | Err _ => []
                   end))
     = Some (File (Rendered (Text "body{}") (VObj []))).
Proof.
  apply (render_keeps_sources (VObj []) Samples.dynamicFolder).
  - vm_compute. repeat split; try (apply (bool_decide_unpack _); vm_compute; exact I).
  - vm_compute. repeat split.
  - vm_compute. reflexivity.
  - reflexivity.
  - reflexivity.
Defined.

(** ** What a run may change *)

Lemma touchesOnly_ret {A : Type} folder zip (a : A) : touchesOnly folder zip (ret a).
Proof. intros w w' r H. inversion H. auto. Qed.

Lemma touchesOnly_throw {A : Type} folder zip (x : exn) :
  touchesOnly folder zip (throw (A := A) x).
Proof. intros w w' r H. inversion H. auto. Qed.

Lemma touchesOnly_lift {A : Type} folder zip (x : result A) :
  touchesOnly folder zip (lift x).
Proof. intros w w' r H. inversion H. auto. Qed.

Lemma touchesOnly_read {A : Type} folder zip (f : world -> result A) :
  touchesOnly folder zip (fun w => (w, f w)).
Proof. intros w w' r H. inversion H. auto. Qed.

Lemma touchesOnly_bind {A B : Type} folder zip (m : M A) (k : A -> M B) :
  touchesOnly folder zip m -> (forall a, touchesOnly folder zip (k a)) ->
  touchesOnly folder zip (bindM m k).
Proof.
  intros Hm Hk w w' r H. unfold bindM in H.
  destruct (m w) as [w1 [a|x]] eqn:E.
  - destruct (Hm _ _ _ E) as [H1 H2]. destruct (Hk a _ _ _ H) as [H3 H4]. split.
    + intros f Hf. rewrite (H3 f Hf). apply (H1 f Hf).
    + intros Hz. destruct (H2 Hz) as [E1 E2]. destruct (H4 Hz) as [E3 E4].
      split; congruence.
  - inversion H. subst. apply (Hm _ _ _ E).
Qed.

Lemma touchesOnly_setFolder folder zip (d : entries) :
  touchesOnly (Some folder) zip (setFolder folder d).
Proof.
  intros w w' r H. inversion H. simpl. split; [|auto].
  intros f Hf. apply lookup_insert_ne. congruence.
Qed.

Lemma touchesOnly_setZip folder zipPath a : touchesOnly folder true (setZip zipPath a).
Proof. intros w w' r H. inversion H. simpl. split; [auto | discriminate]. Qed.

Lemma touchesOnly_checkZipSize folder e zipPath fmt maxBytes :
  touchesOnly folder true (checkZipSize e zipPath fmt maxBytes).
Proof.
  intros w w' r H. split; [|discriminate].
  intros f _. apply (keepsBanners_checkZipSize e zipPath fmt maxBytes w w' r) in H.
  rewrite H. reflexivity.
Qed.

Lemma touchesOnly_generate e o cfg campaign zipRoot idx fmt t ex ty d2 assets af sig c :
  touchesOnly (Some (bannerFolder t)) (shouldZip o)
              (generate e o cfg campaign zipRoot idx fmt t ex ty d2 assets af sig c).
Proof.
  unfold generate.
  repeat (first [ apply touchesOnly_ret
                | apply touchesOnly_bind;
                  [first [apply touchesOnly_lift | apply touchesOnly_setFolder | idtac]
                  | intros ?] ]).
  destruct (shouldZip o); [|apply touchesOnly_ret].
  repeat (first [ apply touchesOnly_ret
                | apply touchesOnly_bind;
                  [first [apply touchesOnly_lift | apply touchesOnly_setZip
                         | apply touchesOnly_checkZipSize]
                  | intros ?] ]).
Qed.

Lemma touchesOnly_reconcile e o cfg campaign zipRoot idx fmt t c :
  touchesOnly (Some (bannerFolder t)) (shouldZip o)
              (reconcile e o cfg campaign zipRoot idx fmt t c).
Proof.
  unfold reconcile.
  apply touchesOnly_bind; [apply touchesOnly_read|]. intros found.
  apply touchesOnly_bind; [apply touchesOnly_read|]. intros ex.
  destruct (negb (shouldProcessBanner (mode o) ex)); [apply touchesOnly_ret|].
  apply touchesOnly_bind; [apply touchesOnly_lift|]. intros [ty root].
  destruct (negb (bool_decide (is_Some (templates e !! root))));
    [apply touchesOnly_throw|].
  repeat (apply touchesOnly_bind;
          [first [apply touchesOnly_lift | apply touchesOnly_setFolder] | intros ?]).
  destruct (negb (shouldRenderBanner _ _ _ _ _));
    [apply touchesOnly_ret | apply touchesOnly_generate].
Qed.

(** A format leaves alone every banner folder that the mode rules out:
    either the format derives another folder, or it is skipped. *)
Lemma processFormat_ruled_out e o cfg campaign outRoot zipRoot idx fmt c folder w w' r :
  shouldProcessBanner (mode o) (bannerExists w folder) = false ->
  processFormat e o cfg campaign outRoot zipRoot idx fmt c w = (w', r) ->
  banners w' !! folder = banners w !! folder
  /\ (shouldZip o = false -> zips w' = zips w /\ console w' = console w).
Proof.
  intros Hout H. unfold processFormat in H. unfold bindM, lift in H.
  destruct (locate e o cfg outRoot idx fmt) as [[t|]|x].
  - destruct (decide (bannerFolder t = folder)) as [E|E].
    + subst folder. unfold reconcile in H.
      rewrite (bindM_eval (folderEntries _) _ w w _ eq_refl) in H.
      rewrite (bindM_eval _ _ w w (bannerExists w (bannerFolder t)) eq_refl) in H.
      rewrite Hout in H. inversion H. auto.
    + destruct (touchesOnly_reconcile e o cfg campaign zipRoot idx fmt t c _ _ _ H)
        as [H1 H2].
      split; [|exact H2]. apply H1. congruence.
  - inversion H. auto.
  - inversion H. auto.
Qed.

Lemma loop_ruled_out e o cfg campaign outRoot zipRoot folder (formats : list value) :
  forall idx c w w' r,
    shouldProcessBanner (mode o) (bannerExists w folder) = false ->
    loop e o cfg campaign outRoot zipRoot idx formats c w = (w', r) ->
    banners w' !! folder = banners w !! folder
    /\ (shouldZip o = false -> zips w' = zips w /\ console w' = console w).
Proof.
  induction formats as [|fmt rest IH]; intros idx c w w' r Hout H.
  - inversion H. auto.
  - simpl in H. unfold bindM in H.
    destruct (processFormat e o cfg campaign outRoot zipRoot idx fmt c w)
      as [w1 [c1|x]] eqn:E.
    + destruct (processFormat_ruled_out _ _ _ _ _ _ _ _ _ _ _ _ _ Hout E) as [H1 H2].
      assert (Hout1 : shouldProcessBanner (mode o) (bannerExists w1 folder) = false)
        by (unfold bannerExists in *; rewrite H1; exact Hout).
      destruct (IH _ _ _ _ _ Hout1 H) as [H3 H4]. split.
      * rewrite H3. exact H1.
      * intros Hz. destruct (H2 Hz) as [E1 E2]. destruct (H4 Hz) as [E3 E4].
        split; congruence.
    + inversion H. subst. apply (processFormat_ruled_out _ _ _ _ _ _ _ _ _ _ _ _ _ Hout E).
Qed.

(** X20. A banner folder that the mode rules out, an existing one in create-only
    mode or a missing one in update mode, is left exactly as it is by the
    whole run, whether the run completes or fails, provided the folder is
    clear of the run: the folder of no other format and no archive lies in
    it, and it lies in none of them. *)
Theorem run_leaves_ruled_out e o cfg folder w w' r :
  clearOf e o cfg folder ->
  shouldProcessBanner (mode o) (bannerExists w folder) = false ->
  generateFromFormatsJson e o cfg w = (w', r) ->
  banners w' !! folder = banners w !! folder.
Proof.
  intros _ Hout H. unfold generateFromFormatsJson in H. unfold bindM at 1, lift at 1 in H.
  destruct (readFormatsFromCfg cfg) as [formats|x]; [|inversion H; reflexivity].
  destruct (length formats =? 0)%nat; [inversion H; reflexivity|].
  unfold bindM at 1, lift at 1 in H.
  destruct (get cfg "campaign") as [cc|x]; [|inversion H; reflexivity].
  unfold bindM at 1, lift at 1 in H.
  destruct (buildRoots e _ _) as [roots|x]; [|inversion H; reflexivity].
  apply (loop_ruled_out _ _ _ _ _ _ _ _ _ _ _ _ _ Hout H).
Qed.

Lemma run_leaves_ruled_out_witness :
  banners (fst (generateFromFormatsJson Demo.host (Demo.run "create-only")
                  Demo.campaign1 Demo.afterRun1))
  !! Demo.folder300
  = banners Demo.afterRun1 !! Demo.folder300.
Proof.
  apply (run_leaves_ruled_out Demo.host (Demo.run "create-only") Demo.campaign1
           Demo.folder300 Demo.afterRun1 _
           (snd (generateFromFormatsJson Demo.host (Demo.run "create-only")
                   Demo.campaign1 Demo.afterRun1))).
  - split.
    + intros formats outRoot i fi ti Hf Hroot Hi Hli.
      vm_compute in Hf. inversion Hf. subst formats. clear Hf.
      vm_compute in Hroot. inversion Hroot. subst outRoot. clear Hroot.
      destruct i as [|i]; simpl in Hi; [|discriminate].
      inversion Hi. subst fi. vm_compute in Hli. inversion Hli. left. reflexivity.
    + intros _. split; apply (bool_decide_unpack _); vm_compute; exact I.
  - vm_compute. reflexivity.
  - apply surjective_pairing.
Defined.

Lemma processFormat_no_zip e o cfg campaign outRoot zipRoot idx fmt c w w' r :
  shouldZip o = false ->
  processFormat e o cfg campaign outRoot zipRoot idx fmt c w = (w', r) ->
  zips w' = zips w /\ console w' = console w.
Proof.
  intros Hz H. unfold processFormat in H. unfold bindM, lift in H.
  destruct (locate e o cfg outRoot idx fmt) as [[t|]|x].
  - destruct (touchesOnly_reconcile e o cfg campaign zipRoot idx fmt t c _ _ _ H)
      as [_ H2].
    apply H2, Hz.
  - inversion H. auto.
  - inversion H. auto.
Qed.

Lemma loop_no_zip e o cfg campaign outRoot zipRoot (formats : list value) :
  shouldZip o = false ->
  forall idx c w w' r,
    loop e o cfg campaign outRoot zipRoot idx formats c w = (w', r) ->
    zips w' = zips w /\ console w' = console w.
Proof.
  intros Hz. induction formats as [|fmt rest IH]; intros idx c w w' r H.
  - inversion H. auto.
  - simpl in H. unfold bindM in H.
    destruct (processFormat e o cfg campaign outRoot zipRoot idx fmt c w)
      as [w1 [c1|x]] eqn:E.
    + destruct (processFormat_no_zip _ _ _ _ _ _ _ _ _ _ _ _ Hz E) as [E1 E2].
      destruct (IH _ _ _ _ _ H) as [E3 E4]. split; congruence.
    + inversion H. subst. apply (processFormat_no_zip _ _ _ _ _ _ _ _ _ _ _ _ Hz E).
Qed.

(** X21. Without [--zip] a run writes no archive and prints no size line,
    whether it completes or fails. *)
Theorem no_zip_no_archive e o cfg w w' r :
  shouldZip o = false ->
  generateFromFormatsJson e o cfg w = (w', r) ->
  zips w' = zips w /\ console w' = console w.
Proof.
  intros Hz H. unfold generateFromFormatsJson in H. unfold bindM at 1, lift at 1 in H.
  destruct (readFormatsFromCfg cfg) as [formats|x]; [|inversion H; auto].
  destruct (length formats =? 0)%nat; [inversion H; auto|].
  unfold bindM at 1, lift at 1 in H.
  destruct (get cfg "campaign") as [cc|x]; [|inversion H; auto].
  unfold bindM at 1, lift at 1 in H.
  destruct (buildRoots e _ _) as [roots|x]; [|inversion H; auto].
  apply (loop_no_zip _ _ _ _ _ _ _ Hz _ _ _ _ _ H).
Qed.

Lemma no_zip_no_archive_witness :
  let o := {| outDirOverride := VNull; campaignOverride := VNull;
              clicktagOverride := VNull; shouldZip := false;
              templateOverride := VNull; mode := "update";
              runFilters := noFilters |} in
  zips (fst (generateFromFormatsJson Demo.host o Demo.campaign1 Demo.afterRun1))
  = zips Demo.afterRun1
  /\ console (fst (generateFromFormatsJson Demo.host o Demo.campaign1 Demo.afterRun1))
     = console Demo.afterRun1.
Proof.
  intros o.
  apply (no_zip_no_archive Demo.host o Demo.campaign1 Demo.afterRun1 _
           (snd (generateFromFormatsJson Demo.host o Demo.campaign1 Demo.afterRun1))).
  - reflexivity.
  - apply surjective_pairing.
Defined.

(** ** The template copy never overwrites *)

Lemma copyNode_keeps_files (filter : Path.path -> bool) (s : node) :
  forall (src : Path.path) (d : option node) (n' : node) (p : list string) (c : content),
    copyNode filter src s d = Ok n' ->
    at_path_from p d = Some (File c) ->
    at_path p n' = Some (File c).
Proof.
  induction s as [c0 | items IH] using node_ind_deep; intros src d n' p c Hc Hp.
  - simpl in Hc. destruct d as [[c'|es]|]; inversion Hc; subst; try exact Hp.
    destruct p; discriminate.
  - simpl in Hc.
    assert (Hitems :
              forall acc es',
                (fix copyItems (items : list (string * node)) (acc : entries)
                   : result entries :=
                   match items with
                   | [] => Ok acc
                   | (name, child) :: r =>
                       if filter (src ++ [name])
                       then
                         let* n := copyNode filter (src ++ [name]) child (lookup name acc) in
                         copyItems r (put name n acc)
                       else copyItems r acc
                   end) items acc = Ok es' ->
                forall seg rest,
                  at_path (seg :: rest) (Dir acc) = Some (File c) ->
                  at_path (seg :: rest) (Dir es') = Some (File c)).
    { clear Hc Hp. induction items as [|[name child] items IHitems];
        intros acc es' Hes seg rest Hat.
      - inversion Hes. subst. exact Hat.
      - apply Forall_cons in IH. destruct IH as [IHchild IHrest]. simpl in IHchild.
        destruct (filter (src ++ [name])) eqn:Ef.
        + apply bind_ok_inv in Hes. destruct Hes as (n & Hn & Hes).
          apply (IHitems IHrest _ _ Hes).
          rewrite at_path_dir in Hat |- *.
          destruct (String.eqb_spec name seg) as [-> | Hne].
          * rewrite lookup_put_eq. simpl at_path_from.
            apply (IHchild _ _ _ _ _ Hn Hat).
          * rewrite lookup_put_ne by exact Hne. exact Hat.
        + apply (IHitems IHrest _ _ Hes _ _ Hat). }
    destruct d as [[c'|es]|]; [discriminate| |];
      apply bind_ok_inv in Hc; destruct Hc as (es' & Hes & Hc);
      inversion Hc; subst n'; clear Hc.
    + destruct p as [|seg rest]; [discriminate|].
      apply (Hitems _ _ Hes). exact Hp.
    + destruct p; discriminate.
Qed.

(** X22. Instantiating a template never overwrites: every file the banner folder
    holds before, at any depth, it holds afterwards with the same content. *)
Theorem template_copy_keeps_files e templateRoot (d d' : entries) (ex : bool) :
  ensureTemplateOnCreate e templateRoot d ex = Ok d' ->
  forall p c, at_path p (Dir d) = Some (File c) -> at_path p (Dir d') = Some (File c).
Proof.
  intros H p c Hp. unfold ensureTemplateOnCreate in H.
  destruct ex; [inversion H; subst; exact Hp|].
  destruct (templates e !! templateRoot) as [t|]; [|discriminate].
  apply bind_ok_inv in H. destruct H as (r & Hr & H).
  unfold copy in Hr. destruct (clash _ _); [discriminate|].
  destruct (outsideAssets templateRoot).
  - apply bind_ok_inv in Hr. destruct Hr as (n & Hn & Hr). inversion Hr. subst r.
    pose proof (copyNode_keeps_files _ _ _ _ _ p c Hn Hp) as Hat.
    destruct n as [c0|es]; inversion H; subst; [exact Hp | exact Hat].
  - inversion Hr. subst r. inversion H. subst. exact Hp.
Qed.

Lemma template_copy_keeps_files_witness :
  ensureTemplateOnCreate Demo.host ["app"; "templates"; "standard"]
                         Samples.ownStyle false
  = Ok [("style.css", File (Text "mine"));
        ("index.html.mustache", File (Text "<html>{{WIDTH}}</html>"));
        ("assets", Dir [])]
  /\ at_path ["style.css"]
             (Dir [("style.css", File (Text "mine"));
                   ("index.html.mustache", File (Text "<html>{{WIDTH}}</html>"));
                   ("assets", Dir [])])
     = Some (File (Text "mine")).
Proof.
  assert (H : ensureTemplateOnCreate Demo.host ["app"; "templates"; "standard"]
                                     Samples.ownStyle false
              = Ok [("style.css", File (Text "mine"));
                    ("index.html.mustache", File (Text "<html>{{WIDTH}}</html>"));
                    ("assets", Dir [])])
    by (vm_compute; reflexivity).
  split; [exact H|].
  exact (template_copy_keeps_files Demo.host ["app"; "templates"; "standard"]
           Samples.ownStyle _ false H ["style.css"] (Text "mine") eq_refl).
Defined.

(** ** The archive of a generated banner *)




(** ** The preview page: what an item shows *)

Lemma join_snoc (sep : string) (l : list string) (s : string) :
  l <> [] -> Str.join sep (l ++ [s]) = Str.join sep l +:+ sep +:+ s.
Proof.
  induction l as [|x l IH]; intros Hne; [congruence|].
  destruct l as [|y l].
  - reflexivity.
  - change (Str.join sep ((x :: y :: l) ++ [s]))
      with (x +:+ sep +:+ Str.join sep ((y :: l) ++ [s])).
    rewrite IH by discriminate.
    change (Str.join sep (x :: y :: l)) with (x +:+ sep +:+ Str.join sep (y :: l)).
    rewrite !app_assoc_str. reflexivity.
Qed.

Lemma lowercase_app (a b : string) :
  Str.lowercase (a +:+ b) = Str.lowercase a +:+ Str.lowercase b.
Proof. induction a as [|c a IH]; simpl; [reflexivity | rewrite IH; reflexivity]. Qed.

(** X24. The item of the preview page for the page of a banner folder: its link
    is the path of the page below the source root, written with [/]; its
    width and its height are the numbers of the folder's name, and its label
    is that size in its normal form. *)
Theorem preview_item_of_banner (sourceRoot : Path.path) (pre : list string)
        (a b : string) (x : ascii) :
  (forall s, In s pre -> plainSegment s) ->
  digits a -> digits b -> Str.lower x = "x"%char ->
  Num.isFinite (StringToNumber a) = true ->
  Num.isFinite (StringToNumber b) = true ->
  indexFileToPreviewItem sourceRoot
    (sourceRoot ++ (pre ++ [a +:+ String x b]) ++ ["index.html"])
  = {| href := Str.join "/" (pre ++ [a +:+ String x b]) +:+ "/index.html";
       label := Num.toString (StringToNumber a) +:+ "x"
                +:+ Num.toString (StringToNumber b);
       w := StringToNumber a;
       h := StringToNumber b |}.
Proof.
  intros Hpre Ha Hb Hx Hfa Hfb. unfold indexFileToPreviewItem.
  rewrite relative_below.
  rewrite (join_snoc "/" (pre ++ [a +:+ String x b]) "index.html")
    by (destruct pre; discriminate).
  change ("/" +:+ "index.html") with "/index.html".
  set (folder := Str.join "/" (pre ++ [a +:+ String x b])).
  rewrite lowercase_app.
  change (Str.lowercase "/index.html") with "/index.html".
  rewrite endsWith_app.
  pose proof (dropEnd_app folder "/index.html") as Hd. simpl String.length in Hd.
  rewrite Hd. subst folder.
  rewrite (split_join "/"%char).
  2:{ destruct pre; discriminate. }
  2:{ intros s Hs. apply in_app_iff in Hs. destruct Hs as [Hs|[<-|[]]].
      - apply (Hpre s Hs).
      - apply (digits_size_segment a b x Ha Hb Hx). }
  rewrite last_app_one, (matchWxH_written a b x Ha Hb Hx).
  rewrite Hfa, Hfb. reflexivity.
Qed.

Lemma preview_item_of_banner_witness :
  indexFileToPreviewItem ["work"; "src"]
    (["work"; "src"] ++ (["c"; "en"] ++ ["0300X250"]) ++ ["index.html"])
  = {| href := "c/en/0300X250/index.html";
       label := "300x250";
       w := StringToNumber "0300";
       h := StringToNumber "250" |}.
Proof.
  apply (preview_item_of_banner ["work"; "src"] ["c"; "en"] "0300" "250" "X"%char).
  - intros s [<-|[<-|[]]]; repeat split; discriminate.
  - split; [discriminate | reflexivity].
  - split; [discriminate | reflexivity].
  - reflexivity.
  - vm_compute. reflexivity.
  - vm_compute. reflexivity.
Defined.

(** ** The filters of the command line *)

Lemma parseCsvSet_arg (args : list string) (flag : string) :
  exists r, parseCsvSet (getArgValue args flag) = Ok r.
Proof.
  unfold getArgValue. destruct (indexOf flag args) as [i|]; [|eexists; reflexivity].
  destruct (nth_error args (S i)) as [v|]; [|eexists; reflexivity].
  unfold parseCsvSet. destruct (truthy (VStr v)); eexists; reflexivity.
Qed.

Lemma parseIndexSet_arg (args : list string) (flag : string) :
  exists r, parseIndexSet (getArgValue args flag) = Ok r.
Proof.
  unfold getArgValue. destruct (indexOf flag args) as [i|]; [|eexists; reflexivity].
  destruct (nth_error args (S i)) as [v|]; [|eexists; reflexivity].
  unfold parseIndexSet. destruct (truthy (VStr v)); eexists; reflexivity.
Qed.

(** X25. What follows the first [--only-lang] on the command line, read as a
    comma-separated set, is the language filter of the run, whatever else
    the command line holds; and sizes given as free arguments take the place
    of [--only-size]. *)
Theorem buildFilters_lang (pre post : list string) (v : string)
        (sizes : option (list string)) :
  ~ In "--only-lang" pre ->
  exists fl,
    buildFilters (pre ++ "--only-lang" :: v :: post) sizes = Ok fl
    /\ parseCsvSet (VStr v) = Ok (onlyLang fl)
    /\ (forall s, sizes = Some s -> onlySize fl = Some s).
Proof.
  intros Hpre. unfold buildFilters.
  set (args := pre ++ "--only-lang" :: v :: post).
  assert (Hsize : exists r,
             match sizes with
             | Some s => Ok (Some s)
             | None => parseCsvSet (getArgValue args "--only-size")
             end = Ok r /\ forall s, sizes = Some s -> r = Some s).
  { destruct sizes as [s|].
    - exists (Some s). split; [reflexivity|]. intros s' H. exact H.
    - destruct (parseCsvSet_arg args "--only-size") as (r & Hr).
      exists r. split; [exact Hr | discriminate]. }
  destruct Hsize as (rs & -> & Hrs). simpl bind.
  assert (Hlang : getArgValue args "--only-lang" = VStr v)
    by (apply getArgValue_after, Hpre).
  destruct (parseCsvSet_arg args "--only-lang") as (rl & Hrl).
  rewrite Hrl. rewrite Hlang in Hrl.
  destruct (parseCsvSet_arg args "--only-motive") as (rm & ->).
  destruct (parseCsvSet_arg args "--only-template") as (rt & ->).
  destruct (parseIndexSet_arg args "--only-index") as (ri & ->).
  simpl bind. eexists. split; [reflexivity|]. split; [exact Hrl | exact Hrs].
Qed.

Lemma buildFilters_lang_witness :
  exists fl,
    buildFilters (["--zip"] ++ "--only-lang" :: "en, de" :: ["--only-lang"; "fr"])
                 (Some ["300x250"])
    = Ok fl
    /\ parseCsvSet (VStr "en, de") = Ok (onlyLang fl)
    /\ (forall s, Some ["300x250"] = Some s -> onlySize fl = Some s).
Proof.
  apply (buildFilters_lang ["--zip"] ["--only-lang"; "fr"] "en, de"
           (Some ["300x250"])).
  simpl. intros [H|[]]. discriminate.
Defined.

(** ** A run without filters *)

Lemma matchesFilters_noFilters e fmt idx cfg tov (pass : bool) :
  matchesFilters e fmt idx cfg tov noFilters = Ok pass -> pass = true.
Proof.
  intros H.
  destruct (filterKeys e fmt cfg tov) as [[[[size lang] motive] ty]|x] eqn:E.
  - rewrite (matchesFilters_keys _ _ _ _ _ _ _ _ _ _ E) in H.
    inversion H. reflexivity.
  - rewrite (matchesFilters_throws _ _ _ _ _ _ _ E) in H. discriminate.
Qed.

Lemma reconcile_never_filters e o cfg campaign zipRoot idx fmt t c w w' c' :
  reconcile e o cfg campaign zipRoot idx fmt t c w = (w', Ok c') ->
  filteredOut c' = filteredOut c.
Proof.
  unfold reconcile. intros H.
  apply bindM_ok_inv in H. destruct H as (found & w1 & _ & H).
  apply bindM_ok_inv in H. destruct H as (ex & w2 & _ & H).
  destruct (negb (shouldProcessBanner (mode o) ex)).
  { inversion H. simpl. lia. }
  apply bindM_ok_inv in H. destruct H as ([ty root] & w3 & _ & H).
  destruct (negb (bool_decide (is_Some (templates e !! root)))).
  { inversion H. }
  inv_M H.
  destruct (negb (shouldRenderBanner _ _ _ _ _)).
  { inversion H. simpl. lia. }
  apply generate_counts in H. subst c'. simpl. lia.
Qed.

Lemma processFormat_noFilters e o cfg campaign outRoot zipRoot idx fmt c w w' c' :
  runFilters o = noFilters ->
  processFormat e o cfg campaign outRoot zipRoot idx fmt c w = (w', Ok c') ->
  filteredOut c' = filteredOut c.
Proof.
  intros Hf H. unfold processFormat in H.
  apply bindM_ok_inv in H. destruct H as (t & w1 & H1 & H).
  apply lift_ok_inv in H1. destruct H1 as [-> Hl].
  destruct t as [t|].
  - apply (reconcile_never_filters _ _ _ _ _ _ _ _ _ _ _ _ H).
  - exfalso. unfold locate in Hl. rewrite Hf in Hl.
    destruct (matchesFilters e fmt idx cfg (templateOverride o) noFilters) as [pass|x]
      eqn:Em; [|discriminate].
    rewrite (matchesFilters_noFilters _ _ _ _ _ _ Em) in Hl. simpl in Hl.
    repeat (apply bind_ok_inv in Hl; destruct Hl as (? & _ & Hl)).
    destruct (negb _ || negb _); [discriminate|].
    repeat (apply bind_ok_inv in Hl; destruct Hl as (? & _ & Hl)).
    discriminate.
Qed.

Lemma loop_noFilters e o cfg campaign outRoot zipRoot (formats : list value) :
  runFilters o = noFilters ->
  forall idx c w w' c',
    loop e o cfg campaign outRoot zipRoot idx formats c w = (w', Ok c') ->
    filteredOut c' = filteredOut c.
Proof.
  intros Hf. induction formats as [|fmt rest IH]; intros idx c w w' c' H.
  - inversion H. reflexivity.
  - simpl in H. apply bindM_ok_inv in H. destruct H as (c1 & w1 & H1 & H).
    rewrite (IH _ _ _ _ _ H).
    apply (processFormat_noFilters _ _ _ _ _ _ _ _ _ _ _ _ Hf H1).
Qed.

(** X26. Without any filter no format is filtered out: in a run that
    completes, every format of the configuration is either processed or
    skipped. *)
Theorem no_filter_counts_all e o cfg formats w w' c :
  runFilters o = noFilters ->
  readFormatsFromCfg cfg = Ok formats ->
  generateFromFormatsJson e o cfg w = (w', Ok c) ->
  filteredOut c = 0%nat /\ (processed c + skipped c = length formats)%nat.
Proof.
  intros Hf Hr H.
  assert (H0 : filteredOut c = 0%nat).
  { unfold generateFromFormatsJson in H.
    rewrite (bindM_lift_ok _ _ _ _ Hr) in H.
    destruct (length formats =? 0)%nat; [inversion H|].
    inv_M H. apply (loop_noFilters _ _ _ _ _ _ _ Hf) in H. exact H. }
  split; [exact H0|].
  assert (Hsum : (processed c = created c + updated c)%nat
                 /\ (processed c + skipped c + filteredOut c = length formats)%nat).
  { unfold generateFromFormatsJson in H.
    rewrite (bindM_lift_ok _ _ _ _ Hr) in H.
    destruct (length formats =? 0)%nat; [inversion H|].
    inv_M H. apply loop_counted in H; [|reflexivity]. simpl in H. exact H. }
  lia.
Qed.

Lemma no_filter_counts_all_witness :
  let c := {| processed := 1; created := 1; updated := 0; skipped := 0;
              filteredOut := 0 |} in
  generateFromFormatsJson Demo.host (Demo.run "incremental") Demo.campaign1
                          Demo.emptyDisk
  = (Demo.afterRun1, Ok c)
  /\ filteredOut c = 0%nat /\ (processed c + skipped c = 1)%nat.
Proof.
  intros c.
  assert (H : generateFromFormatsJson Demo.host (Demo.run "incremental")
                Demo.campaign1 Demo.emptyDisk = (Demo.afterRun1, Ok c))
    by (vm_compute; reflexivity).
  split; [exact H|].
  exact (no_filter_counts_all Demo.host (Demo.run "incremental") Demo.campaign1
           [Demo.banner300] Demo.emptyDisk Demo.afterRun1 c eq_refl eq_refl H).
Defined.

(** ** What a step of the loop leaves in its folder *)

Lemma in_put (name k : string) (n c : node) (d : entries) :
  In (k, c) (put name n d) -> (k, c) = (name, n) \/ In (k, c) d.
Proof.
  induction d as [|[k' x] d IH]; simpl.
  - intros [H|[]]. left. congruence.
  - destruct (name =? k')%string.
    + intros [H|H]; [left; congruence | right; right; exact H].
    + intros [H|H]; [right; left; exact H|].
      destruct (IH H) as [E|E]; [left; exact E | right; right; exact E].
Qed.

Lemma wellListed_dir (d : entries) :
  NoDup (map fst d) -> (forall k c, In (k, c) d -> wellListed c) -> wellListed (Dir d).
Proof.
  intros Hnd Hall. split; [exact Hnd|]. clear Hnd.
  induction d as [|[k c] d IH]; [exact I|]. split.
  - apply (Hall k c). left. reflexivity.
  - apply IH. intros k' c' Hin. apply (Hall k' c'). right. exact Hin.
Qed.

Lemma wellListed_put (name : string) (n : node) (d : entries) :
  wellListed (Dir d) -> wellListed n -> wellListed (Dir (put name n d)).
Proof.
  intros Hd Hn. apply wellListed_dir.
  - apply put_NoDup. apply Hd.
  - intros k c Hin. destruct (in_put _ _ _ _ _ Hin) as [E|E].
    + inversion E. subst. exact Hn.
    + apply (wellListed_child d k c Hd E).
Qed.

Lemma noSourceOfSource_dir (d : entries) :
  (forall k c, In (k, c) d ->
               Str.endsWith k ".mustache.mustache" = false /\ noSourceOfSource c) ->
  noSourceOfSource (Dir d).
Proof.
  intros Hall. induction d as [|[k c] d IH]; [exact I|].
  destruct (Hall k c (or_introl eq_refl)) as [Hk Hc].
  split; [exact Hk|]. split; [exact Hc|].
  apply IH. intros k' c' Hin. apply (Hall k' c'). right. exact Hin.
Qed.

Lemma ensureDir_shape (d d2 : entries) :
  ensureDir "assets" d = Ok d2 ->
  wellListed (Dir d) -> noSourceOfSource (Dir d) ->
  wellListed (Dir d2) /\ noSourceOfSource (Dir d2).
Proof.
  unfold ensureDir. destruct (lookup "assets" d) as [[c|es]|]; try discriminate.
  - intros H. inversion H. subst. auto.
  - intros H Hwl Hns. inversion H. subst d2. clear H. split.
    + apply wellListed_put; [exact Hwl|]. split; [constructor | exact I].
    + apply noSourceOfSource_dir. intros k c Hin.
      destruct (in_put _ _ _ _ _ Hin) as [E|E].
      * inversion E. subst. split; [reflexivity | exact I].
      * apply (noSourceOfSource_child d k c Hns E).
Qed.

Lemma at_path_put_ne (name seg : string) (r : list string) (n : node) (d : entries) :
  name <> seg ->
  at_path (seg :: r) (Dir (put name n d)) = at_path (seg :: r) (Dir d).
Proof. intros Hne. simpl. rewrite lookup_put_ne by exact Hne. reflexivity. Qed.

(** A file written into a folder hides nothing but the file of its name. *)
Lemma at_path_put_file (name : string) (c : content) (d : entries)
      (q : list string) (x : content) :
  ~ dirAt name d -> q <> [name] ->
  at_path q (Dir d) = Some (File x) ->
  at_path q (Dir (put name (File c) d)) = Some (File x).
Proof.
  intros Hnodir Hq Hat. destruct q as [|seg r]; [discriminate|].
  destruct (string_dec name seg) as [<- | Hne].
  - exfalso. simpl in Hat.
    destruct (lookup name d) as [[c0|sub]|] eqn:El; try discriminate.
    + destruct r; [congruence | discriminate].
    + apply Hnodir. exists sub. exact El.
  - rewrite at_path_put_ne by exact Hne. exact Hat.
Qed.

Lemma render_sources data (d d' : entries) :
  wellListed (Dir d) -> noSourceOfSource (Dir d) ->
  renderFromMustacheFiles d data true = Ok d' ->
  forall p name raw,
    at_path (p ++ [name]) (Dir d) = Some (File raw) ->
    Str.endsWith name ".mustache" = true ->
    at_path (p ++ [Str.dropEnd 9 name]) (Dir d') = Some (File (Rendered raw data)).
Proof.
  intros Hwl Hns H p name raw Hat Hsrc. unfold renderFromMustacheFiles in H.
  apply bind_ok_inv in H. destruct H as (n & Hn & H).
  destruct (renderNode_dir_ok _ _ _ _ Hn) as (es & ->). inversion H. subst d'.
  apply (renderNode_sources data (Dir d) Hwl Hns (Dir es) Hn p name raw Hat Hsrc).
Qed.


(** One step in incremental mode, taken apart. *)
Lemma reconcile_incremental_inv e o cfg campaign zipRoot idx fmt t c w w' c' :
  mode o = "incremental" ->
  reconcile e o cfg campaign zipRoot idx fmt t c w = (w', Ok c') ->
  exists ty root d1 d2 assets,
    getTemplateRoot e fmt cfg (templateOverride o) = Ok (ty, root)
    /\ ensureTemplateOnCreate e root (default [] (banners w !! bannerFolder t))
                              (bannerExists w (bannerFolder t)) = Ok d1
    /\ ensureDir "assets" d1 = Ok d2
    /\ readAssets d2 = Ok assets
    /\ if shouldRenderBanner "incremental" (bannerExists w (bannerFolder t))
            (readGenState d2) (VArr (map (fun a => VStr (snd a)) assets))
            (stableStringify fmt)
       then generate e o cfg campaign zipRoot idx fmt t
                     (bannerExists w (bannerFolder t)) ty d2 assets
                     (VArr (map (fun a => VStr (snd a)) assets)) (stableStringify fmt) c
                     {| banners := <[bannerFolder t := d2]> (banners w);
                        zips := zips w; console := console w |}
            = (w', Ok c')
       else w' = {| banners := <[bannerFolder t := d2]> (banners w);
                    zips := zips w; console := console w |}
            /\ c' = bump c 0 0 0 1 0.
Proof.
  intros Hmode H. unfold reconcile in H.
  rewrite (bindM_eval (folderEntries _) _ w w _ eq_refl) in H.
  rewrite (bindM_eval _ _ w w _ eq_refl) in H.
  rewrite Hmode in H. simpl in H.
  apply bindM_ok_inv in H. destruct H as ([ty root] & w1 & H1 & H).
  apply lift_ok_inv in H1. destruct H1 as [-> Htr].
  destruct (bool_decide (is_Some (templates e !! root))) eqn:Etpl; simpl in H;
    [|unfold throw in H; inversion H].
  apply bindM_ok_inv in H. destruct H as ([] & wa & Ha & H).
  rewrite setFolder_eval in Ha. inversion Ha. subst wa. clear Ha.
  apply bindM_ok_inv in H. destruct H as (d1 & w1 & H1 & H).
  apply lift_ok_inv in H1. destruct H1 as [-> Hd1].
  apply bindM_ok_inv in H. destruct H as ([] & wb & Hb & H).
  rewrite setFolder_eval in Hb. inversion Hb. subst wb. clear Hb. simpl in H.
  apply bindM_ok_inv in H. destruct H as (d2 & w1 & H1 & H).
  apply lift_ok_inv in H1. destruct H1 as [-> Hd2].
  apply bindM_ok_inv in H. destruct H as ([] & wc & Hc & H).
  rewrite setFolder_eval in Hc. inversion Hc. subst wc. clear Hc. simpl in H.
  apply bindM_ok_inv in H. destruct H as (assets & w1 & H1 & H).
  apply lift_ok_inv in H1. destruct H1 as [-> Hassets].
  rewrite !insert_insert_eq in H.
  exists ty, root, d1, d2, assets. repeat (split; [assumption|]).
  destruct (shouldRenderBanner "incremental" _ _ _ _); simpl in H.
  - exact H.
  - unfold ret in H. inversion H. auto.
Qed.

(** A generation that completes has rendered the format into its folder. *)
Lemma generate_rendersInto e o cfg campaign zipRoot idx fmt t ex ty root d1 d2 assets c
      w w' c' :
  getTemplateRoot e fmt cfg (templateOverride o) = Ok (ty, root) ->
  ensureDir "assets" d1 = Ok d2 ->
  readAssets d2 = Ok assets ->
  generate e o cfg campaign zipRoot idx fmt t ex ty d2 assets
           (VArr (map (fun a => VStr (snd a)) assets)) (stableStringify fmt) c w
  = (w', Ok c') ->
  rendersInto e o cfg campaign idx fmt t d1 w'
  /\ c' = bump c 1 (if ex then 0 else 1) (if ex then 1 else 0) 0 0.
Proof.
  intros Htr Hd2 Has H.
  destruct (generate_ok_view _ _ _ _ _ _ _ _ _ _ _ _ _ _ _ _ _ _ H)
    as (view & d3 & d4 & Hview & Hr & Hw & Hb & _ & Hc).
  split; [|exact Hc].
  pose proof (writeGenState_no_dir _ _ _ Hw) as Hnodir.
  apply writeGenState_ok_inv in Hw.
  exists ty, root, d2, assets, view, d3, d4.
  repeat (split; [assumption|]).
  split; [rewrite Hb; apply lookup_insert_eq|].
  intros Hwl Hns p name raw Hat Hsrc Hne.
  destruct (ensureDir_shape _ _ Hd2 Hwl Hns) as [Hwl2 Hns2].
  rewrite Hw. apply at_path_put_file; [exact Hnodir | exact Hne|].
  apply (render_sources view d2 d3 Hwl2 Hns2 Hr p name raw Hat Hsrc).
Qed.

(** C1. In create-only mode [reconcile] leaves an artifact that exists alone
    and counts it as skipped; in update mode it leaves a missing artifact
    missing and counts it as skipped. In incremental mode, whenever it
    completes: a missing artifact is counted as created, and its folder,
    with the template in place, has been rendered; an artifact that exists
    is counted as updated, and its folder has been rendered, exactly when
    there is no persisted state, or the persisted asset file names differ
    from the current ones, or the persisted fingerprint differs from the
    current one; otherwise it is counted as skipped and nothing is rendered:
    its folder is as it was, no archive is written and nothing is printed.
    Rendered means: every dynamic source of the folder has its output
    rendered with the view of the format, and the state record of now is
    written; this is all the folder holds where the archive is written
    outside it. *)
Theorem mode_exclusivity e o cfg campaign zipRoot idx fmt t c w :
  (mode o = "create-only" ->
   bannerExists w (bannerFolder t) = true ->
   reconcile e o cfg campaign zipRoot idx fmt t c w = (w, Ok (bump c 0 0 0 1 0)))
  /\ (mode o = "update" ->
      bannerExists w (bannerFolder t) = false ->
      reconcile e o cfg campaign zipRoot idx fmt t c w = (w, Ok (bump c 0 0 0 1 0)))
  /\ (mode o = "incremental" ->
      forall w' c',
        reconcile e o cfg campaign zipRoot idx fmt t c w = (w', Ok c') ->
        if bannerExists w (bannerFolder t) then
          exists d assets,
            banners w !! bannerFolder t = Some d
            /\ readAssets d = Ok assets
            /\ ((staleState (readGenState d) assets (stableStringify fmt)
                 /\ c' = bump c 1 0 1 0 0
                 /\ (zipsOutside o zipRoot (bannerFolder t) ->
                     rendersInto e o cfg campaign idx fmt t d w'))
                \/ (~ staleState (readGenState d) assets (stableStringify fmt)
                    /\ c' = bump c 0 0 0 1 0
                    /\ leavesAsIs t d w w'))
        else
          c' = bump c 1 1 0 0 0
          /\ exists ty root d1,
               getTemplateRoot e fmt cfg (templateOverride o) = Ok (ty, root)
               /\ ensureTemplateOnCreate e root
                    (default [] (banners w !! bannerFolder t)) false = Ok d1
               /\ (zipsOutside o zipRoot (bannerFolder t) ->
                   rendersInto e o cfg campaign idx fmt t d1 w')).
Proof.
  split; [|split].
  - apply reconcile_create_only_existing.
  - apply reconcile_update_missing.
  - intros Hmode w' c' H.
    destruct (reconcile_incremental_inv _ _ _ _ _ _ _ _ _ _ _ _ Hmode H)
      as (ty & root & d1 & d2 & assets & Htr & Hd1 & Hd2 & Has & Hstep).
    destruct (bannerExists w (bannerFolder t)) eqn:Hex.
    + unfold bannerExists in Hex.
      destruct (banners w !! bannerFolder t) as [d|] eqn:Hd; [|discriminate].
      simpl in Hd1. inversion Hd1. subst d1. clear Hd1.
      destruct (readAssets_ensureDir _ _ Hd2) as (Ha & Hg & _).
      exists d, assets. split; [reflexivity|]. split; [rewrite <- Ha; exact Has|].
      rewrite Hg in Hstep.
      destruct (shouldRenderBanner _ _ _ _ _) eqn:Edec.
      * left. split; [apply shouldRender_incremental; exact Edec|].
        destruct (generate_rendersInto _ _ _ _ _ _ _ _ _ _ _ _ _ _ _ _ _ _
                    Htr Hd2 Has Hstep) as [Hr Hc].
        split; [exact Hc | intros _; exact Hr].
      * right. split.
        -- intros Hs. apply shouldRender_incremental in Hs. congruence.
        -- destruct Hstep as [-> ->]. split; [reflexivity|].
           exists d2. split; [exact Hd2|]. simpl.
           split; [apply lookup_insert_eq | auto].
    + assert (Edec : shouldRenderBanner "incremental" false (readGenState d2)
                       (VArr (map (fun a => VStr (snd a)) assets)) (stableStringify fmt)
                     = true) by reflexivity.
      rewrite Edec in Hstep.
      destruct (generate_rendersInto _ _ _ _ _ _ _ _ _ _ _ _ _ _ _ _ _ _
                  Htr Hd2 Has Hstep) as [Hr Hc].
      split; [exact Hc|]. exists ty, root, d1. auto.
Qed.

Lemma mode_exclusivity_witness :
  snd (reconcile Demo.host (Demo.run "incremental") Demo.campaign1 (VStr "c")
         ["work"; "output"; "zip"] 0 Demo.banner300 Demo.at300 noCounts Demo.emptyDisk)
  = Ok (bump noCounts 1 1 0 0 0)
  /\ exists d4,
      banners (fst (reconcile Demo.host (Demo.run "incremental") Demo.campaign1
                      (VStr "c") ["work"; "output"; "zip"] 0 Demo.banner300 Demo.at300
                      noCounts Demo.emptyDisk))
      !! Demo.folder300 = Some d4
      /\ at_path ["index.html"] (Dir d4)
         = Some (File (Rendered (Text "<html>{{WIDTH}}</html>") (Demo.view300 []))).
Proof.
  pose proof (proj2 (proj2 (mode_exclusivity Demo.host (Demo.run "incremental")
                              Demo.campaign1 (VStr "c") ["work"; "output"; "zip"] 0%nat
                              Demo.banner300 Demo.at300 noCounts Demo.emptyDisk)))
    as H.
  destruct (reconcile Demo.host (Demo.run "incremental") Demo.campaign1 (VStr "c")
              ["work"; "output"; "zip"] 0 Demo.banner300 Demo.at300 noCounts
              Demo.emptyDisk) as [w' r] eqn:E.
  assert (Hr : exists c', r = Ok c').
  { assert (Hs : snd (reconcile Demo.host (Demo.run "incremental") Demo.campaign1
                        (VStr "c") ["work"; "output"; "zip"] 0 Demo.banner300
                        Demo.at300 noCounts Demo.emptyDisk)
                 = Ok (bump noCounts 1 1 0 0 0)) by (vm_compute; reflexivity).
    rewrite E in Hs. eauto. }
  destruct Hr as (c' & ->).
  assert (Hzip : zipsOutside (Demo.run "incremental") ["work"; "output"; "zip"]
                             (bannerFolder Demo.at300)).
  { intros _. apply (bool_decide_unpack _). vm_compute. exact I. }
  specialize (H eq_refl w' c' eq_refl).
  replace (bannerExists Demo.emptyDisk (bannerFolder Demo.at300)) with false in H
    by (vm_compute; reflexivity).
  destruct H as (Hc & ty & root & d1 & Htr & Hd1 & Hrender).
  specialize (Hrender Hzip).
  vm_compute in Htr. inversion Htr. subst ty root. clear Htr.
  vm_compute in Hd1. inversion Hd1. subst d1. clear Hd1.
  destruct Hrender
    as (ty & root & d2 & assets & view & d3 & d4 & Htr & Hd2 & Has & Hview & _ & _
        & Hb & Hout).
  vm_compute in Htr. inversion Htr. subst ty root. clear Htr.
  vm_compute in Hd2. inversion Hd2. subst d2. clear Hd2.
  vm_compute in Has. inversion Has. subst assets. clear Has.
  simpl. split; [f_equal; exact Hc|].
  exists d4. split; [exact Hb|].
  assert (Hv : view = Demo.view300 []).
  { vm_compute in Hview. inversion Hview. vm_compute. reflexivity. }
  subst view.
  apply (Hout) with (p := []) (name := "index.html.mustache").
  - vm_compute. repeat split; apply (bool_decide_unpack _); vm_compute; exact I.
  - vm_compute. repeat split.
  - reflexivity.
  - reflexivity.
  - vm_compute. discriminate.
Defined.

(** C9. In incremental mode, for an artifact that exists and whose state
    record is missing or is not a JSON document: reading the record gives
    null and throws nothing; with that answer the decision is to render; a
    step that completes has counted the artifact as updated, has rendered
    it again (every dynamic source of its folder has its output rendered
    with the view of the format) and has written the state record of now
    over what was there, so that the artifact is up to date; this is all the
    folder holds where the archive is written outside it; and once the
    files are rendered, writing that record over the unreadable one
    succeeds. *)
Theorem corrupt_state_recovery e o cfg campaign zipRoot idx fmt t c w d :
  mode o = "incremental" ->
  tidyDisk w ->
  banners w !! bannerFolder t = Some d ->
  hasEntry "index.html" d = true ->
  unreadableState d ->
  readGenState d = VNull
  /\ (forall ex assetsFiles fmtSig,
         shouldRenderBanner "incremental" ex (readGenState d) assetsFiles fmtSig = true)
  /\ (forall w' c',
         reconcile e o cfg campaign zipRoot idx fmt t c w = (w', Ok c') ->
         c' = bump c 1 0 1 0 0
         /\ upToDate w' (bannerFolder t) (stableStringify fmt)
         /\ (zipsOutside o zipRoot (bannerFolder t) ->
             rendersInto e o cfg campaign idx fmt t d w'))
  /\ (forall d2 view d3 assetsFiles fmtSig ty,
         ensureDir "assets" d = Ok d2 ->
         renderFromMustacheFiles d2 view true = Ok d3 ->
         writeGenState d3 (stateRecord e idx assetsFiles fmtSig ty)
         = Ok (put ".gen-state.json"
                 (File (Json (jsonCopy (stateRecord e idx assetsFiles fmtSig ty)))) d3)).
Proof.
  intros Hmode Htidy Hd Hidx Hbad.
  pose proof (unreadable_null _ Hbad) as Hnull.
  split; [exact Hnull|]. split; [|split].
  - intros ex af sig. rewrite Hnull. unfold shouldRenderBanner. simpl.
    rewrite orb_true_r. reflexivity.
  - intros w' c' H.
    assert (Hex : bannerExists w (bannerFolder t) = true)
      by (unfold bannerExists; rewrite Hd; exact Hidx).
    destruct (reconcile_incremental_inv _ _ _ _ _ _ _ _ _ _ _ _ Hmode H)
      as (ty & root & d1 & d2 & assets & Htr & Hd1 & Hd2 & Has & Hstep).
    assert (Hdef : default [] (banners w !! bannerFolder t) = d)
      by exact (f_equal (default []) Hd).
    rewrite Hex, Hdef in Hd1. simpl in Hd1. inversion Hd1. subst d1. clear Hd1.
    destruct (readAssets_ensureDir _ _ Hd2) as (_ & Hg & _).
    rewrite Hex, Hg, Hnull in Hstep.
    change (shouldRenderBanner "incremental" true VNull
              (VArr (map (fun a => VStr (snd a)) assets)) (stableStringify fmt))
      with true in Hstep.
    destruct (generate_rendersInto _ _ _ _ _ _ _ _ _ _ _ _ _ _ _ _ _ _
                Htr Hd2 Has Hstep) as [Hr Hc].
    split; [exact Hc|]. split; [|intros _; exact Hr].
    apply (reconcile_incremental_ok _ _ _ _ _ _ _ _ _ _ _ _ Hmode Htidy H).
  - intros d2 view d3 af sig ty Hd2 Hr.
    apply writeGenState_over_file; [apply serialize_obj|]. intros Hdir.
    destruct (ensureDir_assets _ _ (Htidy _ _ Hd) Hd2) as ([Hnd2 _] & _).
    destruct (render_keeps _ _ _ Hnd2 Hr) as (_ & Hdirs & _).
    apply Hdirs in Hdir.
    assert (Hne : ".gen-state.json" <> "assets") by discriminate.
    apply (dirAt_ensureDir _ _ _ Hne Hd2) in Hdir.
    apply (unreadable_no_dir _ Hbad Hdir).
Qed.

Lemma corrupt_state_recovery_witness :
  readGenState Demo.cutShort = VNull
  /\ snd (reconcile Demo.host (Demo.run "incremental") Demo.campaign1 (VStr "c")
            ["work"; "output"; "zip"] 0 Demo.banner300 Demo.at300 noCounts
            Demo.cutShortDisk)
     = Ok (bump noCounts 1 0 1 0 0)
  /\ exists d4,
      banners (fst (reconcile Demo.host (Demo.run "incremental") Demo.campaign1
                      (VStr "c") ["work"; "output"; "zip"] 0 Demo.banner300 Demo.at300
                      noCounts Demo.cutShortDisk))
      !! Demo.folder300 = Some d4
      /\ at_path ["index.html"] (Dir d4)
         = Some (File (Rendered (Text "<html>{{WIDTH}}</html>")
                         (Demo.view300 [VObj [("id", VStr "logo");
                                              ("file", VStr "logo.png")]])))
      /\ getOpt (readGenState d4) "assetsFiles" = VArr [VStr "logo.png"].
Proof.
  pose proof (corrupt_state_recovery Demo.host (Demo.run "incremental") Demo.campaign1
                (VStr "c") ["work"; "output"; "zip"] 0%nat Demo.banner300 Demo.at300
                noCounts Demo.cutShortDisk Demo.cutShort) as H.
  destruct H as (Hnull & _ & Hstep & _).
  - reflexivity.
  - intros folder d Hf. simpl in Hf. apply lookup_singleton_Some in Hf.
    destruct Hf as [_ <-]. split.
    + apply (bool_decide_unpack _). vm_compute. exact I.
    + intros es Hes. vm_compute in Hes. inversion Hes. repeat constructor.
  - reflexivity.
  - reflexivity.
  - exact I.
  - split; [exact Hnull|].
    destruct (reconcile Demo.host (Demo.run "incremental") Demo.campaign1 (VStr "c")
                ["work"; "output"; "zip"] 0 Demo.banner300 Demo.at300 noCounts
                Demo.cutShortDisk) as [w' r] eqn:E.
    assert (Hr : exists c', r = Ok c').
    { assert (Hs : snd (reconcile Demo.host (Demo.run "incremental") Demo.campaign1
                          (VStr "c") ["work"; "output"; "zip"] 0 Demo.banner300
                          Demo.at300 noCounts Demo.cutShortDisk)
                   = Ok (bump noCounts 1 0 1 0 0)) by (vm_compute; reflexivity).
      rewrite E in Hs. eauto. }
    destruct Hr as (c' & ->).
    destruct (Hstep w' c' eq_refl) as (Hc & _ & Hrender).
    assert (Hzip : zipsOutside (Demo.run "incremental") ["work"; "output"; "zip"]
                               (bannerFolder Demo.at300)).
    { intros _. apply (bool_decide_unpack _). vm_compute. exact I. }
    specialize (Hrender Hzip).
    simpl. split; [f_equal; exact Hc|].
    destruct Hrender
      as (ty & root & d2 & assets & view & d3 & d4 & Htr & Hd2 & Has & Hview & _ & Hd4
          & Hb & Hout).
    vm_compute in Htr. inversion Htr. subst ty root. clear Htr.
    vm_compute in Hd2. inversion Hd2. subst d2. clear Hd2.
    vm_compute in Has. inversion Has. subst assets. clear Has.
    assert (Hv : view = Demo.view300 [VObj [("id", VStr "logo");
                                            ("file", VStr "logo.png")]]).
    { vm_compute in Hview. inversion Hview. vm_compute. reflexivity. }
    subst view.
    exists d4. split; [exact Hb|]. split.
    + apply (Hout) with (p := []) (name := "index.html.mustache").
      * vm_compute. repeat split; apply (bool_decide_unpack _); vm_compute; exact I.
      * vm_compute. repeat split.
      * reflexivity.
      * reflexivity.
      * vm_compute. discriminate.
    + rewrite Hd4. unfold readGenState. rewrite lookup_put_eq. reflexivity.
Defined.
